(** * HFT-Orderbook-Engine: the matching core, embedded and checked

    A shallow embedding of the single-instrument matching core of the
    repository: [Order] (Order.h), [RiskManager] (RiskManager.h),
    [LockFreeQueue] (LockFreeQueue.h), [ObjectPool] (ObjectPool.h),
    [AsyncJournaler] (Journaler.h) and [Orderbook] (Orderbook.h,
    Orderbook.cpp).

    Conventions of the embedding.
    - Integers are [Z]; where the C++ does unsigned arithmetic on a
      [Quantity] the wrap-around is written out with [wrapQ].
    - A [std::shared_ptr<Order>] is an address ([N]) into a [Heap.t]; the
      Order objects live in the heap, so the pool, the FIFOs and the id
      index share them as the code does.
    - Code that may throw, run into undefined behaviour or loop for ever
      returns an [outcome]; loops that are not structurally bounded take
      fuel and answer [OutOfFuel] when it is used up.
    - The matcher thread is modelled on its own: producers and the
      journal writer act between its steps, not during them. *)

From stdpp Require Import base numbers option list gmap.
From Stdlib Require Import ZArith Lia.

Local Open Scope Z_scope.

(** ** Usings.h *)

(** Modelled from the spec: Usings.h is not among the sources. Section 3 of
    the specification makes [Price], [Quantity] and [OrderId] fixed-width
    integers; ObjectPool.h asserts [sizeof(PriceLevel) == 64] for a struct
    that holds one [Price], one [Quantity], three [uint32_t] and 44 bytes,
    which leaves four bytes for each of the two. Prices are only compared,
    never computed with, so their signedness plays no role here. *)
Abbreviation Price := Z.
Abbreviation Quantity := Z.
Abbreviation OrderId := Z.

Definition Quantity_modulus : Z := 2 ^ 32.

(** Unsigned [Quantity] arithmetic: the result of [+=] and [-=] is taken
    modulo [2^32]. *)
Definition wrapQ (z : Z) : Z := z mod Quantity_modulus.

(** Modelled from the spec: Side.h and OrderType.h are not among the
    sources; the enumerators are the ones the sources use
    ([Side::Buy], [Side::Sell], [OrderType::Market], ...). *)
Inductive Side := Buy | Sell.

Inductive OrderType := GoodTillCancel | FillAndKill | FillOrKill | Market.

#[global] Instance Side_eq_dec : EqDecision Side.
Proof. solve_decision. Defined.

#[global] Instance OrderType_eq_dec : EqDecision OrderType.
Proof. solve_decision. Defined.

(** ** Outcomes of a call *)

Inductive fault :=
  | LogicError   (* std::logic_error thrown by Order *)
  | OutOfRange   (* std::out_of_range thrown by std::map::at *)
  | Undefined.   (* undefined behaviour: front() of an empty list, a null
                    or foreign pointer or iterator *)

Inductive outcome (A : Type) :=
  | Done (a : A)
  | Fault (f : fault)
  | OutOfFuel.

Arguments Done {A} a.
Arguments Fault {A} f.
Arguments OutOfFuel {A}.

#[global] Instance outcome_ret : MRet outcome := fun A a => Done a.

#[global] Instance outcome_bind : MBind outcome := fun A B k c =>
  match c with
  | Done a => k a
  | Fault f => Fault f
  | OutOfFuel => OutOfFuel
  end.

(** [need f o]: the value of [o], or the fault [f] when there is none. *)
Definition need {A : Type} (f : fault) (o : option A) : outcome A :=
  match o with
  | Some a => Done a
  | None => Fault f
  end.

(** ** Order.h *)

Module Order.

Record t := mk {
  orderType_ : OrderType;
  orderId_ : OrderId;
  side_ : Side;
  price_ : Price;
  initialQuantity_ : Quantity;
  remainingQuantity_ : Quantity
}.

(** [Order() = default] under [new T()]: every member is zero. The
    enumerator of value zero is taken to be the first one listed. *)
Definition zero : t := mk GoodTillCancel 0 Buy 0 0 0.

Definition GetOrderId (o : t) : OrderId := orderId_ o.
Definition GetSide (o : t) : Side := side_ o.
Definition GetPrice (o : t) : Price := price_ o.
Definition GetOrderType (o : t) : OrderType := orderType_ o.
Definition GetInitialQuantity (o : t) : Quantity := initialQuantity_ o.
Definition GetRemainingQuantity (o : t) : Quantity := remainingQuantity_ o.

Definition GetFilledQuantity (o : t) : Quantity :=
  wrapQ (GetInitialQuantity o - GetRemainingQuantity o).

Definition IsFilled (o : t) : bool :=
  bool_decide (GetRemainingQuantity o = 0).

Definition Fill (quantity : Quantity) (o : t) : outcome t :=
  if bool_decide (quantity > GetRemainingQuantity o) then Fault LogicError
  else Done (mk (orderType_ o) (orderId_ o) (side_ o) (price_ o)
                (initialQuantity_ o)
                (wrapQ (remainingQuantity_ o - quantity))).

Definition ToGoodTillCancel (price : Price) (o : t) : outcome t :=
  if bool_decide (GetOrderType o <> Market) then Fault LogicError
  else Done (mk GoodTillCancel (orderId_ o) (side_ o) price
                (initialQuantity_ o) (remainingQuantity_ o)).

Definition Reset (orderType : OrderType) (orderId : OrderId) (side : Side)
    (price : Price) (quantity : Quantity) (_ : t) : t :=
  mk orderType orderId side price quantity quantity.

End Order.

(** ** RiskManager.h *)

Module RiskManager.

Record Config := mkConfig {
  maxOrderQuantity : Quantity;
  maxPrice : Price;
  minPrice : Price
}.

Definition Config_default : Config := mkConfig 10000 1000000 1.

Inductive Result := Allowed | RejectedMaxQty | RejectedPriceRange.

#[global] Instance Result_eq_dec : EqDecision Result.
Proof. solve_decision. Defined.

Definition CheckOrder (config_ : Config) (order : Order.t) : Result :=
  if bool_decide (Order.GetInitialQuantity order > maxOrderQuantity config_)
  then RejectedMaxQty
  else if bool_decide (Order.GetOrderType order <> Market)
  then
    if bool_decide (Order.GetPrice order > maxPrice config_)
       || bool_decide (Order.GetPrice order < minPrice config_)
    then RejectedPriceRange
    else Allowed
  else Allowed.

End RiskManager.

(** ** LockFreeQueue.h *)

Module LockFreeQueue.

Section Queue.
Context {T : Type}.

(** [head_], [tail_] and [capacity_] are [size_t]; they stay below
    [capacity_ + 1] and a vector cannot be that long, so natural
    numbers lose nothing. [% capacity_] is undefined for a capacity
    of zero: the statements about [Push] and [Pop] are made for
    positive capacities. *)
Record t := mk {
  buffer_ : list T;
  capacity_ : nat;
  head_ : nat;
  tail_ : nat
}.

Definition ctor (dflt : T) (size : nat) : t :=
  mk (replicate size dflt) size 0 0.

Definition Push (item : T) (q : t) : bool * t :=
  let currentTail := tail_ q in
  let nextTail := ((currentTail + 1) mod capacity_ q)%nat in
  if bool_decide (nextTail = head_ q) then (false, q)
  else (true, mk (<[currentTail := item]> (buffer_ q)) (capacity_ q)
                 (head_ q) nextTail).

(** [Pop(item)]: [None] is the answer [false], with [item] left as
    it was. A read past the end of [buffer_] is undefined behaviour
    and cannot happen while [head_ < capacity_ = |buffer_|]; the
    model answers [None] there. *)
Definition Pop (q : t) : option T * t :=
  let currentHead := head_ q in
  if bool_decide (currentHead = tail_ q) then (None, q)
  else match buffer_ q !! currentHead with
       | Some item =>
           (Some item, mk (buffer_ q) (capacity_ q)
                          ((currentHead + 1) mod capacity_ q)%nat (tail_ q))
       | None => (None, q)
       end.

Definition IsEmpty (q : t) : bool := bool_decide (head_ q = tail_ q).

Definition Size (q : t) : nat :=
  if bool_decide (head_ q <= tail_ q)%nat then (tail_ q - head_ q)%nat
  else (capacity_ q - (head_ q - tail_ q))%nat.

Definition Capacity (q : t) : nat := capacity_ q.

(** The state a constructed queue is in after any number of pushes
    and pops. *)
Definition wf (q : t) : Prop :=
  (0 < capacity_ q)%nat /\ (head_ q < capacity_ q)%nat
  /\ (tail_ q < capacity_ q)%nat /\ length (buffer_ q) = capacity_ q.

(** [cells buffer C i n]: the [n] cells of the ring from index [i]
    on, wrapping at [C]. *)
Fixpoint cells (buffer : list T) (C i n : nat) : list T :=
  match n with
  | O => []
  | S n' =>
      match buffer !! i with
      | Some x => x :: cells buffer C ((i + 1) mod C)%nat n'
      | None => []
      end
  end.

(** The items held, oldest first: the cells from [head_] up to, and
    without, [tail_]. *)
Definition contents (q : t) : list T :=
  cells (buffer_ q) (capacity_ q) (head_ q) (Size q).

(** The distance from index [h] forward to index [t] on a ring of [C]
    cells. *)
Definition dist (C h t : nat) : nat :=
  if bool_decide (h <= t)%nat then (t - h)%nat else (C - (h - t))%nat.

(** The queue once every item held has been popped. *)
Definition drained (q : t) : t :=
  mk (buffer_ q) (capacity_ q) (tail_ q) (tail_ q).

(** [push_all items q]: the pushes of [items] in turn, with the
    answer of each. *)
Fixpoint push_all (items : list T) (q : t) : list bool * t :=
  match items with
  | [] => ([], q)
  | x :: rest =>
      let '(b, q1) := Push x q in
      let '(bs, q2) := push_all rest q1 in
      (b :: bs, q2)
  end.

End Queue.

Arguments t : clear implicits.

End LockFreeQueue.

(** ** Objects behind shared pointers *)

Module Heap.

Section Heap.
Context {T : Type} (zero : T).

(** The objects at the addresses below [next] exist. [cells] holds the
    ones written to since their [new T()]; the others still have the
    value [zero] they were initialised with. *)
Record t := mk {
  cells : gmap N T;
  next : N
}.

Definition empty : t := mk ∅ 0%N.

(** [new T()]: the object at the next free address, holding [zero]
    (nothing is kept in [cells] for it). *)
Definition alloc (h : t) : N * t :=
  (next h, mk (delete (next h) (cells h)) (N.succ (next h))).

Definition read (p : N) (h : t) : option T :=
  if bool_decide (p < next h)%N then Some (default zero (cells h !! p))
  else None.

Definition write (p : N) (v : T) (h : t) : t :=
  mk (<[p := v]> (cells h)) (next h).

End Heap.

Arguments t : clear implicits.

End Heap.

(** ** ObjectPool.h *)

Module ObjectPool.

Section Pool.
Context {T : Type}.

(** [pool_] is the vector of free objects, written with the back of
    the vector at the head of the list: [push_back] is a cons,
    [back()] the head, [pop_back] the tail. The mutex and the unused
    memory resource have no state of interest. *)
Record t := mk { pool_ : list N }.

Definition ctor (initialSize : N) (h : Heap.t T) : t * Heap.t T :=
  N.iter initialSize
    (fun '(pool, h) =>
       let '(obj, h') := Heap.alloc h in
       (mk (obj :: pool_ pool), h'))
    (mk [], h).

Definition Acquire (pool : t) (h : Heap.t T) : N * t * Heap.t T :=
  match pool_ pool with
  | [] =>
      (* Standard alloc for fallback *)
      let '(obj, h') := Heap.alloc h in
      (obj, pool, h')
  | obj :: rest => (obj, mk rest, h)
  end.

Definition Release (obj : N) (pool : t) : t := mk (obj :: pool_ pool).

End Pool.

End ObjectPool.

(** ** OrderModify.h, Trade.h *)

(** Modelled from the spec: OrderModify.h and Trade.h are not among the
    sources. The fields are those the sources construct and read:
    [OrderModify{id, side, price, quantity}] with its getters, and
    [Trade{TradeInfo bid, TradeInfo ask}] with
    [TradeInfo{orderId, price, quantity}]. *)
Module OrderModify.

Record t := mk {
  orderId_ : OrderId;
  side_ : Side;
  price_ : Price;
  quantity_ : Quantity
}.

Definition GetOrderId (m : t) : OrderId := orderId_ m.
Definition GetSide (m : t) : Side := side_ m.
Definition GetPrice (m : t) : Price := price_ m.
Definition GetQuantity (m : t) : Quantity := quantity_ m.

End OrderModify.

Module TradeInfo.

Record t := mk {
  orderId_ : OrderId;
  price_ : Price;
  quantity_ : Quantity
}.

End TradeInfo.

Module Trade.

Record t := mk {
  bidTrade_ : TradeInfo.t;
  askTrade_ : TradeInfo.t
}.

End Trade.

Abbreviation Trades := (list Trade.t).

(** ** Orderbook::Request (Orderbook.h) *)

Module Request.

Inductive Type_ := Add | Cancel | Modify.

#[global] Instance Type_eq_dec : EqDecision Type_.
Proof. solve_decision. Defined.

(** [order] is the shared pointer, [None] for [nullptr]. *)
Record t := mk {
  type : Type_;
  order : option N;
  orderId : OrderId;
  modify : OrderModify.t;
  timestamp : Z
}.

(** A value-initialised request, as the cells of a fresh ring hold. *)
Definition zero : t := mk Add None 0 (OrderModify.mk 0 Buy 0 0) 0.

End Request.

(** ** Journaler.h *)

Module AsyncJournaler.

(** What [Log] copies into an entry, field by field (the byte layout is
    not modelled). No field is a sequence number. *)
Inductive field :=
  | F_type (ty : Request.Type_)
  | F_orderId (id : OrderId)
  | F_orderType (ot : OrderType)
  | F_side (sd : Side)
  | F_price (px : Price)
  | F_quantity (q : Quantity)
  | F_modify (m : OrderModify.t).

Record LogEntry := mkEntry { data : list field }.

Record t := mk { queue_ : LockFreeQueue.t LogEntry }.

Definition ctor : t :=
  mk (LockFreeQueue.ctor (mkEntry []) (N.to_nat 65536)).

Definition entry_of (req : Request.t) (h : Heap.t Order.t)
    : outcome LogEntry :=
  let head := [F_type (Request.type req); F_orderId (Request.orderId req)] in
  match Request.type req, Request.order req with
  | Request.Add, Some p =>
      o ← need Undefined (Heap.read Order.zero p h);
      Done (mkEntry (head ++
        [F_orderType (Order.GetOrderType o); F_orderId (Order.GetOrderId o);
         F_side (Order.GetSide o); F_price (Order.GetPrice o);
         F_quantity (Order.GetInitialQuantity o)]))
  | Request.Modify, _ =>
      Done (mkEntry (head ++ [F_modify (Request.modify req)]))
  | _, _ => Done (mkEntry head)
  end.

(** [Log] spins while the ring is full; with the writer thread not
    running in between that is for ever. *)
Definition Log (req : Request.t) (h : Heap.t Order.t) (j : t) : outcome t :=
  entry ← entry_of req h;
  match LockFreeQueue.Push entry (queue_ j) with
  | (true, q) => Done (mk q)
  | (false, _) => OutOfFuel
  end.

End AsyncJournaler.

(** ** std::map<Price, OrderPointers, Compare> and std::list<OrderPointer> *)

Module OrderPointers.

(** [erase(iterator)]: the iterator kept in [orders_] designates the
    node that holds the order's pointer; erasing through an iterator
    that is not of this list is undefined ([None]). *)
Fixpoint erase (p : N) (l : list N) : option (list N) :=
  match l with
  | [] => None
  | x :: rest =>
      if bool_decide (x = p) then Some rest
      else cons x <$> erase p rest
  end.

End OrderPointers.

Module PriceMap.

(** The entries in the order of the comparator: [begin()] is the head,
    [rbegin()] the last. *)
Abbreviation t := (list (Price * list N)).

Definition greater (a b : Price) : bool := bool_decide (a > b).
Definition less (a b : Price) : bool := bool_decide (a < b).

Definition begin (m : t) : option (Price * list N) := head m.
Definition rbegin (m : t) : option (Price * list N) := last m.

Fixpoint at_ (price : Price) (m : t) : option (list N) :=
  match m with
  | [] => None
  | (k, l) :: rest => if bool_decide (k = price) then Some l else at_ price rest
  end.

(** [m[price]]: the key is inserted with an empty list when absent. *)
Fixpoint subscript (before : Price -> Price -> bool) (price : Price) (m : t) : t :=
  match m with
  | [] => [(price, [])]
  | (k, l) :: rest =>
      if bool_decide (k = price) then (k, l) :: rest
      else if before price k then (price, []) :: (k, l) :: rest
      else (k, l) :: subscript before price rest
  end.

(** The list at [price] replaced by its image under [f]. *)
Fixpoint update (price : Price) (f : list N -> list N) (m : t) : t :=
  match m with
  | [] => []
  | (k, l) :: rest =>
      if bool_decide (k = price) then (k, f l) :: rest
      else (k, l) :: update price f rest
  end.

(** [pop_front] on the list of the first entry. *)
Definition pop_front_begin (m : t) : t :=
  match m with
  | (k, _ :: l) :: rest => (k, l) :: rest
  | _ => m
  end.

End PriceMap.

(** ** Orderbook.h, Orderbook.cpp: the book *)

Module LevelData.

Record t := mk {
  quantity_ : Quantity;
  count_ : Quantity
}.

Inductive Action := Add | Remove | Match.

End LevelData.

Module Book.

(** The members of [Orderbook] that the request handlers read and
    write, with the heap of the Order objects they point into. An
    [OrderEntry] of [orders_] is kept as its pointer; its iterator is
    the node of the FIFO that holds this pointer. *)
Record t := mk {
  heap : Heap.t Order.t;
  data_ : gmap Z LevelData.t;
  bids_ : PriceMap.t;
  asks_ : PriceMap.t;
  orders_ : gmap Z N;
  orderPool_ : ObjectPool.t
}.

Definition set_heap (h : Heap.t Order.t) (b : t) : t :=
  mk h (data_ b) (bids_ b) (asks_ b) (orders_ b) (orderPool_ b).
Definition set_data (d : gmap Z LevelData.t) (b : t) : t :=
  mk (heap b) d (bids_ b) (asks_ b) (orders_ b) (orderPool_ b).
Definition set_bids (m : PriceMap.t) (b : t) : t :=
  mk (heap b) (data_ b) m (asks_ b) (orders_ b) (orderPool_ b).
Definition set_asks (m : PriceMap.t) (b : t) : t :=
  mk (heap b) (data_ b) (bids_ b) m (orders_ b) (orderPool_ b).
Definition set_orders (o : gmap Z N) (b : t) : t :=
  mk (heap b) (data_ b) (bids_ b) (asks_ b) o (orderPool_ b).
Definition set_pool (p : ObjectPool.t) (b : t) : t :=
  mk (heap b) (data_ b) (bids_ b) (asks_ b) (orders_ b) p.

(** [*order] and the write-back of a changed object. *)
Definition deref (order : N) (b : t) : outcome Order.t :=
  need Undefined (Heap.read Order.zero order (heap b)).

Definition store (order : N) (o : Order.t) (b : t) : t :=
  set_heap (Heap.write order o (heap b)) b.

Definition Release (order : N) (b : t) : t :=
  set_pool (ObjectPool.Release order (orderPool_ b)) b.

Definition UpdateLevelData (price : Price) (quantity : Quantity)
    (action : LevelData.Action) (b : t) : t :=
  let data := default (LevelData.mk 0 0) (data_ b !! price) in
  let count :=
    wrapQ (LevelData.count_ data +
           match action with
           | LevelData.Remove => -1
           | LevelData.Add => 1
           | LevelData.Match => 0
           end) in
  let quantity' :=
    match action with
    | LevelData.Remove | LevelData.Match =>
        wrapQ (LevelData.quantity_ data - quantity)
    | LevelData.Add => wrapQ (LevelData.quantity_ data + quantity)
    end in
  if bool_decide (count = 0) then set_data (delete price (data_ b)) b
  else set_data (<[price := LevelData.mk quantity' count]> (data_ b)) b.

Definition OnOrderCancelled (order : N) (b : t) : outcome t :=
  o ← deref order b;
  let b := UpdateLevelData (Order.GetPrice o) (Order.GetRemainingQuantity o)
             LevelData.Remove b in
  Done (Release order b).

Definition OnOrderAdded (order : N) (b : t) : outcome t :=
  o ← deref order b;
  Done (UpdateLevelData (Order.GetPrice o) (Order.GetInitialQuantity o)
          LevelData.Add b).

Definition OnOrderMatched (price : Price) (quantity : Quantity)
    (isFullyFilled : bool) (b : t) : t :=
  UpdateLevelData price quantity
    (if isFullyFilled then LevelData.Remove else LevelData.Match) b.

(** The emptied level stays in [bids_] or [asks_]: the [erase] calls
    are inside a comment in the source. *)
Definition CancelOrderInternal (orderId : OrderId) (b : t) : outcome t :=
  match orders_ b !! orderId with
  | None => Done b
  | Some order =>
      let b := set_orders (delete orderId (orders_ b)) b in
      o ← deref order b;
      let price := Order.GetPrice o in
      b ← (if bool_decide (Order.GetSide o = Sell) then
             orders ← need OutOfRange (PriceMap.at_ price (asks_ b));
             orders' ← need Undefined (OrderPointers.erase order orders);
             Done (set_asks (PriceMap.update price (fun _ => orders') (asks_ b)) b)
           else
             orders ← need OutOfRange (PriceMap.at_ price (bids_ b));
             orders' ← need Undefined (OrderPointers.erase order orders);
             Done (set_bids (PriceMap.update price (fun _ => orders') (bids_ b)) b));
      OnOrderCancelled order b
  end.

Fixpoint CancelOrders (orderIds : list OrderId) (b : t) : outcome t :=
  match orderIds with
  | [] => Done b
  | orderId :: rest => b ← CancelOrderInternal orderId b; CancelOrders rest b
  end.

Definition CanMatch (side : Side) (price : Price) (b : t) : bool :=
  match side with
  | Buy => false
  | Sell => false
  end.

(** The loop of [CanFullyFill] over [data_], in the order the map
    hands its entries out. *)
Fixpoint CanFullyFill_scan (side : Side) (price : Price)
    (threshold : option Price) (levels : list (Price * LevelData.t))
    (quantity : Quantity) : bool :=
  match levels with
  | [] => false
  | (levelPrice, levelData) :: rest =>
      if match threshold with
         | Some th =>
             (bool_decide (side = Buy) && bool_decide (th > levelPrice))
             || (bool_decide (side = Sell) && bool_decide (th < levelPrice))
         | None => false
         end
      then CanFullyFill_scan side price threshold rest quantity
      else if (bool_decide (side = Buy) && bool_decide (levelPrice > price))
              || (bool_decide (side = Sell) && bool_decide (levelPrice < price))
      then CanFullyFill_scan side price threshold rest quantity
      else if bool_decide (quantity <= LevelData.quantity_ levelData) then true
      else CanFullyFill_scan side price threshold rest
             (wrapQ (quantity - LevelData.quantity_ levelData))
  end.

Definition CanFullyFill (side : Side) (price : Price) (quantity : Quantity)
    (b : t) : outcome bool :=
  if negb (CanMatch side price b) then Done false
  else
    top ← need Undefined
            (PriceMap.begin (if bool_decide (side = Buy) then asks_ b else bids_ b));
    Done (CanFullyFill_scan side price (Some top.1)
            (map_to_list (data_ b)) quantity).

(** One pass of the inner [while] of [MatchOrders], for the heads [bid]
    and [ask] of the two first levels. *)
Definition cross (bid ask : N) (trades : Trades) (b : t)
    : outcome (Trades * t) :=
  ob ← deref bid b;
  oa ← deref ask b;
  let quantity :=
    Z.min (Order.GetRemainingQuantity ob) (Order.GetRemainingQuantity oa) in
  ob ← Order.Fill quantity ob;
  let b := store bid ob b in
  oa ← deref ask b;
  oa ← Order.Fill quantity oa;
  let b := store ask oa b in
  ob ← deref bid b;
  oa ← deref ask b;
  let b :=
    if Order.IsFilled ob then
      Release bid
        (set_orders (delete (Order.GetOrderId ob) (orders_ b))
           (set_bids (PriceMap.pop_front_begin (bids_ b)) b))
    else b in
  let b :=
    if Order.IsFilled oa then
      Release ask
        (set_orders (delete (Order.GetOrderId oa) (orders_ b))
           (set_asks (PriceMap.pop_front_begin (asks_ b)) b))
    else b in
  let trades :=
    trades ++
    [Trade.mk
       (TradeInfo.mk (Order.GetOrderId ob) (Order.GetPrice ob) quantity)
       (TradeInfo.mk (Order.GetOrderId oa) (Order.GetPrice oa) quantity)] in
  let b := OnOrderMatched (Order.GetPrice ob) quantity (Order.IsFilled ob) b in
  let b := OnOrderMatched (Order.GetPrice oa) quantity (Order.IsFilled oa) b in
  Done (trades, b).

(** The inner [while (!bids.empty() && !asks.empty())]; [bids] and
    [asks] are the lists of the first entries of the two maps. *)
Fixpoint cross_loop (n : nat) (trades : Trades) (b : t)
    : outcome (Trades * t) :=
  match bids_ b, asks_ b with
  | (_, bid :: _) :: _, (_, ask :: _) :: _ =>
      match n with
      | O => OutOfFuel
      | S n' =>
          '(trades', b') ← cross bid ask trades b;
          cross_loop n' trades' b'
      end
  | _, _ => Done (trades, b)
  end.

(** The outer [while (true)] of [MatchOrders]; [fuel] bounds its
    passes and those of the inner loop. The levels emptied by the inner
    loop stay in the maps: the [erase] calls are inside a comment in
    the source. *)
Fixpoint MatchOrders_loop (fuel : nat) (trades : Trades) (b : t)
    : outcome (Trades * t) :=
  match bids_ b, asks_ b with
  | (bidPrice, _) :: _, (askPrice, _) :: _ =>
      if bool_decide (bidPrice < askPrice) then Done (trades, b)
      else
        match fuel with
        | O => OutOfFuel
        | S fuel' =>
            '(trades', b') ← cross_loop fuel' trades b;
            MatchOrders_loop fuel' trades' b'
        end
  | _, _ => Done (trades, b)
  end.

(** The two blocks after the loop: the head of the first level is
    cancelled when it is a FillAndKill order. *)
Definition cancel_FillAndKill_front (m : PriceMap.t) (b : t) : outcome t :=
  match PriceMap.begin m with
  | None => Done b
  | Some (_, orders) =>
      order ← need Undefined (head orders);
      o ← deref order b;
      if bool_decide (Order.GetOrderType o = FillAndKill)
      then CancelOrderInternal (Order.GetOrderId o) b
      else Done b
  end.

Definition MatchOrders (fuel : nat) (b : t) : outcome (Trades * t) :=
  '(trades, b) ← MatchOrders_loop fuel [] b;
  b ← cancel_FillAndKill_front (bids_ b) b;
  b ← cancel_FillAndKill_front (asks_ b) b;
  Done (trades, b).

(** The Market branch of [HandleAddOrder]: [None] is the early
    [return { }]. *)
Definition bind_Market (order : N) (b : t) : outcome (option t) :=
  o ← deref order b;
  if bool_decide (Order.GetOrderType o = Market) then
    if bool_decide (Order.GetSide o = Buy) && negb (bool_decide (asks_ b = [])) then
      worst ← need Undefined (PriceMap.rbegin (asks_ b));
      o ← Order.ToGoodTillCancel worst.1 o;
      Done (Some (store order o b))
    else if bool_decide (Order.GetSide o = Sell) && negb (bool_decide (bids_ b = [])) then
      worst ← need Undefined (PriceMap.rbegin (bids_ b));
      o ← Order.ToGoodTillCancel worst.1 o;
      Done (Some (store order o b))
    else Done None
  else Done (Some b).

(** [HandleAddOrder] up to its last statement: the answer says
    whether the order was put on the book ([true]) or the function
    left through one of its early [return { }] ([false]). *)
Definition HandleAddOrder_place (order : N) (b : t) : outcome (bool * t) :=
  o ← deref order b;
  if bool_decide (is_Some (orders_ b !! Order.GetOrderId o)) then Done (false, b)
  else
    r ← bind_Market order b;
    match r with
    | None => Done (false, b)
    | Some b =>
        o ← deref order b;
        if bool_decide (Order.GetOrderType o = FillAndKill)
           && negb (CanMatch (Order.GetSide o) (Order.GetPrice o) b)
        then Done (false, b)
        else
          unfillable ←
            (if bool_decide (Order.GetOrderType o = FillOrKill) then
               full ← CanFullyFill (Order.GetSide o) (Order.GetPrice o)
                        (Order.GetInitialQuantity o) b;
               Done (negb full)
             else Done false);
          if (unfillable : bool) then Done (false, b)
          else
            let push := fun orders : list N => orders ++ [order] in
            let b :=
              if bool_decide (Order.GetSide o = Buy) then
                set_bids (PriceMap.update (Order.GetPrice o) push
                            (PriceMap.subscript PriceMap.greater
                               (Order.GetPrice o) (bids_ b))) b
              else
                set_asks (PriceMap.update (Order.GetPrice o) push
                            (PriceMap.subscript PriceMap.less
                               (Order.GetPrice o) (asks_ b))) b in
            let b := set_orders (<[Order.GetOrderId o := order]> (orders_ b)) b in
            b ← OnOrderAdded order b;
            Done (true, b)
    end.

Definition HandleAddOrder (fuel : nat) (order : N) (b : t)
    : outcome (Trades * t) :=
  '(placed, b) ← HandleAddOrder_place order b;
  if (placed : bool) then MatchOrders fuel b else Done ([], b).

Definition HandleCancelOrder (orderId : OrderId) (b : t) : outcome t :=
  CancelOrderInternal orderId b.

Definition AcquireOrder (type : OrderType) (orderId : OrderId) (side : Side)
    (price : Price) (quantity : Quantity) (b : t) : outcome (N * t) :=
  let '(order, pool, h) := ObjectPool.Acquire (orderPool_ b) (heap b) in
  let b := set_heap h (set_pool pool b) in
  o ← deref order b;
  Done (order, store order (Order.Reset type orderId side price quantity o) b).

Definition HandleModifyOrder (fuel : nat) (order : OrderModify.t) (b : t)
    : outcome (Trades * t) :=
  match orders_ b !! OrderModify.GetOrderId order with
  | None => Done ([], b)
  | Some existingOrder =>
      o ← deref existingOrder b;
      let orderType := Order.GetOrderType o in
      b ← CancelOrderInternal (OrderModify.GetOrderId order) b;
      '(newOrder, b) ←
        AcquireOrder orderType (OrderModify.GetOrderId order)
          (OrderModify.GetSide order) (OrderModify.GetPrice order)
          (OrderModify.GetQuantity order) b;
      HandleAddOrder fuel newOrder b
  end.

Definition Size (b : t) : nat := size (orders_ b).

(** The two first levels cross: both maps have a first entry and the
    first bid key is not below the first ask key, which is when the
    outer loop of [MatchOrders] goes on. *)
Definition crossed (b : t) : Prop :=
  match (bids_ b).*1, (asks_ b).*1 with
  | bidPrice :: _, askPrice :: _ => ~ bidPrice < askPrice
  | _, _ => False
  end.

End Book.

(** ** Orderbook.h, Orderbook.cpp: the event loop *)

Module Orderbook.

(** [journaler_] is declared in Orderbook.h inside a comment
    ([// AsyncJournaler journaler_{"events.log"};]); it is carried here
    so that what the matcher does to the journal can be stated. *)
Record t := mk {
  book : Book.t;
  requestQueue_ : LockFreeQueue.t Request.t;
  shutdown_ : bool;
  riskManager_ : RiskManager.Config;
  latencies_ : list Z;
  ordersProcessed_ : nat;
  journaler_ : AsyncJournaler.t
}.

Definition set_book (b : Book.t) (s : t) : t :=
  mk b (requestQueue_ s) (shutdown_ s) (riskManager_ s) (latencies_ s)
     (ordersProcessed_ s) (journaler_ s).
Definition set_queue (q : LockFreeQueue.t Request.t) (s : t) : t :=
  mk (book s) q (shutdown_ s) (riskManager_ s) (latencies_ s)
     (ordersProcessed_ s) (journaler_ s).
Definition set_shutdown (f : bool) (s : t) : t :=
  mk (book s) (requestQueue_ s) f (riskManager_ s) (latencies_ s)
     (ordersProcessed_ s) (journaler_ s).
Definition set_latencies (l : list Z) (s : t) : t :=
  mk (book s) (requestQueue_ s) (shutdown_ s) (riskManager_ s) l
     (ordersProcessed_ s) (journaler_ s).
Definition set_processed (n : nat) (s : t) : t :=
  mk (book s) (requestQueue_ s) (shutdown_ s) (riskManager_ s) (latencies_ s)
     n (journaler_ s).

(** [Orderbook::Orderbook()]: a ring of 65536 requests and a pool of
    100000 orders. *)
Definition ctor : t :=
  let '(pool, h) := ObjectPool.ctor 100000 Heap.empty in
  mk (Book.mk h ∅ [] [] ∅ pool)
     (LockFreeQueue.ctor Request.zero (N.to_nat 65536))
     false RiskManager.Config_default [] 0 AsyncJournaler.ctor.

Definition AcquireOrder (type : OrderType) (orderId : OrderId) (side : Side)
    (price : Price) (quantity : Quantity) (s : t) : outcome (N * t) :=
  '(order, b) ← Book.AcquireOrder type orderId side price quantity (book s);
  Done (order, set_book b s).

(** The producer side. [now] is the clock reading put in the request.
    The producer spins while the ring is full; with the matcher not
    running in between that is for ever. *)
Definition submit (req : Request.t) (s : t) : outcome t :=
  match LockFreeQueue.Push req (requestQueue_ s) with
  | (true, q) => Done (set_queue q s)
  | (false, _) => OutOfFuel
  end.

Definition AddOrder (now : Z) (order : N) (s : t) : outcome t :=
  submit (Request.mk Request.Add (Some order) 0 (OrderModify.mk 0 Buy 0 0) now) s.

Definition CancelOrder (now : Z) (orderId : OrderId) (s : t) : outcome t :=
  submit (Request.mk Request.Cancel None orderId (OrderModify.mk 0 Buy 0 0) now) s.

Definition ModifyOrder (now : Z) (order : OrderModify.t) (s : t) : outcome t :=
  submit (Request.mk Request.Modify None 0 order now) s.

Section Matcher.

(** [clock n]: what [high_resolution_clock::now()] reads, in
    nanoseconds, after the request numbered [n] has been handled. *)
Variable clock : nat -> Z.

(** The risk gate of [ProcessRequests]: the pointer of the rejected
    order, if the request is an Add that is not allowed. *)
Definition risk_gate (req : Request.t) (s : t) : outcome (option N) :=
  if bool_decide (Request.type req = Request.Add) then
    order ← need Undefined (Request.order req);
    o ← Book.deref order (book s);
    if bool_decide (RiskManager.CheckOrder (riskManager_ s) o
                    <> RiskManager.Allowed)
    then Done (Some order)
    else Done None
  else Done None.

(** The [switch]; the trades the handlers return are dropped by the
    caller. *)
Definition dispatch (fuel : nat) (req : Request.t) (b : Book.t)
    : outcome Book.t :=
  match Request.type req with
  | Request.Add =>
      order ← need Undefined (Request.order req);
      '(_, b) ← Book.HandleAddOrder fuel order b;
      Done b
  | Request.Cancel => Book.HandleCancelOrder (Request.orderId req) b
  | Request.Modify =>
      '(_, b) ← Book.HandleModifyOrder fuel (Request.modify req) b;
      Done b
  end.

Definition record_latency (req : Request.t) (s : t) : t :=
  if bool_decide (Request.timestamp req > 0) then
    let end_ := clock (ordersProcessed_ s) in
    if bool_decide (end_ > 0) then
      if bool_decide (end_ > Request.timestamp req)
      then set_latencies (latencies_ s ++ [end_ - Request.timestamp req]) s
      else s
    else s
  else s.

(** The body of [if (requestQueue_.Pop(req))]. The call
    [journaler_.Log(req)] between the risk gate and the switch is
    inside a comment in the source: nothing is written to the
    journal. *)
Definition process_request (fuel : nat) (req : Request.t) (s : t)
    : outcome t :=
  rejected ← risk_gate req s;
  match rejected with
  | Some order =>
      let s := set_book (Book.Release order (book s)) s in
      Done (set_processed (S (ordersProcessed_ s)) s)
  | None =>
      b ← dispatch fuel req (book s);
      let s := set_book b s in
      let s := set_processed (S (ordersProcessed_ s)) s in
      Done (record_latency req s)
  end.

(** [ProcessRequests]: [iters] bounds the passes of the [while]. On
    an empty ring the matcher yields and tries again. *)
Fixpoint ProcessRequests (iters fuel : nat) (s : t) : outcome t :=
  if negb (shutdown_ s) || negb (LockFreeQueue.IsEmpty (requestQueue_ s)) then
    match iters with
    | O => OutOfFuel
    | S iters' =>
        match LockFreeQueue.Pop (requestQueue_ s) with
        | (Some req, q) =>
            s ← process_request fuel req (set_queue q s);
            ProcessRequests iters' fuel s
        | (None, _) => ProcessRequests iters' fuel s
        end
    end
  else Done s.

(** [~Orderbook]: the flag is set and the matcher thread joined. *)
Definition dtor (iters fuel : nat) (s : t) : outcome t :=
  ProcessRequests iters fuel (set_shutdown true s).

(** The requests of a list handled one after the other. *)
Fixpoint process_all (fuel : nat) (reqs : list Request.t) (s : t)
    : outcome t :=
  match reqs with
  | [] => Done s
  | req :: rest => s ← process_request fuel req s; process_all fuel rest s
  end.

End Matcher.

End Orderbook.

(** ** What the specification asks of the book *)

Module Spec.

(** [can_match(side, px)] in the words of the specification: for a Buy
    some resting ask has a price at most [px], for a Sell some resting
    bid has a price at least [px]. *)
Definition resting (b : Book.t) (m : PriceMap.t) : list Order.t :=
  omap (fun order => Heap.read Order.zero order (Book.heap b)) (mjoin (m.*2)).

Definition can_match (side : Side) (px : Price) (b : Book.t) : bool :=
  match side with
  | Buy => existsb (fun o => bool_decide (Order.GetPrice o <= px))
             (resting b (Book.asks_ b))
  | Sell => existsb (fun o => bool_decide (Order.GetPrice o >= px))
              (resting b (Book.bids_ b))
  end.

(** The level invariant of the specification, for one level of a map:
    the level has a count of at least one, the count is the length of
    its FIFO and the total quantity is the sum of what remains of its
    orders. *)
Definition remaining_sum (b : Book.t) (fifo : list N) : Z :=
  foldr Z.add 0
    (omap (fun order => Order.GetRemainingQuantity <$> Heap.read Order.zero order (Book.heap b))
       fifo).

Definition level_ok (b : Book.t) (level : Price * list N) : bool :=
  match Book.data_ b !! level.1 with
  | Some d =>
      bool_decide (1 <= LevelData.count_ d)
      && bool_decide (LevelData.count_ d = Z.of_nat (length level.2))
      && bool_decide (LevelData.quantity_ d = remaining_sum b level.2)
  | None => false
  end.

Definition levels_ok (b : Book.t) : bool :=
  forallb (level_ok b) (Book.bids_ b ++ Book.asks_ b).

End Spec.

(** ** Runs of the engine from its constructed state *)

Module Scenario.

Definition result {A : Type} (dflt : A) (r : outcome A) : A :=
  match r with
  | Done a => a
  | _ => dflt
  end.

Definition is_done {A : Type} (r : outcome A) : bool :=
  match r with
  | Done _ => true
  | _ => false
  end.

(** The book of a constructed engine. *)
Definition fresh : Book.t := Orderbook.book Orderbook.ctor.

(** An order taken from the pool and handed to [HandleAddOrder], as
    [main] does through [AcquireOrder] and [AddOrder]. *)
Definition add (fuel : nat) (type : OrderType) (orderId : OrderId) (side : Side)
    (price : Price) (quantity : Quantity) (b : Book.t)
    : outcome (Trades * Book.t) :=
  '(order, b) ← Book.AcquireOrder type orderId side price quantity b;
  Book.HandleAddOrder fuel order b.

(** Buy GoodTillCancel id=1 price=100 quantity=10 on the fresh book. *)
Definition one_bid : Book.t :=
  (result ([], fresh) (add 1 GoodTillCancel 1 Buy 100 10 fresh)).2.

(** The Sell GoodTillCancel id=2 price=100 quantity=10 that crosses it,
    taken from the pool and not yet handled. *)
Definition crossing_sell : N * Book.t :=
  result (0%N, one_bid) (Book.AcquireOrder GoodTillCancel 2 Sell 100 10 one_bid).

(** The book when that Sell has been put on it, before [MatchOrders]
    runs, and after the one pass of the inner loop that trades the two
    orders. *)
Definition placed : Book.t :=
  (result (false, crossing_sell.2)
     (Book.HandleAddOrder_place crossing_sell.1 crossing_sell.2)).2.

Definition after_cross : Trades * Book.t :=
  result ([], placed) (Book.cross 99999 99998 [] placed).

(** The bid cancelled again. *)
Definition bid_cancelled : Book.t :=
  result one_bid (Book.HandleCancelOrder 1 one_bid).

(** Sell GoodTillCancel id=1 price=100 quantity=3 on the fresh book. *)
Definition one_ask : Book.t :=
  (result ([], fresh) (add 1 GoodTillCancel 1 Sell 100 3 fresh)).2.

(** The Buy FillAndKill id=2 price=100 quantity=10 sent against it. *)
Definition fak_buy : N * Book.t :=
  result (0%N, one_ask) (Book.AcquireOrder FillAndKill 2 Buy 100 10 one_ask).

(** The clock of the runs: one microsecond per request. *)
Definition clock (n : nat) : Z := 1000 * Z.of_nat (S n).

(** The engine with one order taken from the pool, and the request
    that adds it. *)
Definition with_order : N * Orderbook.t :=
  result (0%N, Orderbook.ctor)
    (Orderbook.AcquireOrder GoodTillCancel 1 Buy 100 10 Orderbook.ctor).

Definition add_request : Request.t :=
  Request.mk Request.Add (Some with_order.1) 0 (OrderModify.mk 0 Buy 0 0) 1.

(** That request handled by the matcher. *)
Definition add_handled : Orderbook.t :=
  result with_order.2 (Orderbook.process_request clock 1 add_request with_order.2).

(** The engine with three requests in the ring, not yet popped: the Add
    of the order above, a Cancel of an unknown id and a Cancel of the
    order. *)
Definition queued : Orderbook.t :=
  result with_order.2
    (s ← Orderbook.AddOrder 1 with_order.1 with_order.2;
     s ← Orderbook.CancelOrder 2 7 s;
     Orderbook.CancelOrder 3 1 s).

(** The three requests handled in turn once the flag is set. *)
Definition queued_handled : Orderbook.t :=
  result queued
    (Orderbook.process_all clock 1
       (LockFreeQueue.contents (Orderbook.requestQueue_ queued))
       (Orderbook.set_shutdown true queued)).

End Scenario.

(** ** Journaler.h: the writer thread *)

Module JournalWriter.

(** The journaler with its flag and the file it writes, as the list of
    the entries written so far. *)
Record t := mk {
  journaler : AsyncJournaler.t;
  running_ : bool;
  file : list AsyncJournaler.LogEntry
}.

(** [AsyncJournaler(filename)]: the file is truncated when the writer
    starts. *)
Definition ctor : t := mk AsyncJournaler.ctor true [].

Definition Log (req : Request.t) (h : Heap.t Order.t) (w : t) : outcome t :=
  j ← AsyncJournaler.Log req h (journaler w);
  Done (mk j (running_ w) (file w)).

(** [WriterLoop]: [iters] bounds the passes of the [while]. On an empty
    ring the writer sleeps and tries again. *)
Fixpoint WriterLoop (iters : nat) (w : t) : outcome t :=
  if running_ w
     || negb (LockFreeQueue.IsEmpty (AsyncJournaler.queue_ (journaler w))) then
    match iters with
    | O => OutOfFuel
    | S iters' =>
        match LockFreeQueue.Pop (AsyncJournaler.queue_ (journaler w)) with
        | (Some entry, q) =>
            WriterLoop iters' (mk (AsyncJournaler.mk q) (running_ w) (file w ++ [entry]))
        | (None, _) => WriterLoop iters' w
        end
    end
  else Done w.

(** [~AsyncJournaler]: the flag is cleared and the writer joined. *)
Definition dtor (iters : nat) (w : t) : outcome t :=
  WriterLoop iters (mk (journaler w) false (file w)).

End JournalWriter.

(** ** Orderbook.cpp: the view of the levels *)

(** Modelled from the spec: LevelInfo.h and OrderbookLevelInfos.h are
    not among the sources; [LevelInfo{ price, quantity }] and
    [OrderbookLevelInfos{ bidInfos, askInfos }] are what
    [GetOrderInfos] constructs. *)
Module LevelInfo.

Record t := mk {
  price_ : Price;
  quantity_ : Quantity
}.

End LevelInfo.

Module OrderbookLevelInfos.

Record t := mk {
  bids_ : list LevelInfo.t;
  asks_ : list LevelInfo.t
}.

End OrderbookLevelInfos.

Module BookView.

(** [std::accumulate] over the orders of a level, with the lambda that
    adds what remains of each order to the running [Quantity]. *)
Fixpoint accumulate (b : Book.t) (orders : list N) (runningSum : Quantity)
    : outcome Quantity :=
  match orders with
  | [] => Done runningSum
  | order :: rest =>
      o ← Book.deref order b;
      accumulate b rest (wrapQ (runningSum + Order.GetRemainingQuantity o))
  end.

Definition CreateLevelInfos (b : Book.t) (price : Price) (orders : list N)
    : outcome LevelInfo.t :=
  quantity ← accumulate b orders 0;
  Done (LevelInfo.mk price quantity).

(** One of the two [for] loops of [GetOrderInfos]. *)
Fixpoint infos (b : Book.t) (m : PriceMap.t) : outcome (list LevelInfo.t) :=
  match m with
  | [] => Done []
  | (price, orders) :: rest =>
      info ← CreateLevelInfos b price orders;
      more ← infos b rest;
      Done (info :: more)
  end.

Definition GetOrderInfos (b : Book.t) : outcome OrderbookLevelInfos.t :=
  bidInfos ← infos b (Book.bids_ b);
  askInfos ← infos b (Book.asks_ b);
  Done (OrderbookLevelInfos.mk bidInfos askInfos).

End BookView.

(** ** ObjectPool.h: the price-indexed book *)

Module PriceIndexedOrderbook.

Definition MIN_PRICE : Price := 0.
Definition MAX_PRICE : Price := 1000000.
Definition TICK_SIZE : Price := 1.
Definition PRICE_LEVELS : N := Z.to_N (MAX_PRICE - MIN_PRICE) + 1.

(** [first_order_index], [last_order_index] and [level_type] are set by
    the constructors and never read or written again; they are left
    out. *)
Record PriceLevel := mkLevel {
  price : Price;
  total_quantity : Quantity;
  order_count : Z
}.

(** The two arrays are functions of the index; [orders_] maps an id to
    the shared pointer kept for it. *)
Record t := mk {
  bid_levels_ : N -> PriceLevel;
  ask_levels_ : N -> PriceLevel;
  best_bid_price_ : Price;
  best_ask_price_ : Price;
  orders_ : gmap Z (option N)
}.

Definition set_bid_levels (l : N -> PriceLevel) (b : t) : t :=
  mk l (ask_levels_ b) (best_bid_price_ b) (best_ask_price_ b) (orders_ b).
Definition set_ask_levels (l : N -> PriceLevel) (b : t) : t :=
  mk (bid_levels_ b) l (best_bid_price_ b) (best_ask_price_ b) (orders_ b).
Definition set_best_bid (p : Price) (b : t) : t :=
  mk (bid_levels_ b) (ask_levels_ b) p (best_ask_price_ b) (orders_ b).
Definition set_best_ask (p : Price) (b : t) : t :=
  mk (bid_levels_ b) (ask_levels_ b) (best_bid_price_ b) p (orders_ b).
Definition set_orders (o : gmap Z (option N)) (b : t) : t :=
  mk (bid_levels_ b) (ask_levels_ b) (best_bid_price_ b) (best_ask_price_ b) o.

Definition index_to_price (index : N) : Price :=
  MIN_PRICE + Z.of_N index * TICK_SIZE.

Definition ctor : t :=
  mk (fun i => mkLevel (index_to_price i) 0 0)
     (fun i => mkLevel (index_to_price i) 0 0)
     0 MAX_PRICE ∅.

Definition price_to_index (price : Price) : N :=
  if bool_decide (price < MIN_PRICE) then 0%N
  else if bool_decide (price > MAX_PRICE) then (PRICE_LEVELS - 1)%N
  else Z.to_N (Z.quot (price - MIN_PRICE) TICK_SIZE).

(** The pointer to a level is its index; [None] is [nullptr]. *)
Definition GetBidLevel (price : Price) (b : t) : option N :=
  let index := price_to_index price in
  if bool_decide (PRICE_LEVELS <= index)%N then None else Some index.

Definition GetAskLevel (price : Price) (b : t) : option N :=
  let index := price_to_index price in
  if bool_decide (PRICE_LEVELS <= index)%N then None else Some index.

Definition GetBestBid (b : t) : Price := best_bid_price_ b.
Definition GetBestAsk (b : t) : Price := best_ask_price_ b.

(** The loop of [update_best_bid], from index [n - 1] down to 0. *)
Fixpoint scan_down (levels : N -> PriceLevel) (n : nat) : Price :=
  match n with
  | O => 0
  | S i =>
      if bool_decide (total_quantity (levels (N.of_nat i)) > 0)
      then price (levels (N.of_nat i))
      else scan_down levels i
  end.

Definition update_best_bid (b : t) : t :=
  set_best_bid (scan_down (bid_levels_ b) (N.to_nat PRICE_LEVELS)) b.

(** The loop of [update_best_ask], over the [n] indices from [i] up. *)
Fixpoint scan_up (levels : N -> PriceLevel) (i : N) (n : nat) : Price :=
  match n with
  | O => MAX_PRICE
  | S n' =>
      if bool_decide (total_quantity (levels i) > 0)
      then price (levels i)
      else scan_up levels (N.succ i) n'
  end.

Definition update_best_ask (b : t) : t :=
  set_best_ask (scan_up (ask_levels_ b) 0 (N.to_nat PRICE_LEVELS)) b.

(** [levels[index] = level]. *)
Definition assign (levels : N -> PriceLevel) (index : N) (level : PriceLevel)
    : N -> PriceLevel :=
  fun i => if bool_decide (i = index) then level else levels i.

(** The sums are taken in [int64_t], where they cannot overflow for a
    32-bit total and a 64-bit delta that comes from a 32-bit quantity;
    the casts back take the result modulo [2^32]. *)
Definition updated (level : PriceLevel) (delta_quantity delta_count : Z)
    : PriceLevel :=
  let next_total := total_quantity level + delta_quantity in
  let next_count := order_count level + delta_count in
  mkLevel (price level) (wrapQ (Z.max 0 next_total)) (wrapQ (Z.max 0 next_count)).

Definition UpdateBidLevel (price : Price) (delta_quantity delta_count : Z)
    (b : t) : t :=
  let index := price_to_index price in
  if bool_decide (PRICE_LEVELS <= index)%N then b
  else
    let level := updated (bid_levels_ b index) delta_quantity delta_count in
    let b := set_bid_levels (assign (bid_levels_ b) index level) b in
    if bool_decide (delta_quantity > 0) && bool_decide (price > best_bid_price_ b)
    then set_best_bid price b
    else if bool_decide (delta_quantity < 0)
            && bool_decide (price = best_bid_price_ b)
            && bool_decide (total_quantity level = 0)
    then update_best_bid b
    else b.

Definition UpdateAskLevel (price : Price) (delta_quantity delta_count : Z)
    (b : t) : t :=
  let index := price_to_index price in
  if bool_decide (PRICE_LEVELS <= index)%N then b
  else
    let level := updated (ask_levels_ b index) delta_quantity delta_count in
    let b := set_ask_levels (assign (ask_levels_ b) index level) b in
    if bool_decide (delta_quantity > 0) && bool_decide (price < best_ask_price_ b)
    then set_best_ask price b
    else if bool_decide (delta_quantity < 0)
            && bool_decide (price = best_ask_price_ b)
            && bool_decide (total_quantity level = 0)
    then update_best_ask b
    else b.

Definition WouldCross (aggressive_price : Price) (side : Side) (b : t) : bool :=
  match side with
  | Buy =>
      let best_ask := best_ask_price_ b in
      bool_decide (best_ask <= MAX_PRICE) && bool_decide (aggressive_price >= best_ask)
  | Sell =>
      let best_bid := best_bid_price_ b in
      bool_decide (best_bid > 0) && bool_decide (aggressive_price <= best_bid)
  end.

(** [h] holds the orders the shared pointers designate. *)
Definition AddOrder (order : option N) (h : Heap.t Order.t) (b : t) : outcome t :=
  match order with
  | None => Done b
  | Some p =>
      o ← need Undefined (Heap.read Order.zero p h);
      let id := Order.GetOrderId o in
      if bool_decide (is_Some (orders_ b !! id)) then Done b
      else
        let b := set_orders (<[id := order]> (orders_ b)) b in
        if bool_decide (Order.GetSide o = Buy)
        then Done (UpdateBidLevel (Order.GetPrice o) (Order.GetRemainingQuantity o) 1 b)
        else Done (UpdateAskLevel (Order.GetPrice o) (Order.GetRemainingQuantity o) 1 b)
  end.

Definition CancelOrder (orderId : OrderId) (h : Heap.t Order.t) (b : t)
    : outcome t :=
  match orders_ b !! orderId with
  | None => Done b
  | Some order =>
      b ← match order with
          | Some p =>
              o ← need Undefined (Heap.read Order.zero p h);
              if bool_decide (Order.GetSide o = Buy)
              then Done (UpdateBidLevel (Order.GetPrice o)
                           (- Order.GetRemainingQuantity o) (-1) b)
              else Done (UpdateAskLevel (Order.GetPrice o)
                           (- Order.GetRemainingQuantity o) (-1) b)
          | None => Done b
          end;
      Done (set_orders (delete orderId (orders_ b)) b)
  end.

Definition ModifyOrder (modify : OrderModify.t) (h : Heap.t Order.t) (b : t)
    : outcome (Heap.t Order.t * t) :=
  match orders_ b !! OrderModify.GetOrderId modify with
  | None => Done (h, b)
  | Some None => Done (h, b)
  | Some (Some existing) =>
      o ← need Undefined (Heap.read Order.zero existing h);
      let old_remaining := Order.GetRemainingQuantity o in
      let old_price := Order.GetPrice o in
      let old_side := Order.GetSide o in
      let b :=
        if bool_decide (old_side = Buy)
        then UpdateBidLevel old_price (- old_remaining) (-1) b
        else UpdateAskLevel old_price (- old_remaining) (-1) b in
      let o := Order.Reset (Order.GetOrderType o) (Order.GetOrderId o)
                 (OrderModify.GetSide modify) (OrderModify.GetPrice modify)
                 (OrderModify.GetQuantity modify) o in
      let h := Heap.write existing o h in
      let b :=
        if bool_decide (OrderModify.GetSide modify = Buy)
        then UpdateBidLevel (OrderModify.GetPrice modify)
               (Order.GetRemainingQuantity o) 1 b
        else UpdateAskLevel (OrderModify.GetPrice modify)
               (Order.GetRemainingQuantity o) 1 b in
      Done (h, b)
  end.

End PriceIndexedOrderbook.

(** ** Well-formed books *)

Module Inv.

(** The keys of a map stand in the order of its comparator, each one
    once: what [std::map] guarantees of [bids_] and [asks_]. *)
Fixpoint sorted_keys (before : Price -> Price -> bool) (keys : list Price) : Prop :=
  match keys with
  | [] => True
  | k :: rest => Forall (fun k' => before k k' = true) rest /\ sorted_keys before rest
  end.

Definition sorted (b : Book.t) : Prop :=
  sorted_keys PriceMap.greater (Book.bids_ b).*1
  /\ sorted_keys PriceMap.less (Book.asks_ b).*1.

(** No object written to has a negative remaining quantity, as holds of
    unsigned members (the objects not written to yet hold zero). *)
Definition nonneg (b : Book.t) : Prop :=
  map_Forall (fun _ o => 0 <= Order.GetRemainingQuantity o)
    (Heap.cells (Book.heap b)).

#[global] Instance nonneg_dec (b : Book.t) : Decision (nonneg b).
Proof. unfold nonneg. apply _. Defined.

(** The list of the first entry of a map: what the inner loop of
    [MatchOrders] works on. *)
Definition front (m : PriceMap.t) : list N :=
  match m with
  | (_, l) :: _ => l
  | [] => []
  end.

(** The map of a side, and of the side opposite to it. *)
Definition own (side : Side) (b : Book.t) : PriceMap.t :=
  match side with
  | Buy => Book.bids_ b
  | Sell => Book.asks_ b
  end.

Definition opposite (side : Side) (b : Book.t) : PriceMap.t :=
  match side with
  | Buy => Book.asks_ b
  | Sell => Book.bids_ b
  end.

(** The first level of a map, if there is one, has a first order, and
    that order is not a FillAndKill order: what the two blocks at the
    end of [MatchOrders] find when they have nothing to cancel. *)
Definition resting_front (m : PriceMap.t) (b : Book.t) : Prop :=
  match m with
  | [] => True
  | (_, orders) :: _ =>
      exists order o,
        head orders = Some order /\ Book.deref order b = Done o
        /\ Order.GetOrderType o <> FillAndKill
  end.

(** A limit price goes on the book without meeting the other side: it
    is below the first ask key for a buy, above the first bid key for a
    sell. *)
Definition passive (side : Side) (price : Price) (b : Book.t) : Prop :=
  match side with
  | Buy => forall askPrice, head (Book.asks_ b).*1 = Some askPrice -> price < askPrice
  | Sell => forall bidPrice, head (Book.bids_ b).*1 = Some bidPrice -> bidPrice < price
  end.

(** A limit price meets the other side: it is at or above the first
    ask key for a buy, at or below the first bid key for a sell. *)
Definition marketable (side : Side) (price : Price) (b : Book.t) : Prop :=
  match side with
  | Buy => exists askPrice, head (Book.asks_ b).*1 = Some askPrice /\ askPrice <= price
  | Sell => exists bidPrice, head (Book.bids_ b).*1 = Some bidPrice /\ price <= bidPrice
  end.

(** The books the engine is at rest on: both maps in order, first
    levels that do not cross, each with a first order to look at. *)
Definition at_rest (b : Book.t) : Prop :=
  sorted b /\ ~ Book.crossed b
  /\ resting_front (Book.bids_ b) b /\ resting_front (Book.asks_ b) b.

(** The array of a side of the price-indexed book. *)
Definition side_levels (side : Side) (b : PriceIndexedOrderbook.t)
    : N -> PriceIndexedOrderbook.PriceLevel :=
  match side with
  | Buy => PriceIndexedOrderbook.bid_levels_ b
  | Sell => PriceIndexedOrderbook.ask_levels_ b
  end.

(** What the constructor of the price-indexed book sets up and every
    update keeps: the level at an index carries the price of the index,
    and its total is a [Quantity]. *)
Definition levels_ok (levels : N -> PriceIndexedOrderbook.PriceLevel) : Prop :=
  forall i,
    PriceIndexedOrderbook.price (levels i) = PriceIndexedOrderbook.index_to_price i
    /\ 0 <= PriceIndexedOrderbook.total_quantity (levels i) < Quantity_modulus.

(** [p] is the best bid of the first [n] levels: the price of the
    highest level with a positive total, or 0 when there is none. *)
Definition is_best_bid (levels : N -> PriceIndexedOrderbook.PriceLevel)
    (n : nat) (p : Price) : Prop :=
  (exists i, (i < n)%nat
     /\ PriceIndexedOrderbook.total_quantity (levels (N.of_nat i)) > 0
     /\ p = PriceIndexedOrderbook.price (levels (N.of_nat i))
     /\ forall j, (i < j < n)%nat ->
          ~ PriceIndexedOrderbook.total_quantity (levels (N.of_nat j)) > 0)
  \/ (p = 0
      /\ forall j, (j < n)%nat ->
           ~ PriceIndexedOrderbook.total_quantity (levels (N.of_nat j)) > 0).

(** The best bid kept is the one a scan of the levels finds. *)
Definition bid_tracked (b : PriceIndexedOrderbook.t) : Prop :=
  PriceIndexedOrderbook.best_bid_price_ b
  = PriceIndexedOrderbook.scan_down (PriceIndexedOrderbook.bid_levels_ b)
      (N.to_nat PriceIndexedOrderbook.PRICE_LEVELS).

End Inv.

(** ** The engine in small *)

Module Example.

(** The book of [Orderbook::Orderbook()] with a pool of four orders. *)
Definition book : Book.t :=
  Eval vm_compute in
    (let '(pool, h) := ObjectPool.ctor 4 Heap.empty in
     Book.mk h ∅ [] [] ∅ pool).

(** An order taken from the pool of [b], with the book it leaves. *)
Definition acquire (type : OrderType) (orderId : OrderId) (side : Side)
    (price : Price) (quantity : Quantity) (b : Book.t) : N * Book.t :=
  Scenario.result (0%N, b) (Book.AcquireOrder type orderId side price quantity b).

(** The book once that order has gone through [HandleAddOrder]. *)
Definition add (type : OrderType) (orderId : OrderId) (side : Side)
    (price : Price) (quantity : Quantity) (b : Book.t) : Book.t :=
  (Scenario.result ([], b) (Scenario.add 1 type orderId side price quantity b)).2.

(** Buy GoodTillCancel id=1 price=100 quantity=10, then Sell
    GoodTillCancel id=2 price=105 quantity=5 behind it. *)
Definition bid : Book.t :=
  Eval vm_compute in add GoodTillCancel 1 Buy 100 10 book.

Definition two_sided : Book.t :=
  Eval vm_compute in add GoodTillCancel 2 Sell 105 5 bid.

(** The bid cancelled: its level stays, with an empty list. *)
Definition emptied : Book.t :=
  Eval vm_compute in
    Scenario.result two_sided (Book.HandleCancelOrder 1 two_sided).

(** Orders taken from the pool of [two_sided] and not yet handled: a
    buy below the ask, a Market buy, a FillOrKill buy and a sell at the
    price of the bid. *)
Definition limit_buy : N * Book.t :=
  Eval vm_compute in acquire GoodTillCancel 3 Buy 101 7 two_sided.

Definition market_buy : N * Book.t :=
  Eval vm_compute in acquire Market 3 Buy 0 7 two_sided.

Definition fok_buy : N * Book.t :=
  Eval vm_compute in acquire FillOrKill 3 Buy 105 5 two_sided.

Definition limit_sell : N * Book.t :=
  Eval vm_compute in acquire GoodTillCancel 3 Sell 100 4 two_sided.

(** That sell put on the book and not yet matched. *)
Definition crossing : Book.t :=
  Eval vm_compute in
    (Scenario.result (false, limit_sell.2)
       (Book.HandleAddOrder_place limit_sell.1 limit_sell.2)).2.

(** An order of 20000, beyond the limit of the risk configuration,
    taken from the pool of the empty book. *)
Definition oversized : N * Book.t :=
  Eval vm_compute in acquire GoodTillCancel 1 Buy 100 20000 book.

(** An engine with that small pool and rings of four cells. *)
Definition engine : Orderbook.t :=
  Orderbook.mk book (LockFreeQueue.ctor Request.zero 4) false
    RiskManager.Config_default [] 0
    (AsyncJournaler.mk (LockFreeQueue.ctor (AsyncJournaler.mkEntry []) 4)).

(** One microsecond per request. *)
Definition clock (n : nat) : Z := 1000 * Z.of_nat (S n).

End Example.

(** * Properties *)

(** ** The risk gate *)

(** C8. [CheckOrder] answers [RejectedMaxQty] when the initial quantity
    exceeds [maxOrderQuantity]; otherwise, for an order that is not a
    Market order, [RejectedPriceRange] when the price is above
    [maxPrice] or below [minPrice]; a Market order is never rejected for
    its price; in every remaining case the answer is [Allowed]. *)
Theorem CheckOrder_cases (config_ : RiskManager.Config) (order : Order.t) :
  (Order.GetInitialQuantity order > RiskManager.maxOrderQuantity config_ ->
   RiskManager.CheckOrder config_ order = RiskManager.RejectedMaxQty)
  /\ (Order.GetInitialQuantity order <= RiskManager.maxOrderQuantity config_ ->
      Order.GetOrderType order <> Market ->
      Order.GetPrice order > RiskManager.maxPrice config_
      \/ Order.GetPrice order < RiskManager.minPrice config_ ->
      RiskManager.CheckOrder config_ order = RiskManager.RejectedPriceRange)
  /\ (Order.GetOrderType order = Market ->
      RiskManager.CheckOrder config_ order <> RiskManager.RejectedPriceRange)
  /\ (Order.GetInitialQuantity order <= RiskManager.maxOrderQuantity config_ ->
      Order.GetOrderType order = Market
      \/ (RiskManager.minPrice config_ <= Order.GetPrice order
          /\ Order.GetPrice order <= RiskManager.maxPrice config_) ->
      RiskManager.CheckOrder config_ order = RiskManager.Allowed).
Proof.
  unfold RiskManager.CheckOrder.
  split; [| split; [| split]].
  - intros Hq. rewrite bool_decide_eq_true_2; done.
  - intros Hq Hty Hpx. rewrite bool_decide_eq_false_2 by lia.
    rewrite bool_decide_eq_true_2 by done.
    destruct Hpx as [Hhi | Hlo].
    + rewrite bool_decide_eq_true_2; done.
    + rewrite (bool_decide_eq_true_2 (_ < _)) by done.
      by rewrite orb_true_r.
  - intros Hty. rewrite (bool_decide_eq_false_2 (_ <> _)) by (intros ?; done).
    by case_bool_decide.
  - intros Hq Hok. rewrite bool_decide_eq_false_2 by lia.
    destruct Hok as [Hm | [Hlo Hhi]].
    + rewrite bool_decide_eq_false_2; [done | by intros ?].
    + case_bool_decide; [| done].
      rewrite !bool_decide_eq_false_2 by lia. done.
Qed.

Lemma CheckOrder_cases_witness :
  RiskManager.CheckOrder RiskManager.Config_default
    (Order.mk GoodTillCancel 7 Buy 100 10001 10001) = RiskManager.RejectedMaxQty
  /\ RiskManager.CheckOrder RiskManager.Config_default
       (Order.mk FillAndKill 8 Sell 0 10000 10000) = RiskManager.RejectedPriceRange
  /\ RiskManager.CheckOrder RiskManager.Config_default
       (Order.mk Market 9 Sell 0 5 5) <> RiskManager.RejectedPriceRange
  /\ RiskManager.CheckOrder RiskManager.Config_default
       (Order.mk GoodTillCancel 10 Buy 1000000 10000 10000) = RiskManager.Allowed.
Proof.
  split; [| split; [| split]].
  - apply (CheckOrder_cases RiskManager.Config_default
             (Order.mk GoodTillCancel 7 Buy 100 10001 10001)).
    vm_compute. reflexivity.
  - apply (CheckOrder_cases RiskManager.Config_default
             (Order.mk FillAndKill 8 Sell 0 10000 10000)).
    + vm_compute. discriminate.
    + discriminate.
    + right. vm_compute. reflexivity.
  - apply (CheckOrder_cases RiskManager.Config_default
             (Order.mk Market 9 Sell 0 5 5)).
    reflexivity.
  - apply (CheckOrder_cases RiskManager.Config_default
             (Order.mk GoodTillCancel 10 Buy 1000000 10000 10000)).
    + vm_compute. discriminate.
    + right. split; vm_compute; discriminate.
Defined.

(** ** The ring buffer *)

Section LockFreeQueue_facts.
Context {T : Type}.
Implicit Types (q : LockFreeQueue.t T) (x : T).
Import LockFreeQueue.
Local Open Scope nat_scope.

Lemma next_index (i C : nat) :
  i < C -> (i + 1) mod C = if bool_decide (i + 1 = C) then 0 else i + 1.
Proof.
  intros Hi. case_bool_decide as HC.
  - rewrite HC. apply Nat.Div0.mod_same.
  - apply Nat.mod_small. lia.
Qed.

Lemma Size_le q : wf q -> Size q <= capacity_ q - 1.
Proof.
  intros (HC & Hh & Ht & _). unfold Size. case_bool_decide; lia.
Qed.

Lemma Push_true_iff x q :
  wf q -> (Push x q).1 = true <-> Size q < capacity_ q - 1.
Proof.
  intros (HC & Hh & Ht & _). unfold Push, Size.
  rewrite (next_index _ _ Ht).
  repeat case_bool_decide; simpl; split; intros; try done; lia.
Qed.

Lemma Push_false_id x q : (Push x q).1 = false -> (Push x q).2 = q.
Proof. unfold Push. by case_bool_decide. Qed.

Lemma Push_true_wf x q :
  wf q -> (Push x q).1 = true ->
  wf (Push x q).2 /\ Size (Push x q).2 = S (Size q).
Proof.
  intros (HC & Hh & Ht & Hb). unfold Push, Size, wf.
  rewrite (next_index _ _ Ht).
  repeat case_bool_decide; simpl; intros; try done;
    simpl in *; rewrite ?length_insert; repeat split; try lia.
Qed.

Lemma push_all_true items q :
  wf q -> Forall (eq true) (push_all items q).1 ->
  wf (push_all items q).2
  /\ Size (push_all items q).2 = Size q + length items.
Proof.
  revert q. induction items as [| x items IH]; intros q Hwf Hall; simpl in *.
  - split; [done | lia].
  - destruct (Push x q) as [b q1] eqn:HP.
    destruct (push_all items q1) as [bs q2] eqn:HA. simpl in *.
    inversion Hall as [| ? ? Hb Hbs]; subst.
    destruct (Push_true_wf x q Hwf) as [Hwf1 HS1]; [by rewrite HP |].
    rewrite HP in Hwf1, HS1. simpl in *.
    specialize (IH q1 Hwf1). rewrite HA in IH. simpl in IH.
    destruct (IH Hbs) as [Hwf2 HS2]. split; [done | lia].
Qed.

Lemma ctor_wf (dflt : T) (C : nat) : 0 < C -> wf (ctor dflt C).
Proof. intros. unfold wf, ctor; simpl. rewrite length_replicate. lia. Qed.

Lemma push_all_room items q :
  wf q -> Size q + length items <= capacity_ q - 1 ->
  (push_all items q).1 = replicate (length items) true.
Proof.
  revert q. induction items as [| x items IH]; intros q Hwf Hlen; simpl in *.
  - done.
  - destruct (Push x q) as [b q1] eqn:HP.
    destruct (push_all items q1) as [bs q2] eqn:HA. simpl.
    assert (Hb : (Push x q).1 = true) by (apply Push_true_iff; [done | lia]).
    destruct (Push_true_wf x q Hwf Hb) as [Hwf1 HS1].
    rewrite HP in Hb, Hwf1, HS1. simpl in *. subst b.
    assert (HC : capacity_ q1 = capacity_ q).
    { replace q1 with (Push x q).2 by (by rewrite HP).
      unfold Push. by case_bool_decide. }
    specialize (IH q1 Hwf1). rewrite HA in IH. simpl in IH.
    rewrite IH; [done | lia].
Qed.

Lemma Pop_Some_iff q :
  wf q -> is_Some (Pop q).1 <-> IsEmpty q = false.
Proof.
  intros (HC & Hh & Ht & Hb). unfold Pop, IsEmpty.
  destruct (lookup_lt_is_Some_2 (buffer_ q) (head_ q)) as [x Hx]; [lia |].
  rewrite Hx.
  case_bool_decide; simpl; split; intros H';
    first [done | by destruct H' | by eexists].
Qed.

Lemma IsEmpty_Size q : wf q -> IsEmpty q = true <-> Size q = 0.
Proof.
  intros (HC & Hh & Ht & _). unfold IsEmpty, Size.
  repeat case_bool_decide; split; intros; try done; lia.
Qed.

Lemma Pop_contents q :
  wf q -> IsEmpty q = false ->
  exists x q', Pop q = (Some x, q') /\ contents q = x :: contents q'
    /\ wf q' /\ Size q = S (Size q').
Proof.
  intros (HC & Hh & Ht & Hb). unfold IsEmpty, Pop, contents. intros Hne.
  apply bool_decide_eq_false in Hne. rewrite bool_decide_eq_false_2 by done.
  destruct (lookup_lt_is_Some_2 (buffer_ q) (head_ q)) as [x Hx]; [lia |].
  rewrite Hx. eexists _, _. split; [reflexivity |].
  assert (HS : Size q = S (Size (mk (buffer_ q) (capacity_ q)
                             ((head_ q + 1) mod capacity_ q) (tail_ q)))).
  { unfold Size. simpl. rewrite (next_index _ _ Hh).
    repeat case_bool_decide; lia. }
  split; [| split; [| done]].
  - rewrite HS at 1. simpl. by rewrite Hx.
  - unfold wf. simpl. rewrite (next_index _ _ Hh).
    case_bool_decide; repeat split; lia.
Qed.

Lemma cells_S (buffer : list T) (C i n : nat) :
  cells buffer C i (S n) =
  match buffer !! i with
  | Some x => x :: cells buffer C ((i + 1) mod C) n
  | None => []
  end.
Proof. reflexivity. Qed.

Lemma cells_insert_tail (buffer : list T) (C t : nat) x n h :
  length buffer = C -> h < C -> t < C -> dist C h t = n ->
  cells (<[t := x]> buffer) C h (S n) = cells buffer C h n ++ [x].
Proof.
  intros Hb. revert h. induction n as [| n IH]; intros h Hh Ht Hd.
  - assert (h = t) by (unfold dist in Hd; case_bool_decide; lia). subst h.
    simpl. rewrite list_lookup_insert_eq by lia. done.
  - assert (h <> t) by (unfold dist in Hd; case_bool_decide; lia).
    destruct (lookup_lt_is_Some_2 buffer h) as [y Hy]; [lia |].
    rewrite (cells_S _ _ _ (S n)), (cells_S buffer).
    rewrite list_lookup_insert_ne by done. rewrite Hy.
    rewrite IH; [done | | done |].
    + apply Nat.mod_upper_bound. lia.
    + rewrite (next_index _ _ Hh). unfold dist in *.
      repeat case_bool_decide; lia.
Qed.

Lemma Push_contents x q :
  wf q -> (Push x q).1 = true -> contents (Push x q).2 = contents q ++ [x].
Proof.
  intros Hwf HP. destruct (Push_true_wf x q Hwf HP) as [_ HS].
  destruct Hwf as (HC & Hh & Ht & Hb).
  unfold contents. rewrite HS. revert HP. unfold Push.
  case_bool_decide; [done |]. intros _. simpl.
  apply cells_insert_tail; try done.
Qed.

Lemma contents_nil q : wf q -> IsEmpty q = true -> contents q = [].
Proof.
  intros Hwf He. apply IsEmpty_Size in He; [| done].
  unfold contents. by rewrite He.
Qed.

Lemma contents_length q : wf q -> length (contents q) = Size q.
Proof.
  intros Hwf. remember (Size q) as n eqn:Hn. revert q Hwf Hn.
  induction n as [| n IH]; intros q Hwf Hn.
  - unfold contents. by rewrite <- Hn.
  - destruct (Pop_contents q Hwf) as (x & q' & _ & Hc & Hwf' & HS).
    { destruct (IsEmpty q) eqn:He; [| done].
      apply IsEmpty_Size in He; [lia | done]. }
    rewrite Hc. simpl. f_equal. apply IH; [done | lia].
Qed.

Lemma push_all_capacity items q : capacity_ (push_all items q).2 = capacity_ q.
Proof.
  revert q. induction items as [| x items IH]; intros q; simpl; [done |].
  destruct (Push x q) as [b q1] eqn:HP.
  specialize (IH q1). destruct (push_all items q1) as [bs q2]. simpl in *.
  rewrite IH. replace q1 with (Push x q).2 by (by rewrite HP).
  unfold Push. by case_bool_decide.
Qed.

Lemma push_all_contents items q :
  wf q -> Forall (eq true) (push_all items q).1 -> contents q = [] ->
  contents (push_all items q).2 = items.
Proof.
  intros Hwf Hall Hnil.
  enough (contents (push_all items q).2 = contents q ++ items) as ->
    by (by rewrite Hnil).
  clear Hnil. revert q Hwf Hall.
  induction items as [| x items IH]; intros q Hwf Hall; simpl in *.
  - by rewrite app_nil_r.
  - destruct (Push x q) as [b q1] eqn:HP.
    destruct (push_all items q1) as [bs q2] eqn:HA. simpl in *.
    inversion Hall as [| ? ? Hb Hbs]; subst.
    assert (HT : (Push x q).1 = true) by (by rewrite HP).
    destruct (Push_true_wf x q Hwf HT) as [Hwf1 _].
    pose proof (Push_contents x q Hwf HT) as Hc.
    rewrite HP in Hwf1, Hc. simpl in *.
    specialize (IH q1 Hwf1). rewrite HA in IH. simpl in IH.
    rewrite IH by done. rewrite Hc. by rewrite <- app_assoc.
Qed.

Lemma Pop_head_contents q : wf q -> (Pop q).1 = head (contents q).
Proof.
  intros Hwf. destruct (IsEmpty q) eqn:He.
  - rewrite (contents_nil q Hwf He). unfold Pop. unfold IsEmpty in He.
    by rewrite He.
  - destruct (Pop_contents q Hwf He) as (x & q' & HP & Hc & _).
    by rewrite HP, Hc.
Qed.

(** C9. A ring of capacity [C] holds at most [C - 1] items: the size
    never exceeds [C - 1]; the constructed ring takes [C - 1] pushes;
    after [C - 1] pushes in a row that all succeeded, from any state,
    the next push answers [false] and changes nothing; and [Pop] hands
    out an item, the oldest one, exactly when some item is held. *)
Theorem ring_holds_capacity_minus_one (dflt : T) q (items : list T) x :
  wf q -> length items = capacity_ q - 1 ->
  Size q <= capacity_ q - 1
  /\ (push_all items (ctor dflt (capacity_ q))).1
     = replicate (capacity_ q - 1) true
  /\ contents (push_all items (ctor dflt (capacity_ q))).2 = items
  /\ (Forall (eq true) (push_all items q).1 ->
      Push x (push_all items q).2 = (false, (push_all items q).2))
  /\ (is_Some (Pop q).1 <-> 0 < Size q)
  /\ (Pop q).1 = head (contents q).
Proof.
  intros Hwf Hlen.
  assert (HC : 0 < capacity_ q) by apply Hwf.
  split; [by apply Size_le |].
  split.
  { rewrite <- Hlen. apply push_all_room; [by apply ctor_wf |].
    simpl. unfold Size. simpl. lia. }
  split.
  { apply push_all_contents; [by apply ctor_wf | |].
    - rewrite push_all_room; [apply Forall_replicate; done | by apply ctor_wf |].
      simpl. unfold Size. simpl. lia.
    - done. }
  split.
  { intros Hall. destruct (push_all_true items q Hwf Hall) as [Hwf' HS].
    assert (Hcap : capacity_ (push_all items q).2 = capacity_ q)
      by apply push_all_capacity.
    pose proof (Size_le _ Hwf') as Hle. rewrite Hcap in Hle.
    destruct (Push x (push_all items q).2) as [b q'] eqn:HP.
    assert (Hb : b = false).
    { destruct b; [| done].
      assert (Ht : (Push x (push_all items q).2).1 = true) by (by rewrite HP).
      apply Push_true_iff in Ht; [| done]. lia. }
    subst b. f_equal.
    replace q' with (Push x (push_all items q).2).2 by (by rewrite HP).
    apply Push_false_id. by rewrite HP. }
  split; [| by apply Pop_head_contents].
  rewrite Pop_Some_iff by done.
  destruct (IsEmpty q) eqn:He.
  - apply IsEmpty_Size in He; [| done]. split; [done | lia].
  - split; [| done]. intros _.
    destruct (Pop_contents q Hwf He) as (? & ? & _ & _ & _ & HS). lia.
Qed.

End LockFreeQueue_facts.

Lemma ring_holds_capacity_minus_one_witness :
  let q := LockFreeQueue.ctor 0%Z 4 in
  (LockFreeQueue.Size q <= 3)%nat
  /\ (LockFreeQueue.push_all [1; 2; 3]%Z q).1 = [true; true; true]
  /\ LockFreeQueue.contents (LockFreeQueue.push_all [1; 2; 3]%Z q).2 = [1; 2; 3]%Z
  /\ (Forall (eq true) (LockFreeQueue.push_all [1; 2; 3]%Z q).1 ->
      LockFreeQueue.Push 4%Z (LockFreeQueue.push_all [1; 2; 3]%Z q).2
      = (false, (LockFreeQueue.push_all [1; 2; 3]%Z q).2))
  /\ (is_Some (LockFreeQueue.Pop q).1 <-> (0 < LockFreeQueue.Size q)%nat)
  /\ (LockFreeQueue.Pop q).1 = head (LockFreeQueue.contents q).
Proof.
  apply (ring_holds_capacity_minus_one 0%Z (LockFreeQueue.ctor 0%Z 4)
           [1; 2; 3]%Z 4%Z).
  - unfold LockFreeQueue.wf. simpl. lia.
  - reflexivity.
Defined.

(** ** The book: frame facts *)

Lemma heap_UpdateLevelData price quantity action b :
  Book.heap (Book.UpdateLevelData price quantity action b) = Book.heap b.
Proof. unfold Book.UpdateLevelData. by case_bool_decide. Qed.

Lemma bids_UpdateLevelData price quantity action b :
  Book.bids_ (Book.UpdateLevelData price quantity action b) = Book.bids_ b.
Proof. unfold Book.UpdateLevelData. by case_bool_decide. Qed.

Lemma asks_UpdateLevelData price quantity action b :
  Book.asks_ (Book.UpdateLevelData price quantity action b) = Book.asks_ b.
Proof. unfold Book.UpdateLevelData. by case_bool_decide. Qed.

Lemma deref_heap order b b' :
  Book.heap b' = Book.heap b -> Book.deref order b' = Book.deref order b.
Proof. unfold Book.deref. by intros ->. Qed.

Lemma deref_store_eq order o o0 b :
  Book.deref order b = Done o0 -> Book.deref order (Book.store order o b) = Done o.
Proof.
  unfold Book.deref, Book.store, Heap.read, Heap.write. simpl.
  case_bool_decide; [| done]. intros _. by rewrite lookup_insert_eq.
Qed.

Lemma deref_store_ne order order' o b :
  order <> order' ->
  Book.deref order' (Book.store order o b) = Book.deref order' b.
Proof.
  intros Hne. unfold Book.deref, Book.store, Heap.read, Heap.write. simpl.
  by rewrite lookup_insert_ne.
Qed.

Lemma wrapQ_small z : 0 <= z < Quantity_modulus -> wrapQ z = z.
Proof. intros. unfold wrapQ. by apply Z.mod_small. Qed.

Lemma Fill_le quantity o :
  quantity <= Order.GetRemainingQuantity o ->
  Order.Fill quantity o
  = Done (Order.mk (Order.orderType_ o) (Order.orderId_ o) (Order.side_ o)
            (Order.price_ o) (Order.initialQuantity_ o)
            (wrapQ (Order.remainingQuantity_ o - quantity))).
Proof.
  intros Hle. unfold Order.Fill. by rewrite bool_decide_eq_false_2 by lia.
Qed.

(** The state of the book after the two [Fill]s of a pass, before the
    filled orders are taken off. *)
Lemma cross_eq bid ask trades b ob oa :
  Book.deref bid b = Done ob -> Book.deref ask b = Done oa -> bid <> ask ->
  let q := Z.min (Order.GetRemainingQuantity ob) (Order.GetRemainingQuantity oa) in
  exists b',
    Book.cross bid ask trades b
    = Done (trades ++
            [Trade.mk
               (TradeInfo.mk (Order.GetOrderId ob) (Order.GetPrice ob) q)
               (TradeInfo.mk (Order.GetOrderId oa) (Order.GetPrice oa) q)], b')
    /\ Book.heap b'
       = Book.heap
           (Book.store ask
              (Order.mk (Order.orderType_ oa) (Order.orderId_ oa) (Order.side_ oa)
                 (Order.price_ oa) (Order.initialQuantity_ oa)
                 (wrapQ (Order.remainingQuantity_ oa - q)))
              (Book.store bid
                 (Order.mk (Order.orderType_ ob) (Order.orderId_ ob) (Order.side_ ob)
                    (Order.price_ ob) (Order.initialQuantity_ ob)
                    (wrapQ (Order.remainingQuantity_ ob - q))) b)).
Proof.
  intros Hb Ha Hne q. unfold Book.cross.
  rewrite Hb. simpl. rewrite Ha. simpl.
  rewrite (Fill_le _ ob) by lia.
  simpl. rewrite (deref_store_ne bid ask) by done. rewrite Ha. simpl.
  rewrite (Fill_le _ oa) by lia.
  simpl. rewrite (deref_store_ne ask bid) by done.
  rewrite (deref_store_eq bid _ ob) by done. simpl.
  rewrite (deref_store_eq ask _ oa) by (by rewrite deref_store_ne).
  simpl.
  eexists. split; [reflexivity |].
  unfold Book.OnOrderMatched. rewrite !heap_UpdateLevelData.
  repeat case_match; reflexivity.
Qed.

(** C7. A pass of the match loop that executes a cross between the head
    [bid] of the first bid level and the head [ask] of the first ask
    level trades [q = min] of what remains of the two orders, takes
    exactly [q] off each of them, and appends one trade that records the
    bid at the bid's own price and the ask at the ask's own price, both
    with quantity [q]. *)
Theorem cross_trades_min_of_remaining
    (n : nat) (bid ask : N) (trades : Trades) (b : Book.t) (ob oa : Order.t)
    (bidPrice askPrice : Price) (bids asks : list N) (bidLevels askLevels : PriceMap.t) :
  Book.bids_ b = (bidPrice, bid :: bids) :: bidLevels ->
  Book.asks_ b = (askPrice, ask :: asks) :: askLevels ->
  Book.deref bid b = Done ob -> Book.deref ask b = Done oa ->
  Order.GetSide ob = Buy -> Order.GetSide oa = Sell ->
  0 <= Order.GetRemainingQuantity ob < Quantity_modulus ->
  0 <= Order.GetRemainingQuantity oa < Quantity_modulus ->
  let q := Z.min (Order.GetRemainingQuantity ob) (Order.GetRemainingQuantity oa) in
  let trade :=
    Trade.mk (TradeInfo.mk (Order.GetOrderId ob) (Order.GetPrice ob) q)
             (TradeInfo.mk (Order.GetOrderId oa) (Order.GetPrice oa) q) in
  exists b',
    Book.cross bid ask trades b = Done (trades ++ [trade], b')
    /\ Book.cross_loop (S n) trades b = Book.cross_loop n (trades ++ [trade]) b'
    /\ Book.deref bid b'
       = Done (Order.mk (Order.orderType_ ob) (Order.orderId_ ob) (Order.side_ ob)
                 (Order.price_ ob) (Order.initialQuantity_ ob)
                 (Order.remainingQuantity_ ob - q))
    /\ Book.deref ask b'
       = Done (Order.mk (Order.orderType_ oa) (Order.orderId_ oa) (Order.side_ oa)
                 (Order.price_ oa) (Order.initialQuantity_ oa)
                 (Order.remainingQuantity_ oa - q)).
Proof.
  intros Hbids Hasks Hb Ha Hsb Hsa Hrb Hra q trade.
  assert (Hne : bid <> ask).
  { intros ->. rewrite Hb in Ha. injection Ha as ->. congruence. }
  destruct (cross_eq bid ask trades b ob oa Hb Ha Hne) as (b' & Hc & Hh).
  exists b'. split; [exact Hc |]. split.
  { simpl. rewrite Hbids, Hasks. fold q trade in Hc. rewrite Hc. reflexivity. }
  unfold Order.GetRemainingQuantity in *.
  rewrite !(deref_heap _ _ _ Hh).
  rewrite (deref_store_ne ask bid) by done.
  rewrite (deref_store_eq bid _ ob) by done.
  rewrite (deref_store_eq ask _ oa) by (by rewrite deref_store_ne).
  rewrite !wrapQ_small by (subst q; lia). done.
Qed.

(** ** The match loop *)

Lemma MatchOrders_loop_unfold fuel trades b :
  Book.MatchOrders_loop fuel trades b =
  match Book.bids_ b, Book.asks_ b with
  | (bidPrice, _) :: _, (askPrice, _) :: _ =>
      if bool_decide (bidPrice < askPrice) then Done (trades, b)
      else
        match fuel with
        | O => OutOfFuel
        | S fuel' =>
            '(trades', b') ← Book.cross_loop fuel' trades b;
            Book.MatchOrders_loop fuel' trades' b'
        end
  | _, _ => Done (trades, b)
  end.
Proof. destruct fuel; reflexivity. Qed.

Lemma cross_loop_unfold n trades b :
  Book.cross_loop n trades b =
  match Book.bids_ b, Book.asks_ b with
  | (_, bid :: _) :: _, (_, ask :: _) :: _ =>
      match n with
      | O => OutOfFuel
      | S n' =>
          '(trades', b') ← Book.cross bid ask trades b;
          Book.cross_loop n' trades' b'
      end
  | _, _ => Done (trades, b)
  end.
Proof. destruct n; reflexivity. Qed.

Lemma pop_front_begin_keys (m : PriceMap.t) : (PriceMap.pop_front_begin m).*1 = m.*1.
Proof. destruct m as [| [k [| x l]] rest]; reflexivity. Qed.

(** A pass of the inner loop leaves the keys of both maps as they are:
    it only takes orders off the lists of the first entries. *)
Lemma cross_keys bid ask trades b trades' b' :
  Book.cross bid ask trades b = Done (trades', b') ->
  (Book.bids_ b').*1 = (Book.bids_ b).*1 /\ (Book.asks_ b').*1 = (Book.asks_ b).*1.
Proof.
  unfold Book.cross. intros H.
  repeat match type of H with
         | (?c ≫= _) = _ => destruct c eqn:?; simpl in H; try discriminate
         end.
  injection H as _ <-.
  unfold Book.OnOrderMatched.
  rewrite !bids_UpdateLevelData, !asks_UpdateLevelData.
  repeat case_match; simpl; rewrite ?pop_front_begin_keys; done.
Qed.

Lemma cross_loop_keys n trades b trades' b' :
  Book.cross_loop n trades b = Done (trades', b') ->
  (Book.bids_ b').*1 = (Book.bids_ b).*1 /\ (Book.asks_ b').*1 = (Book.asks_ b).*1.
Proof.
  revert trades b. induction n as [| n IH]; intros trades b;
    rewrite cross_loop_unfold;
    destruct (Book.bids_ b) as [| [bp [| bid bl]] br] eqn:Hb;
    destruct (Book.asks_ b) as [| [ap [| ask al]] ar] eqn:Ha;
    intros H;
    try (injection H as <- <-; rewrite ?Hb, ?Ha; done); try discriminate.
  destruct (Book.cross bid ask trades b) as [[t1 b1] | |] eqn:Hc;
    simpl in H; try discriminate.
  apply cross_keys in Hc. apply IH in H. rewrite Hb, Ha in Hc.
  destruct Hc as [<- <-]. done.
Qed.

(** Once the two first levels cross, [MatchOrders] does not return:
    whatever the inner loop does, the crossing keys stay in the maps, so
    that no number of passes of the outer loop reaches a [break]. *)
Lemma MatchOrders_loop_crossed fuel trades b r :
  Book.crossed b -> Book.MatchOrders_loop fuel trades b <> Done r.
Proof.
  revert trades b. induction fuel as [| fuel IH]; intros trades b Hx;
    rewrite MatchOrders_loop_unfold; unfold Book.crossed in Hx.
  - destruct (Book.bids_ b) as [| [bp bl] br]; [done |].
    destruct (Book.asks_ b) as [| [ap al] ar]; [done |]. simpl in Hx.
    rewrite bool_decide_eq_false_2 by done. done.
  - destruct (Book.bids_ b) as [| [bp bl] br] eqn:Hb; [done |].
    destruct (Book.asks_ b) as [| [ap al] ar] eqn:Ha; [done |]. simpl in Hx.
    rewrite bool_decide_eq_false_2 by done.
    destruct (Book.cross_loop fuel trades b) as [[t1 b1] | |] eqn:Hc; simpl; try done.
    apply IH. apply cross_loop_keys in Hc. destruct Hc as [Hkb Hka].
    unfold Book.crossed. rewrite Hkb, Hka, Hb, Ha. done.
Qed.

Lemma MatchOrders_crossed fuel b r :
  Book.crossed b -> Book.MatchOrders fuel b <> Done r.
Proof.
  intros Hx. unfold Book.MatchOrders.
  destruct (Book.MatchOrders_loop fuel [] b) as [[t1 b1] | |] eqn:Hl; simpl;
    try done.
  by apply MatchOrders_loop_crossed in Hl.
Qed.

(** When they do not cross, or a side has no level, the loop is left at
    once, with no trade. *)
Lemma MatchOrders_loop_not_crossed fuel trades b :
  ~ Book.crossed b -> Book.MatchOrders_loop fuel trades b = Done (trades, b).
Proof.
  intros Hx. rewrite MatchOrders_loop_unfold. unfold Book.crossed in Hx.
  destruct (Book.bids_ b) as [| [bp bl] br]; [done |].
  destruct (Book.asks_ b) as [| [ap al] ar]; [done |]. simpl in Hx.
  case_bool_decide; [done |]. by destruct Hx.
Qed.

(** With an empty list at the head of a crossing level the outer loop
    goes round without doing anything. *)
Lemma MatchOrders_loop_spins fuel trades b bidPrice askPrice asks bidLevels askLevels :
  Book.bids_ b = (bidPrice, []) :: bidLevels ->
  Book.asks_ b = (askPrice, asks) :: askLevels ->
  ~ bidPrice < askPrice ->
  Book.MatchOrders_loop fuel trades b = OutOfFuel.
Proof.
  intros Hb Ha Hx. induction fuel as [| fuel IH];
    rewrite MatchOrders_loop_unfold, Hb, Ha, bool_decide_eq_false_2 by done.
  - done.
  - rewrite cross_loop_unfold, Hb. simpl. exact IH.
Qed.

(** ** Runs from the constructed engine *)

Lemma Done_result {A : Type} (d : A) (r : outcome A) :
  Scenario.is_done r = true -> r = Done (Scenario.result d r).
Proof. by destruct r. Qed.

Lemma Done_result_pair {A B : Type} (d : A * B) (r : outcome (A * B)) (a : A) :
  Scenario.is_done r = true -> (Scenario.result d r).1 = a ->
  r = Done (a, (Scenario.result d r).2).
Proof. destruct r as [[a' b'] | |]; simpl; intros; by simplify_eq. Qed.

Lemma HandleAddOrder_spins fuel order b b1 t b2 bid ask bidPrice askPrice asks asks'
    bidLevels askLevels :
  Book.HandleAddOrder_place order b = Done (true, b1) ->
  Book.bids_ b1 = (bidPrice, [bid]) :: bidLevels ->
  Book.asks_ b1 = (askPrice, ask :: asks) :: askLevels ->
  ~ bidPrice < askPrice ->
  Book.cross bid ask [] b1 = Done (t, b2) ->
  Book.bids_ b2 = (bidPrice, []) :: bidLevels ->
  Book.asks_ b2 = (askPrice, asks') :: askLevels ->
  Book.HandleAddOrder fuel order b = OutOfFuel.
Proof.
  intros Hp Hb1 Ha1 Hx Hc Hb2 Ha2.
  unfold Book.HandleAddOrder. rewrite Hp. simpl. unfold Book.MatchOrders.
  enough (Book.MatchOrders_loop fuel [] b1 = OutOfFuel) as -> by done.
  rewrite MatchOrders_loop_unfold, Hb1, Ha1, bool_decide_eq_false_2 by done.
  destruct fuel as [| fuel]; [done |].
  assert (H1 : Book.cross_loop fuel [] b1 = OutOfFuel
               \/ Book.cross_loop fuel [] b1 = Done (t, b2)).
  { rewrite cross_loop_unfold, Hb1, Ha1.
    destruct fuel as [| fuel]; [by left | right].
    rewrite Hc. simpl. by rewrite cross_loop_unfold, Hb2. }
  destruct H1 as [-> | ->]; [done |].
  change (Book.MatchOrders_loop fuel t b2 = OutOfFuel).
  by apply (MatchOrders_loop_spins _ _ _ _ _ _ _ _ Hb2 Ha2).
Qed.

(** C2. The match loop run after an Add does not terminate on every
    reachable book: on the book reached by Buy GoodTillCancel id=1
    price=100 quantity=10, the Add of Sell GoodTillCancel id=2 price=100
    quantity=10 trades the two orders and then goes round the outer loop
    for ever, whatever the fuel. *)
Theorem match_loop_spins_after_cross :
  Scenario.add 1 GoodTillCancel 1 Buy 100 10 Scenario.fresh
  = Done ([], Scenario.one_bid)
  /\ Book.AcquireOrder GoodTillCancel 2 Sell 100 10 Scenario.one_bid
     = Done Scenario.crossing_sell
  /\ forall fuel,
       Book.HandleAddOrder fuel Scenario.crossing_sell.1 Scenario.crossing_sell.2
       = OutOfFuel.
Proof.
  split; [unfold Scenario.one_bid; by apply Done_result_pair; vm_compute |].
  split; [unfold Scenario.crossing_sell; by apply Done_result; vm_compute |].
  intros fuel.
  apply (HandleAddOrder_spins fuel _ _ Scenario.placed Scenario.after_cross.1
           Scenario.after_cross.2 99999%N 99998%N 100 100 [] [] [] []).
  - unfold Scenario.placed. by apply Done_result_pair; vm_compute.
  - by vm_compute.
  - by vm_compute.
  - by vm_compute.
  - unfold Scenario.after_cross. by apply Done_result_pair; vm_compute.
  - by vm_compute.
  - by vm_compute.
Qed.

(** ** Levels that are never taken out of the maps *)

Lemma update_keys price f (m : PriceMap.t) : (PriceMap.update price f m).*1 = m.*1.
Proof.
  induction m as [| [k l] rest IH]; simpl; [done |].
  case_bool_decide; csimpl; [done | by f_equal].
Qed.

(** A cancel leaves every level in its map, the emptied one too. *)
Lemma CancelOrderInternal_keys orderId b b' :
  Book.CancelOrderInternal orderId b = Done b' ->
  (Book.bids_ b').*1 = (Book.bids_ b).*1 /\ (Book.asks_ b').*1 = (Book.asks_ b).*1.
Proof.
  unfold Book.CancelOrderInternal, Book.OnOrderCancelled. intros H.
  destruct (Book.orders_ b !! orderId) as [order |];
    [| by injection H as <-].
  repeat match type of H with
         | (?c ≫= _) = _ => destruct c eqn:?; simpl in H; try discriminate
         end.
  injection H as <-. simpl.
  rewrite bids_UpdateLevelData, asks_UpdateLevelData.
  case_bool_decide;
    repeat match goal with
           | H : (?c ≫= _) = _ |- _ => destruct c eqn:?; simpl in H; try discriminate
           end;
    simplify_eq; simpl; by rewrite update_keys.
Qed.

(** C3. The level invariant does not hold after every operation: on the
    book reached by Buy GoodTillCancel id=1 price=100 quantity=10, where
    it holds, the Cancel of id=1 leaves the level 100 in the bid map
    with an empty FIFO, while its count has dropped to zero and its
    entry of [data_] is gone. *)
Theorem cancel_leaves_empty_level :
  Scenario.add 1 GoodTillCancel 1 Buy 100 10 Scenario.fresh
  = Done ([], Scenario.one_bid)
  /\ Spec.levels_ok Scenario.one_bid = true
  /\ Book.HandleCancelOrder 1 Scenario.one_bid = Done Scenario.bid_cancelled
  /\ Book.bids_ Scenario.bid_cancelled = [(100, [])]
  /\ Book.data_ Scenario.bid_cancelled !! 100 = None
  /\ Spec.levels_ok Scenario.bid_cancelled = false.
Proof.
  split; [unfold Scenario.one_bid; by apply Done_result_pair; vm_compute |].
  split; [by vm_compute |].
  split; [unfold Scenario.bid_cancelled; by apply Done_result; vm_compute |].
  split; [by vm_compute |].
  split; by vm_compute.
Qed.

(** ** FillAndKill orders *)

Lemma CanMatch_false side price b : Book.CanMatch side price b = false.
Proof. by destruct side. Qed.

(** A FillAndKill order never reaches the book: [CanMatch] answers
    [false] for it, whatever rests on the other side. *)
Lemma HandleAddOrder_FillAndKill fuel order b o :
  Book.deref order b = Done o -> Order.GetOrderType o = FillAndKill ->
  Book.HandleAddOrder fuel order b = Done ([], b).
Proof.
  intros Hd Ht. unfold Book.HandleAddOrder, Book.HandleAddOrder_place, Book.bind_Market.
  rewrite Hd. simpl. case_bool_decide; [done |].
  rewrite Ht. simpl. rewrite Hd. simpl. rewrite Ht, CanMatch_false. done.
Qed.

(** C1. [CanMatch] does not answer as the specification asks: with the
    Sell id=1 price=100 quantity=3 resting, an ask priced at most 100
    exists and [CanMatch(Buy, 100)] is [false]; with the Buy id=1
    price=100 quantity=10 resting, a bid priced at least 100 exists and
    [CanMatch(Sell, 100)] is [false]. *)
Theorem CanMatch_misses_resting_orders :
  Spec.can_match Buy 100 Scenario.one_ask = true
  /\ Book.CanMatch Buy 100 Scenario.one_ask = false
  /\ Spec.can_match Sell 100 Scenario.one_bid = true
  /\ Book.CanMatch Sell 100 Scenario.one_bid = false.
Proof.
  split; [by vm_compute |].
  split; [by vm_compute |].
  split; by vm_compute.
Qed.

(** C4. On the book that holds exactly the Sell id=1 price=100
    quantity=3, the Add of the Buy FillAndKill id=2 price=100
    quantity=10 emits no trade and leaves the book as it is: the order
    is not resident afterwards, and its slot is not given back to the
    pool either. *)
Theorem FillAndKill_against_resting_ask :
  Scenario.add 1 GoodTillCancel 1 Sell 100 3 Scenario.fresh
  = Done ([], Scenario.one_ask)
  /\ Book.bids_ Scenario.one_ask = []
  /\ Book.asks_ Scenario.one_ask = [(100, [99999%N])]
  /\ Book.deref 99999 Scenario.one_ask = Done (Order.mk GoodTillCancel 1 Sell 100 3 3)
  /\ Book.AcquireOrder FillAndKill 2 Buy 100 10 Scenario.one_ask
     = Done Scenario.fak_buy
  /\ Book.deref Scenario.fak_buy.1 Scenario.fak_buy.2
     = Done (Order.mk FillAndKill 2 Buy 100 10 10)
  /\ (forall fuel,
       Book.HandleAddOrder fuel Scenario.fak_buy.1 Scenario.fak_buy.2
       = Done ([], Scenario.fak_buy.2))
  /\ Book.orders_ Scenario.fak_buy.2 !! 2 = None
  /\ existsb (N.eqb Scenario.fak_buy.1)
       (ObjectPool.pool_ (Book.orderPool_ Scenario.fak_buy.2)) = false.
Proof.
  split; [unfold Scenario.one_ask; by apply Done_result_pair; vm_compute |].
  split; [by vm_compute |].
  split; [by vm_compute |].
  split; [by vm_compute |].
  split; [unfold Scenario.fak_buy; by apply Done_result; vm_compute |].
  assert (Hd : Book.deref Scenario.fak_buy.1 Scenario.fak_buy.2
               = Done (Order.mk FillAndKill 2 Buy 100 10 10)) by (by vm_compute).
  split; [exact Hd |].
  split; [intros fuel; by apply (HandleAddOrder_FillAndKill _ _ _ _ Hd) |].
  split; by vm_compute.
Qed.

Lemma cross_trades_min_of_remaining_witness :
  let ob := Order.mk GoodTillCancel 1 Buy 100 10 10 in
  let oa := Order.mk GoodTillCancel 2 Sell 100 10 10 in
  let q := Z.min (Order.GetRemainingQuantity ob) (Order.GetRemainingQuantity oa) in
  let trade :=
    Trade.mk (TradeInfo.mk (Order.GetOrderId ob) (Order.GetPrice ob) q)
             (TradeInfo.mk (Order.GetOrderId oa) (Order.GetPrice oa) q) in
  exists b',
    Book.cross 99999 99998 [] Scenario.placed = Done ([] ++ [trade], b')
    /\ Book.cross_loop 1 [] Scenario.placed = Book.cross_loop 0 ([] ++ [trade]) b'
    /\ Book.deref 99999 b'
       = Done (Order.mk (Order.orderType_ ob) (Order.orderId_ ob) (Order.side_ ob)
                 (Order.price_ ob) (Order.initialQuantity_ ob)
                 (Order.remainingQuantity_ ob - q))
    /\ Book.deref 99998 b'
       = Done (Order.mk (Order.orderType_ oa) (Order.orderId_ oa) (Order.side_ oa)
                 (Order.price_ oa) (Order.initialQuantity_ oa)
                 (Order.remainingQuantity_ oa - q)).
Proof.
  intros ob oa.
  apply (cross_trades_min_of_remaining 0 99999 99998 [] Scenario.placed ob oa
           100 100 [] [] [] []).
  - vm_compute. reflexivity.
  - vm_compute. reflexivity.
  - vm_compute. reflexivity.
  - vm_compute. reflexivity.
  - reflexivity.
  - reflexivity.
  - unfold Quantity_modulus. simpl. lia.
  - unfold Quantity_modulus. simpl. lia.
Defined.

(** ** The pool *)

(** C6, as the code has it. [Acquire] on a pool with free objects hands
    out the last one released and takes it off the free list, leaving
    the heap alone. On an empty pool it never fails: it allocates a new,
    zero-initialised object, and the pool is left exactly as it was, so
    that nothing in it counts the exhaustion. *)
Theorem Acquire_cases {T : Type} (zero : T) (pool : ObjectPool.t) (h : Heap.t T) :
  (forall obj rest,
     ObjectPool.pool_ pool = obj :: rest ->
     ObjectPool.Acquire pool h = (obj, ObjectPool.mk rest, h))
  /\ (ObjectPool.pool_ pool = [] ->
      exists obj h',
        ObjectPool.Acquire pool h = (obj, pool, h')
        /\ Heap.read zero obj h = None
        /\ Heap.read zero obj h' = Some zero
        /\ forall exhaustions : ObjectPool.t -> nat,
             exhaustions (ObjectPool.Acquire pool h).1.2 = exhaustions pool).
Proof.
  unfold ObjectPool.Acquire. split.
  - intros obj rest ->. reflexivity.
  - intros ->. simpl. eexists _, _. split; [reflexivity |].
    unfold Heap.read. simpl. split; [| split].
    + rewrite bool_decide_eq_false_2 by lia. done.
    + rewrite bool_decide_eq_true_2 by lia. by rewrite lookup_delete_eq.
    + done.
Qed.

Lemma Acquire_cases_witness :
  ObjectPool.Acquire (ObjectPool.mk [5%N; 3%N]) (Heap.mk (∅ : gmap N Order.t) 6)
  = (5%N, ObjectPool.mk [3%N], Heap.mk ∅ 6)
  /\ exists obj h',
       ObjectPool.Acquire (ObjectPool.mk []) (Heap.mk (∅ : gmap N Order.t) 6)
       = (obj, ObjectPool.mk [], h')
       /\ Heap.read Order.zero obj (Heap.mk ∅ 6) = None
       /\ Heap.read Order.zero obj h' = Some Order.zero
       /\ forall exhaustions : ObjectPool.t -> nat,
            exhaustions
              (ObjectPool.Acquire (ObjectPool.mk [])
                 (Heap.mk (∅ : gmap N Order.t) 6)).1.2
            = exhaustions (ObjectPool.mk []).
Proof.
  split.
  - apply (Acquire_cases Order.zero (ObjectPool.mk [5%N; 3%N]) (Heap.mk ∅ 6)).
    reflexivity.
  - apply (Acquire_cases Order.zero (ObjectPool.mk []) (Heap.mk ∅ 6)).
    reflexivity.
Defined.

(** C6, as the claim has it, fails on the empty pool of an engine with
    no order allocated yet: [Acquire] answers with the new object at
    address 0 and with the pool it was given. There is no failure, and
    no counter that could have been incremented. *)
Lemma Acquire_on_empty_pool_counts_nothing :
  ObjectPool.Acquire (ObjectPool.mk []) (Heap.empty : Heap.t Order.t)
  = (0%N, ObjectPool.mk [], Heap.mk ∅ 1).
Proof. reflexivity. Qed.

(** ** The event loop *)

Section Matcher_facts.
Variable clock : nat -> Z.

Lemma record_latency_set_queue req q s :
  Orderbook.record_latency clock req (Orderbook.set_queue q s)
  = Orderbook.set_queue q (Orderbook.record_latency clock req s).
Proof.
  unfold Orderbook.record_latency. simpl.
  repeat case_bool_decide; reflexivity.
Qed.

Lemma process_request_set_queue fuel req q s :
  Orderbook.process_request clock fuel req (Orderbook.set_queue q s)
  = s' ← Orderbook.process_request clock fuel req s; Done (Orderbook.set_queue q s').
Proof.
  unfold Orderbook.process_request.
  change (Orderbook.risk_gate req (Orderbook.set_queue q s))
    with (Orderbook.risk_gate req s).
  destruct (Orderbook.risk_gate req s) as [[order |] | |]; simpl; try done.
  destruct (Orderbook.dispatch fuel req (Orderbook.book s)); simpl; try done.
  by rewrite <- record_latency_set_queue.
Qed.

(** Handling a request touches neither the ring, the flag nor the
    journal. *)
Lemma process_request_frame fuel req s s' :
  Orderbook.process_request clock fuel req s = Done s' ->
  Orderbook.requestQueue_ s' = Orderbook.requestQueue_ s
  /\ Orderbook.shutdown_ s' = Orderbook.shutdown_ s
  /\ Orderbook.journaler_ s' = Orderbook.journaler_ s.
Proof.
  unfold Orderbook.process_request. intros H.
  destruct (Orderbook.risk_gate req s) as [[order |] | |]; simpl in H;
    try discriminate.
  - by injection H as <-.
  - destruct (Orderbook.dispatch fuel req (Orderbook.book s)); simpl in H;
      try discriminate.
    injection H as <-. unfold Orderbook.record_latency.
    repeat case_bool_decide; done.
Qed.

Lemma process_all_set_queue fuel reqs q s s' :
  Orderbook.process_all clock fuel reqs s = Done s' ->
  Orderbook.process_all clock fuel reqs (Orderbook.set_queue q s)
  = Done (Orderbook.set_queue q s').
Proof.
  revert s. induction reqs as [| req reqs IH]; intros s; simpl.
  - by intros [= <-].
  - rewrite process_request_set_queue.
    destruct (Orderbook.process_request clock fuel req s) as [s1 | |]; simpl;
      try done.
    apply IH.
Qed.

Lemma set_queue_set_queue q q' s :
  Orderbook.set_queue q (Orderbook.set_queue q' s) = Orderbook.set_queue q s.
Proof. reflexivity. Qed.

Lemma ProcessRequests_unfold iters fuel s :
  Orderbook.ProcessRequests clock iters fuel s =
  if negb (Orderbook.shutdown_ s)
     || negb (LockFreeQueue.IsEmpty (Orderbook.requestQueue_ s)) then
    match iters with
    | O => OutOfFuel
    | S iters' =>
        match LockFreeQueue.Pop (Orderbook.requestQueue_ s) with
        | (Some req, q) =>
            s ← Orderbook.process_request clock fuel req (Orderbook.set_queue q s);
            Orderbook.ProcessRequests clock iters' fuel s
        | (None, _) => Orderbook.ProcessRequests clock iters' fuel s
        end
    end
  else Done s.
Proof. destruct iters; reflexivity. Qed.

(** With the flag set, the loop is left only on an empty ring. *)
Lemma ProcessRequests_exits_empty iters fuel s s' :
  Orderbook.shutdown_ s = true ->
  Orderbook.ProcessRequests clock iters fuel s = Done s' ->
  LockFreeQueue.IsEmpty (Orderbook.requestQueue_ s') = true.
Proof.
  revert s. induction iters as [| iters IH]; intros s Hs;
    rewrite ProcessRequests_unfold, Hs; simpl.
  - destruct (LockFreeQueue.IsEmpty (Orderbook.requestQueue_ s)) eqn:He; simpl;
      [by intros [= <-] | done].
  - destruct (LockFreeQueue.IsEmpty (Orderbook.requestQueue_ s)) eqn:He; simpl;
      [by intros [= <-] |].
    destruct (LockFreeQueue.Pop (Orderbook.requestQueue_ s)) as [[req |] q];
      [| by apply IH].
    destruct (Orderbook.process_request clock fuel req (Orderbook.set_queue q s))
      as [s1 | |] eqn:Hp; simpl; try done.
    apply IH. apply process_request_frame in Hp. destruct Hp as (_ & -> & _).
    done.
Qed.

Lemma ProcessRequests_drains fuel n :
  forall iters s s',
    Orderbook.shutdown_ s = true ->
    LockFreeQueue.wf (Orderbook.requestQueue_ s) ->
    LockFreeQueue.Size (Orderbook.requestQueue_ s) = n ->
    (n < iters)%nat ->
    Orderbook.process_all clock fuel
      (LockFreeQueue.contents (Orderbook.requestQueue_ s)) s = Done s' ->
    Orderbook.ProcessRequests clock iters fuel s
    = Done (Orderbook.set_queue
              (LockFreeQueue.drained (Orderbook.requestQueue_ s)) s').
Proof.
  induction n as [| n IH]; intros iters s s' Hs Hwf Hn Hit Hall;
    rewrite ProcessRequests_unfold, Hs; simpl.
  - assert (He : LockFreeQueue.IsEmpty (Orderbook.requestQueue_ s) = true)
      by (by apply IsEmpty_Size).
    rewrite He. simpl. rewrite (contents_nil _ Hwf He) in Hall.
    injection Hall as <-. f_equal.
    unfold LockFreeQueue.IsEmpty in He. apply bool_decide_eq_true in He.
    destruct s as [b q f r l p j]. unfold Orderbook.set_queue. simpl in *.
    f_equal. destruct q. unfold LockFreeQueue.drained. simpl in *. by subst.
  - assert (He : LockFreeQueue.IsEmpty (Orderbook.requestQueue_ s) = false).
    { destruct (LockFreeQueue.IsEmpty (Orderbook.requestQueue_ s)) eqn:He; [| done].
      apply IsEmpty_Size in He; [lia | done]. }
    rewrite He. simpl. destruct iters as [| iters]; [lia |].
    destruct (Pop_contents _ Hwf He) as (req & q1 & HP & Hc & Hwf1 & HS).
    rewrite HP. rewrite Hc in Hall. simpl in Hall.
    rewrite process_request_set_queue.
    destruct (Orderbook.process_request clock fuel req s) as [s1 | |] eqn:Hp;
      simpl in *; try done.
    apply process_request_frame in Hp. destruct Hp as (Hq & Hf & _).
    assert (Hd : LockFreeQueue.drained (Orderbook.requestQueue_ s)
                 = LockFreeQueue.drained q1).
    { unfold LockFreeQueue.Pop in HP. revert HP.
      case_bool_decide; [done |].
      destruct (LockFreeQueue.buffer_ (Orderbook.requestQueue_ s)
                  !! LockFreeQueue.head_ (Orderbook.requestQueue_ s)); [| done].
      by intros [= _ <-]. }
    rewrite (IH iters (Orderbook.set_queue q1 s1) (Orderbook.set_queue q1 s')).
    + simpl. by rewrite Hd.
    + simpl. by rewrite Hf.
    + done.
    + simpl. lia.
    + lia.
    + simpl. by apply process_all_set_queue.
Qed.
End Matcher_facts.

(** Handling a request, admitted by the risk gate or not, appends
    nothing to the journal: the call of [journaler_.Log] is inside a
    comment, and the journal ring is after the request what it was
    before. *)
Lemma process_request_leaves_journal
    (clock : nat -> Z) (fuel : nat) (req : Request.t) (s s' : Orderbook.t) :
  Orderbook.process_request clock fuel req s = Done s' ->
  Orderbook.journaler_ s' = Orderbook.journaler_ s.
Proof. intros H. by apply process_request_frame in H as (_ & _ & ?). Qed.

(** An Add that the risk gate allows is handed to [HandleAddOrder] on
    the book as it is. *)
Lemma process_request_allowed_Add
    (clock : nat -> Z) (fuel : nat) (req : Request.t) (order : N) (o : Order.t)
    (s : Orderbook.t) :
  Request.type req = Request.Add -> Request.order req = Some order ->
  Book.deref order (Orderbook.book s) = Done o ->
  RiskManager.CheckOrder (Orderbook.riskManager_ s) o = RiskManager.Allowed ->
  Orderbook.process_request clock fuel req s
  = r ← Book.HandleAddOrder fuel order (Orderbook.book s);
    Done (Orderbook.record_latency clock req
            (Orderbook.set_processed (S (Orderbook.ordersProcessed_ s))
               (Orderbook.set_book r.2 s))).
Proof.
  intros Hty Hord Hd Hrisk.
  unfold Orderbook.process_request, Orderbook.risk_gate, Orderbook.dispatch.
  rewrite Hty, Hord. simpl. rewrite Hd. simpl. rewrite Hrisk. simpl.
  by destruct (Book.HandleAddOrder fuel order (Orderbook.book s)) as [[t b] | |].
Qed.

(** C5. The matcher does not journal the requests it admits: on the Add
    of a Buy GoodTillCancel id=1 price=100 quantity=10 sent to the
    constructed engine, the risk gate lets the request through, the
    matcher handles it and puts the order on the book, and the journal
    ring holds no entry afterwards. *)
Theorem admitted_request_is_not_journalled :
  Orderbook.risk_gate Scenario.add_request Scenario.with_order.2 = Done None
  /\ Orderbook.process_request Scenario.clock 1 Scenario.add_request
       Scenario.with_order.2 = Done Scenario.add_handled
  /\ Book.bids_ (Orderbook.book Scenario.add_handled) = [(100, [99999%N])]
  /\ LockFreeQueue.Size
       (AsyncJournaler.queue_ (Orderbook.journaler_ Scenario.add_handled)) = 0%nat
  /\ LockFreeQueue.contents
       (AsyncJournaler.queue_ (Orderbook.journaler_ Scenario.add_handled)) = [].
Proof.
  split; [by vm_compute |].
  split; [unfold Scenario.add_handled; by apply Done_result; vm_compute |].
  split; [by vm_compute |].
  split; by vm_compute.
Qed.

(** C10. Once the shutdown flag is set the matcher goes on popping and
    handling until the ring is empty: if the requests held by the ring
    are each handled to the end, the loop handles all of them, in the
    order they were pushed, and returns with the ring empty; and it
    never returns on a ring that still holds a request. *)
Theorem shutdown_drains_ring
    (clock : nat -> Z) (iters fuel : nat) (s s' : Orderbook.t) :
  LockFreeQueue.wf (Orderbook.requestQueue_ s) ->
  Orderbook.process_all clock fuel
    (LockFreeQueue.contents (Orderbook.requestQueue_ s))
    (Orderbook.set_shutdown true s) = Done s' ->
  (LockFreeQueue.Size (Orderbook.requestQueue_ s) < iters)%nat ->
  Orderbook.dtor clock iters fuel s
  = Done (Orderbook.set_queue
            (LockFreeQueue.drained (Orderbook.requestQueue_ s)) s')
  /\ LockFreeQueue.IsEmpty (LockFreeQueue.drained (Orderbook.requestQueue_ s)) = true
  /\ forall n r,
       Orderbook.dtor clock n fuel s = Done r ->
       LockFreeQueue.IsEmpty (Orderbook.requestQueue_ r) = true.
Proof.
  intros Hwf Hall Hit. unfold Orderbook.dtor. split; [| split].
  - exact (ProcessRequests_drains clock fuel _ iters
             (Orderbook.set_shutdown true s) s' eq_refl Hwf eq_refl Hit Hall).
  - unfold LockFreeQueue.IsEmpty, LockFreeQueue.drained. simpl.
    by apply bool_decide_eq_true.
  - intros n r. by apply ProcessRequests_exits_empty.
Qed.

Lemma shutdown_drains_ring_witness :
  Orderbook.dtor Scenario.clock 4 1 Scenario.queued
  = Done (Orderbook.set_queue
            (LockFreeQueue.drained (Orderbook.requestQueue_ Scenario.queued))
            Scenario.queued_handled)
  /\ LockFreeQueue.IsEmpty
       (LockFreeQueue.drained (Orderbook.requestQueue_ Scenario.queued)) = true
  /\ forall n r,
       Orderbook.dtor Scenario.clock n 1 Scenario.queued = Done r ->
       LockFreeQueue.IsEmpty (Orderbook.requestQueue_ r) = true.
Proof.
  apply (shutdown_drains_ring Scenario.clock 4 1 Scenario.queued
           Scenario.queued_handled).
  - unfold LockFreeQueue.wf.
    split; [apply Nat.ltb_lt; vm_compute; reflexivity |].
    split; [apply Nat.ltb_lt; vm_compute; reflexivity |].
    split; [apply Nat.ltb_lt; vm_compute; reflexivity |].
    apply Nat.eqb_eq. vm_compute. reflexivity.
  - unfold Scenario.queued_handled. apply Done_result. vm_compute. reflexivity.
  - apply Nat.ltb_lt. vm_compute. reflexivity.
Defined.

(** * Further properties *)

(** ** The ring buffer, continued *)

Section LockFreeQueue_more.
Context {T : Type}.
Implicit Types (q : LockFreeQueue.t T) (x : T).
Import LockFreeQueue.
Local Open Scope nat_scope.

Lemma Pop_wf q : wf q -> wf (Pop q).2.
Proof.
  intros Hwf. destruct (IsEmpty q) eqn:He.
  - unfold Pop. unfold IsEmpty in He. by rewrite He.
  - destruct (Pop_contents q Hwf He) as (y & q' & HP & _ & Hwf' & _).
    by rewrite HP.
Qed.

Lemma Push_wf x q : wf q -> wf (Push x q).2.
Proof.
  intros Hwf. destruct (Push x q).1 eqn:Hb.
  - by apply Push_true_wf.
  - by rewrite Push_false_id.
Qed.

Lemma Push_capacity x q : capacity_ (Push x q).2 = capacity_ q.
Proof. unfold Push. by case_bool_decide. Qed.

Lemma Pop_capacity q : capacity_ (Pop q).2 = capacity_ q.
Proof.
  unfold Pop. case_bool_decide; [done |].
  by destruct (buffer_ q !! head_ q).
Qed.

(** X1. The ring is first-in first-out: a push that succeeds puts the
    item behind the items held, a push on a full ring changes nothing,
    a pop takes the oldest item off and leaves the others in order, and
    [Size] is the number of items held. *)
Theorem ring_is_fifo q x :
  wf q ->
  ((Push x q).1 = true -> contents (Push x q).2 = contents q ++ [x])
  /\ ((Push x q).1 = false -> (Push x q).2 = q)
  /\ (forall y q', Pop q = (Some y, q') -> contents q = y :: contents q')
  /\ ((Pop q).1 = None -> contents q = [] /\ (Pop q).2 = q)
  /\ Size q = length (contents q).
Proof.
  intros Hwf. split; [by apply Push_contents |].
  split; [by apply Push_false_id |].
  split.
  { intros y q' HP.
    assert (He : IsEmpty q = false).
    { apply Pop_Some_iff; [done |]. rewrite HP. by eexists. }
    destruct (Pop_contents q Hwf He) as (y' & q'' & HP' & Hc & _).
    rewrite HP in HP'. by injection HP' as -> ->. }
  split; [| by rewrite contents_length].
  intros HN. destruct (IsEmpty q) eqn:He.
  - split; [by apply contents_nil |]. unfold Pop. unfold IsEmpty in He.
    by rewrite He.
  - apply Pop_Some_iff in He; [| done]. rewrite HN in He. by destruct He.
Qed.

(** X2. The indices of a ring never leave the buffer: the constructed
    ring of a positive capacity has its head and tail below the
    capacity and a buffer of that length, and every push and every pop
    keeps it so, with the capacity unchanged. *)
Theorem ring_indices_stay_in_bounds (dflt : T) (C : nat) q x :
  (0 < C -> wf (ctor dflt C))
  /\ (wf q ->
      wf (Push x q).2 /\ wf (Pop q).2
      /\ capacity_ (Push x q).2 = capacity_ q
      /\ capacity_ (Pop q).2 = capacity_ q).
Proof.
  split; [apply ctor_wf |].
  intros Hwf. split; [by apply Push_wf |]. split; [by apply Pop_wf |].
  split; [apply Push_capacity | apply Pop_capacity].
Qed.

End LockFreeQueue_more.

Lemma ring_is_fifo_witness :
  let q := (LockFreeQueue.Push 7%Z (LockFreeQueue.ctor 0%Z 3)).2 in
  ((LockFreeQueue.Push 8%Z q).1 = true ->
   LockFreeQueue.contents (LockFreeQueue.Push 8%Z q).2
   = LockFreeQueue.contents q ++ [8%Z])
  /\ ((LockFreeQueue.Push 8%Z q).1 = false -> (LockFreeQueue.Push 8%Z q).2 = q)
  /\ (forall y q', LockFreeQueue.Pop q = (Some y, q') ->
      LockFreeQueue.contents q = y :: LockFreeQueue.contents q')
  /\ ((LockFreeQueue.Pop q).1 = None ->
      LockFreeQueue.contents q = [] /\ (LockFreeQueue.Pop q).2 = q)
  /\ LockFreeQueue.Size q = length (LockFreeQueue.contents q).
Proof.
  apply (ring_is_fifo (LockFreeQueue.Push 7%Z (LockFreeQueue.ctor 0%Z 3)).2 8%Z).
  unfold LockFreeQueue.wf. simpl. lia.
Defined.

Lemma ring_indices_stay_in_bounds_witness :
  LockFreeQueue.wf (LockFreeQueue.ctor 0%Z 3)
  /\ LockFreeQueue.wf (LockFreeQueue.Push 9%Z (LockFreeQueue.ctor 0%Z 3)).2
  /\ LockFreeQueue.wf (LockFreeQueue.Pop (LockFreeQueue.ctor 0%Z 3)).2.
Proof.
  destruct (ring_indices_stay_in_bounds 0%Z 3 (LockFreeQueue.ctor 0%Z 3) 9%Z)
    as [Hc Hq].
  assert (Hwf : LockFreeQueue.wf (LockFreeQueue.ctor 0%Z 3)) by (apply Hc; lia).
  destruct (Hq Hwf) as (Hpush & Hpop & _).
  split; [exact Hwf |]. split; [exact Hpush | exact Hpop].
Defined.

(** ** The pool, continued *)

Section ObjectPool_more.
Context {T : Type} (zero : T).

Lemma ctor_iter (n : N) (h : Heap.t T) :
  let r := ObjectPool.ctor n h in
  Heap.next r.2 = (Heap.next h + n)%N
  /\ length (ObjectPool.pool_ r.1) = N.to_nat n
  /\ NoDup (ObjectPool.pool_ r.1)
  /\ (forall p, p ∈ ObjectPool.pool_ r.1 <-> (Heap.next h <= p < Heap.next h + n)%N)
  /\ (forall p, (Heap.next h <= p)%N -> Heap.cells r.2 !! p = None \/ (Heap.next h + n <= p)%N /\ Heap.cells r.2 !! p = Heap.cells h !! p)
  /\ (forall p, (p < Heap.next h)%N -> Heap.cells r.2 !! p = Heap.cells h !! p).
Proof.
  unfold ObjectPool.ctor. induction n as [| n IH] using N.peano_ind; simpl.
  - split; [lia |]. split; [done |]. split; [constructor |].
    split; [| split].
    + intros p. rewrite elem_of_nil. lia.
    + intros p Hp. right. split; [lia | done].
    + done.
  - rewrite N.iter_succ.
    destruct (N.iter n _ _) as [pool h1] eqn:Hit. simpl in *.
    destruct IH as (Hnext & Hlen & Hnd & Hmem & Hnew & Hold).
    unfold Heap.alloc. simpl. rewrite Hnext.
    split; [lia |]. split; [rewrite Hlen; lia |].
    split.
    { constructor; [| done]. rewrite Hmem. lia. }
    split.
    { intros p. rewrite elem_of_cons, Hmem. lia. }
    split.
    { intros p Hp. destruct (decide (p = (Heap.next h + n)%N)) as [-> | Hne].
      - left. apply lookup_delete_eq.
      - rewrite lookup_delete_ne by done.
        destruct (Hnew p Hp) as [? | [? ?]]; [by left |].
        right. split; [lia | done]. }
    intros p Hp. rewrite lookup_delete_ne by lia. by apply Hold.
Qed.

(** X3. The constructor of the pool allocates [initialSize] objects and
    puts each of them on the free list once: the list has that length
    and no repetition, it holds exactly the addresses allocated, each
    of them reads as a zero-initialised object, and the objects that
    existed before are untouched. *)
Theorem ctor_fills_pool (initialSize : N) (h : Heap.t T) :
  let r := ObjectPool.ctor initialSize h in
  length (ObjectPool.pool_ r.1) = N.to_nat initialSize
  /\ NoDup (ObjectPool.pool_ r.1)
  /\ (forall p, p ∈ ObjectPool.pool_ r.1
                <-> (Heap.next h <= p < Heap.next h + initialSize)%N)
  /\ (forall p, p ∈ ObjectPool.pool_ r.1 -> Heap.read zero p r.2 = Some zero)
  /\ (forall p, (p < Heap.next h)%N -> Heap.read zero p r.2 = Heap.read zero p h).
Proof.
  intros r. destruct (ctor_iter initialSize h) as (Hnext & Hlen & Hnd & Hmem & Hnew & Hold).
  fold r in Hnext, Hlen, Hnd, Hmem, Hnew, Hold.
  split; [done |]. split; [done |]. split; [done |]. split.
  - intros p Hp. apply Hmem in Hp. unfold Heap.read. rewrite Hnext.
    rewrite bool_decide_eq_true_2 by lia.
    destruct (Hnew p) as [-> | [? _]]; [lia | done | lia].
  - intros p Hp. unfold Heap.read. rewrite Hnext, (Hold p Hp).
    rewrite !bool_decide_eq_true_2 by lia. done.
Qed.

(** X4. The free list is a stack with no check on what is released: the
    object released last is the one handed out next, with the pool and
    the heap back as they were; and an object released twice is handed
    out twice, to two callers that then share it. *)
Theorem pool_is_unchecked_stack (obj : N) (pool : ObjectPool.t) (h : Heap.t T) :
  ObjectPool.Acquire (ObjectPool.Release obj pool) h = (obj, pool, h)
  /\ (let '(first, pool1, h1) :=
        ObjectPool.Acquire (ObjectPool.Release obj (ObjectPool.Release obj pool)) h in
      let '(second, pool2, h2) := ObjectPool.Acquire pool1 h1 in
      first = obj /\ second = obj /\ pool2 = pool /\ h2 = h).
Proof. destruct pool as [l]. split; [reflexivity | simpl; done]. Qed.

End ObjectPool_more.

(** ** Orders *)

(** X5. [Fill] keeps the books of an order: a fill of more than what
    remains is refused with a logic error; any other fill, for an order
    with [0 <= remaining <= initial] in the range of a [Quantity], takes
    exactly the filled quantity off the remaining one and adds it to
    the filled one, keeps [0 <= remaining <= initial] and every other
    member, and makes the order filled exactly when the fill was for
    all that remained. *)
Theorem Fill_accounts (quantity : Quantity) (o : Order.t) :
  0 <= quantity ->
  0 <= Order.GetRemainingQuantity o <= Order.GetInitialQuantity o ->
  Order.GetInitialQuantity o < Quantity_modulus ->
  (quantity > Order.GetRemainingQuantity o -> Order.Fill quantity o = Fault LogicError)
  /\ (quantity <= Order.GetRemainingQuantity o ->
      exists o',
        Order.Fill quantity o = Done o'
        /\ Order.GetRemainingQuantity o' = Order.GetRemainingQuantity o - quantity
        /\ Order.GetFilledQuantity o' = Order.GetFilledQuantity o + quantity
        /\ 0 <= Order.GetRemainingQuantity o' <= Order.GetInitialQuantity o'
        /\ Order.GetInitialQuantity o' = Order.GetInitialQuantity o
        /\ Order.GetOrderId o' = Order.GetOrderId o
        /\ Order.GetOrderType o' = Order.GetOrderType o
        /\ Order.GetSide o' = Order.GetSide o
        /\ Order.GetPrice o' = Order.GetPrice o
        /\ (Order.IsFilled o' = true <-> quantity = Order.GetRemainingQuantity o)).
Proof.
  intros Hq Hr Hi. split.
  - intros Hgt. unfold Order.Fill. by rewrite bool_decide_eq_true_2.
  - intros Hle. rewrite Fill_le by done. eexists. split; [reflexivity |].
    unfold Order.GetRemainingQuantity, Order.GetFilledQuantity,
      Order.GetInitialQuantity, Order.IsFilled in *. simpl.
    unfold Order.GetRemainingQuantity, Order.GetInitialQuantity. simpl.
    rewrite !wrapQ_small by lia.
    repeat split; try done; try lia.
    + intros H%bool_decide_eq_true. lia.
    + intros ->. apply bool_decide_eq_true. lia.
Qed.

Lemma Fill_accounts_witness :
  (11 > 10 -> Order.Fill 11 (Order.mk GoodTillCancel 1 Buy 100 10 10) = Fault LogicError)
  /\ (4 <= 10 ->
      exists o',
        Order.Fill 4 (Order.mk GoodTillCancel 1 Buy 100 10 10) = Done o'
        /\ Order.GetRemainingQuantity o' = 10 - 4
        /\ Order.GetFilledQuantity o'
           = Order.GetFilledQuantity (Order.mk GoodTillCancel 1 Buy 100 10 10) + 4
        /\ 0 <= Order.GetRemainingQuantity o' <= Order.GetInitialQuantity o'
        /\ Order.GetInitialQuantity o' = 10
        /\ Order.GetOrderId o' = 1
        /\ Order.GetOrderType o' = GoodTillCancel
        /\ Order.GetSide o' = Buy
        /\ Order.GetPrice o' = 100
        /\ (Order.IsFilled o' = true <-> 4 = 10)).
Proof.
  split.
  - apply (Fill_accounts 11 (Order.mk GoodTillCancel 1 Buy 100 10 10));
      unfold Quantity_modulus; simpl; lia.
  - apply (Fill_accounts 4 (Order.mk GoodTillCancel 1 Buy 100 10 10));
      unfold Quantity_modulus; simpl; lia.
Defined.

Lemma ctor_fills_pool_witness :
  let r := ObjectPool.ctor 3 (Heap.empty : Heap.t Order.t) in
  length (ObjectPool.pool_ r.1) = 3%nat
  /\ NoDup (ObjectPool.pool_ r.1)
  /\ forall p, p ∈ ObjectPool.pool_ r.1 -> Heap.read Order.zero p r.2 = Some Order.zero.
Proof.
  destruct (ctor_fills_pool Order.zero 3 Heap.empty) as (Hl & Hn & _ & Hz & _).
  split; [exact Hl |]. split; [exact Hn | exact Hz].
Defined.

(** ** Ordered maps *)

Section PriceMap_facts.
Variable before : Price -> Price -> bool.
Hypothesis before_asym : forall a b, before a b = true -> before b a = false.
Hypothesis before_total : forall a b, before a b = false -> a <> b -> before b a = true.
Hypothesis before_trans :
  forall a b c, before a b = true -> before b c = true -> before a c = true.

Lemma before_irrefl a : before a a = false.
Proof. destruct (before a a) eqn:H; [| done]. by rewrite (before_asym _ _ H) in H. Qed.

Lemma at_update_eq price f (m : PriceMap.t) :
  PriceMap.at_ price (PriceMap.update price f m) = f <$> PriceMap.at_ price m.
Proof.
  induction m as [| [k l] rest IH]; simpl; [done |].
  case_bool_decide as Hk; simpl.
  - by rewrite bool_decide_eq_true_2.
  - by rewrite bool_decide_eq_false_2.
Qed.

Lemma at_update_ne price p f (m : PriceMap.t) :
  p <> price -> PriceMap.at_ p (PriceMap.update price f m) = PriceMap.at_ p m.
Proof.
  intros Hne. induction m as [| [k l] rest IH]; simpl; [done |].
  case_bool_decide as Hk; simpl.
  - subst k. rewrite !bool_decide_eq_false_2 by done. done.
  - case_bool_decide; done.
Qed.

Lemma at_subscript_ne price p (m : PriceMap.t) :
  p <> price -> PriceMap.at_ p (PriceMap.subscript before price m) = PriceMap.at_ p m.
Proof.
  intros Hne. induction m as [| [k l] rest IH]; simpl.
  - by rewrite bool_decide_eq_false_2.
  - case_bool_decide as Hk; simpl; [done |].
    destruct (before price k); simpl.
    + by rewrite bool_decide_eq_false_2.
    + case_bool_decide; done.
Qed.

Lemma at_not_key price (m : PriceMap.t) :
  price ∉ m.*1 -> PriceMap.at_ price m = None.
Proof.
  induction m as [| [k l] rest IH]; simpl; [done |].
  rewrite not_elem_of_cons. intros [Hk Hr].
  rewrite bool_decide_eq_false_2 by done. by apply IH.
Qed.

Lemma at_subscript price (m : PriceMap.t) :
  Inv.sorted_keys before m.*1 ->
  PriceMap.at_ price (PriceMap.subscript before price m)
  = Some (default [] (PriceMap.at_ price m)).
Proof.
  induction m as [| [k l] rest IH]; simpl.
  - intros _. by rewrite bool_decide_eq_true_2.
  - intros [Hall Hs]. case_bool_decide as Hk; simpl.
    + by rewrite bool_decide_eq_true_2.
    + destruct (before price k) eqn:Hb; simpl.
      * rewrite bool_decide_eq_true_2 by done.
        rewrite at_not_key; [done |].
        intros Hin. rewrite Forall_forall in Hall. specialize (Hall _ Hin).
        rewrite (before_asym _ _ Hall) in Hb. done.
      * rewrite bool_decide_eq_false_2 by done. by apply IH.
Qed.

Lemma subscript_keys_incl price (m : PriceMap.t) k :
  k ∈ (PriceMap.subscript before price m).*1 -> k = price \/ k ∈ m.*1.
Proof.
  induction m as [| [k0 l] rest IH]; simpl.
  - rewrite list_elem_of_singleton. by left.
  - case_bool_decide as Hk; simpl; [by right |].
    destruct (before price k0); simpl.
    + rewrite elem_of_cons. intros [-> | H]; [by left | by right].
    + rewrite !elem_of_cons. intros [-> | H]; [right; by left |].
      destruct (IH H) as [-> | ?]; [by left | right; by right].
Qed.

Lemma sorted_subscript price (m : PriceMap.t) :
  Inv.sorted_keys before m.*1 ->
  Inv.sorted_keys before (PriceMap.subscript before price m).*1.
Proof.
  induction m as [| [k l] rest IH]; simpl; [done |].
  intros [Hall Hs]. case_bool_decide as Hk; simpl; [done |].
  destruct (before price k) eqn:Hb; simpl.
  - split; [| done]. constructor; [done |].
    rewrite Forall_forall in Hall |- *. intros k' Hin.
    apply (before_trans _ k); [done | by apply Hall].
  - split; [| by apply IH].
    rewrite Forall_forall in Hall |- *. intros k' Hin.
    destruct (subscript_keys_incl _ _ _ Hin) as [-> | ?]; [| by apply Hall].
    by apply before_total.
Qed.

End PriceMap_facts.

Lemma greater_asym a b : PriceMap.greater a b = true -> PriceMap.greater b a = false.
Proof.
  unfold PriceMap.greater. intros H%bool_decide_eq_true.
  apply bool_decide_eq_false. lia.
Qed.

Lemma greater_total a b :
  PriceMap.greater a b = false -> a <> b -> PriceMap.greater b a = true.
Proof.
  unfold PriceMap.greater. intros H%bool_decide_eq_false ?.
  apply bool_decide_eq_true. lia.
Qed.

Lemma greater_trans a b c :
  PriceMap.greater a b = true -> PriceMap.greater b c = true ->
  PriceMap.greater a c = true.
Proof.
  unfold PriceMap.greater. intros H1%bool_decide_eq_true H2%bool_decide_eq_true.
  apply bool_decide_eq_true. lia.
Qed.

Lemma less_asym a b : PriceMap.less a b = true -> PriceMap.less b a = false.
Proof.
  unfold PriceMap.less. intros H%bool_decide_eq_true.
  apply bool_decide_eq_false. lia.
Qed.

Lemma less_total a b :
  PriceMap.less a b = false -> a <> b -> PriceMap.less b a = true.
Proof.
  unfold PriceMap.less. intros H%bool_decide_eq_false ?.
  apply bool_decide_eq_true. lia.
Qed.

Lemma less_trans a b c :
  PriceMap.less a b = true -> PriceMap.less b c = true -> PriceMap.less a c = true.
Proof.
  unfold PriceMap.less. intros H1%bool_decide_eq_true H2%bool_decide_eq_true.
  apply bool_decide_eq_true. lia.
Qed.

(** ** Placing an order *)

Lemma orders_UpdateLevelData price quantity action b :
  Book.orders_ (Book.UpdateLevelData price quantity action b) = Book.orders_ b.
Proof. unfold Book.UpdateLevelData. by case_bool_decide. Qed.

Lemma pool_UpdateLevelData price quantity action b :
  Book.orderPool_ (Book.UpdateLevelData price quantity action b) = Book.orderPool_ b.
Proof. unfold Book.UpdateLevelData. by case_bool_decide. Qed.

(** The book with [order] put on its side, as the last statements of
    [HandleAddOrder] before [MatchOrders] leave it. *)
Lemma place_limit order b o :
  Book.deref order b = Done o ->
  Order.GetOrderType o = GoodTillCancel ->
  Book.orders_ b !! Order.GetOrderId o = None ->
  Book.HandleAddOrder_place order b
  = Done (true,
          Book.UpdateLevelData (Order.GetPrice o) (Order.GetInitialQuantity o)
            LevelData.Add
            (Book.set_orders (<[Order.GetOrderId o := order]> (Book.orders_ b))
               (if bool_decide (Order.GetSide o = Buy) then
                  Book.set_bids
                    (PriceMap.update (Order.GetPrice o) (fun orders => orders ++ [order])
                       (PriceMap.subscript PriceMap.greater (Order.GetPrice o)
                          (Book.bids_ b))) b
                else
                  Book.set_asks
                    (PriceMap.update (Order.GetPrice o) (fun orders => orders ++ [order])
                       (PriceMap.subscript PriceMap.less (Order.GetPrice o)
                          (Book.asks_ b))) b))).
Proof.
  intros Hd Hty Hnew.
  unfold Book.HandleAddOrder_place, Book.bind_Market, Book.OnOrderAdded.
  rewrite Hd. simpl. rewrite Hnew.
  rewrite (bool_decide_eq_false_2 (is_Some None)) by (by intros [? ?]).
  rewrite Hty. simpl. rewrite Hd. simpl. rewrite Hty. simpl.
  assert (Hd' : forall b1, Book.heap b1 = Book.heap b -> Book.deref order b1 = Done o).
  { intros b1 Hh. by rewrite (deref_heap _ _ _ Hh). }
  destruct (bool_decide (Order.GetSide o = Buy)); simpl;
    rewrite Hd' by done; done.
Qed.

(** What the placement of a limit order does to the book. *)
Lemma place_limit_facts order b o b' :
  Book.deref order b = Done o ->
  Order.GetOrderType o = GoodTillCancel ->
  Book.orders_ b !! Order.GetOrderId o = None ->
  Inv.sorted b ->
  Book.HandleAddOrder_place order b = Done (true, b') ->
  PriceMap.at_ (Order.GetPrice o) (Inv.own (Order.GetSide o) b')
  = Some (default [] (PriceMap.at_ (Order.GetPrice o)
                        (Inv.own (Order.GetSide o) b)) ++ [order])
  /\ (forall p, p <> Order.GetPrice o ->
        PriceMap.at_ p (Inv.own (Order.GetSide o) b')
        = PriceMap.at_ p (Inv.own (Order.GetSide o) b))
  /\ Inv.opposite (Order.GetSide o) b' = Inv.opposite (Order.GetSide o) b
  /\ Book.orders_ b' = <[Order.GetOrderId o := order]> (Book.orders_ b)
  /\ Book.Size b' = S (Book.Size b)
  /\ Book.heap b' = Book.heap b
  /\ Book.orderPool_ b' = Book.orderPool_ b
  /\ Inv.sorted b'.
Proof.
  intros Hd Hty Hnew [Hsb Hsa] Hp.
  rewrite (place_limit order b o Hd Hty Hnew) in Hp.
  injection Hp as <-.
  unfold Inv.own, Inv.opposite, Inv.sorted, Book.Size.
  rewrite bids_UpdateLevelData, asks_UpdateLevelData, orders_UpdateLevelData,
    heap_UpdateLevelData, pool_UpdateLevelData.
  destruct (Order.GetSide o); simpl.
  - rewrite at_update_eq,
      (at_subscript _ greater_asym) by done. simpl.
    split; [done |]. split.
    { intros p Hp. rewrite at_update_ne, at_subscript_ne by done. done. }
    split; [done |]. split; [done |].
    split; [by apply map_size_insert_None |].
    split; [done |]. split; [done |]. split; [| done].
    rewrite update_keys.
    by apply (sorted_subscript _ greater_total greater_trans).
  - rewrite at_update_eq,
      (at_subscript _ less_asym) by done. simpl.
    split; [done |]. split.
    { intros p Hp. rewrite at_update_ne, at_subscript_ne by done. done. }
    split; [done |]. split; [done |].
    split; [by apply map_size_insert_None |].
    split; [done |]. split; [done |]. split; [done |].
    rewrite update_keys.
    by apply (sorted_subscript _ less_total less_trans).
Qed.

(** X6. A GoodTillCancel order whose id is not on the book is appended
    at the tail of the list of its price on its side, which is created
    empty first when the price is new; every other level and the other
    side are left alone, the order is indexed under its id, and both
    maps stay in the order of their comparators. *)
Theorem placement_appends_at_tail order b o :
  Book.deref order b = Done o ->
  Order.GetOrderType o = GoodTillCancel ->
  Book.orders_ b !! Order.GetOrderId o = None ->
  Inv.sorted b ->
  exists b',
    Book.HandleAddOrder_place order b = Done (true, b')
    /\ PriceMap.at_ (Order.GetPrice o) (Inv.own (Order.GetSide o) b')
       = Some (default [] (PriceMap.at_ (Order.GetPrice o)
                             (Inv.own (Order.GetSide o) b)) ++ [order])
    /\ (forall p, p <> Order.GetPrice o ->
          PriceMap.at_ p (Inv.own (Order.GetSide o) b')
          = PriceMap.at_ p (Inv.own (Order.GetSide o) b))
    /\ Inv.opposite (Order.GetSide o) b' = Inv.opposite (Order.GetSide o) b
    /\ Book.orders_ b' = <[Order.GetOrderId o := order]> (Book.orders_ b)
    /\ Book.Size b' = S (Book.Size b)
    /\ Book.heap b' = Book.heap b
    /\ Book.orderPool_ b' = Book.orderPool_ b
    /\ Inv.sorted b'.
Proof.
  intros Hd Hty Hnew Hs.
  pose proof (place_limit order b o Hd Hty Hnew) as Hp.
  eexists. split; [exact Hp |].
  exact (place_limit_facts order b o _ Hd Hty Hnew Hs Hp).
Qed.

Lemma placement_appends_at_tail_witness :
  exists b',
    Book.HandleAddOrder_place Example.limit_buy.1 Example.limit_buy.2
    = Done (true, b')
    /\ PriceMap.at_ 101 (Book.bids_ b') = Some [Example.limit_buy.1]
    /\ Book.asks_ b' = Book.asks_ Example.limit_buy.2
    /\ Book.Size b' = 3%nat.
Proof.
  destruct (placement_appends_at_tail Example.limit_buy.1 Example.limit_buy.2
              (Order.mk GoodTillCancel 3 Buy 101 7 7))
    as (b' & Hp & Hat & _ & Hopp & _ & Hsize & _).
  - by vm_compute.
  - reflexivity.
  - by vm_compute.
  - vm_compute. repeat constructor.
  - exists b'. split; [exact Hp |]. split; [exact Hat |].
    split; [exact Hopp | exact Hsize].
Defined.

Lemma last_Some_not_nil {A : Type} (l : list A) x : last l = Some x -> l <> [].
Proof. by destruct l. Qed.

(** The three ways through the Market branch of [HandleAddOrder]. *)
Lemma bind_Market_limit order b o :
  Book.deref order b = Done o ->
  Order.GetOrderType o <> Market ->
  Book.bind_Market order b = Done (Some b).
Proof.
  intros Hd Hty. unfold Book.bind_Market. rewrite Hd. simpl.
  by rewrite bool_decide_eq_false_2.
Qed.

Lemma bind_Market_empty order b o :
  Book.deref order b = Done o ->
  Order.GetOrderType o = Market ->
  Inv.opposite (Order.GetSide o) b = [] ->
  Book.bind_Market order b = Done None.
Proof.
  intros Hd Hty He. unfold Book.bind_Market. rewrite Hd. simpl.
  rewrite Hty. simpl. unfold Inv.opposite in He.
  destruct (Order.GetSide o) eqn:Hside; rewrite He; simpl; done.
Qed.

Lemma bind_Market_worst order b o worst l :
  Book.deref order b = Done o ->
  Order.GetOrderType o = Market ->
  PriceMap.rbegin (Inv.opposite (Order.GetSide o) b) = Some (worst, l) ->
  Book.bind_Market order b
  = Done (Some (Book.store order
                  (Order.mk GoodTillCancel (Order.GetOrderId o) (Order.GetSide o)
                     worst (Order.GetInitialQuantity o)
                     (Order.GetRemainingQuantity o)) b)).
Proof.
  intros Hd Hty Hlast. unfold Book.bind_Market. rewrite Hd. simpl.
  rewrite Hty. simpl. unfold Order.ToGoodTillCancel. rewrite Hty. simpl.
  pose proof (last_Some_not_nil _ _ Hlast) as Hne.
  unfold Inv.opposite in Hlast, Hne.
  destruct (Order.GetSide o) eqn:Hside; simpl;
    rewrite bool_decide_eq_false_2 by done; simpl; rewrite Hlast; simpl;
    by rewrite <- Hside.
Qed.

(** After the Market branch the function goes on as for the rewritten
    order. *)
Lemma place_Market order b o worst l :
  Book.deref order b = Done o ->
  Order.GetOrderType o = Market ->
  Book.orders_ b !! Order.GetOrderId o = None ->
  PriceMap.rbegin (Inv.opposite (Order.GetSide o) b) = Some (worst, l) ->
  Book.HandleAddOrder_place order b
  = Book.HandleAddOrder_place order
      (Book.store order
         (Order.mk GoodTillCancel (Order.GetOrderId o) (Order.GetSide o) worst
            (Order.GetInitialQuantity o) (Order.GetRemainingQuantity o)) b).
Proof.
  intros Hd Hty Hnew Hlast.
  pose proof (bind_Market_worst order b o worst l Hd Hty Hlast) as HbL.
  revert HbL.
  set (o' := Order.mk GoodTillCancel (Order.GetOrderId o) (Order.GetSide o) worst
               (Order.GetInitialQuantity o) (Order.GetRemainingQuantity o)).
  set (b1 := Book.store order o' b). intros HbL.
  assert (Hd1 : Book.deref order b1 = Done o')
    by (by apply (deref_store_eq _ _ o)).
  assert (HbR : Book.bind_Market order b1 = Done (Some b1))
    by (by apply (bind_Market_limit order b1 o')).
  assert (Ho : Book.orders_ b1 = Book.orders_ b) by done.
  assert (Hid : Order.GetOrderId o' = Order.GetOrderId o) by done.
  clearbody b1 o'.
  unfold Book.HandleAddOrder_place. rewrite Hd, Hd1. simpl.
  rewrite Ho, Hid, Hnew, HbL, HbR.
  rewrite (bool_decide_eq_false_2 (is_Some None)) by (by intros [? ?]).
  done.
Qed.

(** X7. A Market order whose id is not on the book, met by a non-empty
    opposite side, becomes a GoodTillCancel order at the key of the last
    entry of that side (the highest ask for a buy, the lowest bid for a
    sell) and is appended at the tail of that price on its own side; its
    id, side and quantities are kept. *)
Theorem Market_order_takes_worst_price order b o worst l :
  Book.deref order b = Done o ->
  Order.GetOrderType o = Market ->
  Book.orders_ b !! Order.GetOrderId o = None ->
  Inv.sorted b ->
  PriceMap.rbegin (Inv.opposite (Order.GetSide o) b) = Some (worst, l) ->
  exists b',
    Book.HandleAddOrder_place order b = Done (true, b')
    /\ Book.deref order b'
       = Done (Order.mk GoodTillCancel (Order.GetOrderId o) (Order.GetSide o)
                 worst (Order.GetInitialQuantity o)
                 (Order.GetRemainingQuantity o))
    /\ PriceMap.at_ worst (Inv.own (Order.GetSide o) b')
       = Some (default [] (PriceMap.at_ worst (Inv.own (Order.GetSide o) b))
               ++ [order])
    /\ Inv.opposite (Order.GetSide o) b' = Inv.opposite (Order.GetSide o) b
    /\ Book.orders_ b' !! Order.GetOrderId o = Some order.
Proof.
  intros Hd Hty Hnew Hs Hlast.
  rewrite (place_Market order b o worst l Hd Hty Hnew Hlast).
  set (o' := Order.mk GoodTillCancel (Order.GetOrderId o) (Order.GetSide o) worst
               (Order.GetInitialQuantity o) (Order.GetRemainingQuantity o)).
  set (b1 := Book.store order o' b).
  assert (Hd1 : Book.deref order b1 = Done o')
    by (by apply (deref_store_eq _ _ o)).
  assert (Hs1 : Inv.sorted b1) by done.
  assert (Hnew1 : Book.orders_ b1 !! Order.GetOrderId o' = None) by done.
  pose proof (place_limit order b1 o' Hd1 eq_refl Hnew1) as Hp.
  eexists. split; [exact Hp |].
  destruct (place_limit_facts order b1 o' _ Hd1 eq_refl Hnew1 Hs1 Hp)
    as (Hat & _ & Hopp & Hord & _ & Hheap & _).
  split; [by rewrite (deref_heap order b1 _ Hheap) |].
  split; [exact Hat |]. split; [exact Hopp |].
  rewrite Hord. apply lookup_insert_eq.
Qed.

Lemma Market_order_takes_worst_price_witness :
  exists b',
    Book.HandleAddOrder_place Example.market_buy.1 Example.market_buy.2
    = Done (true, b')
    /\ Book.deref Example.market_buy.1 b'
       = Done (Order.mk GoodTillCancel 3 Buy 105 7 7)
    /\ PriceMap.at_ 105 (Book.bids_ b') = Some [Example.market_buy.1].
Proof.
  destruct (Market_order_takes_worst_price Example.market_buy.1
              Example.market_buy.2 (Order.mk Market 3 Buy 0 7 7) 105 [2%N])
    as (b' & Hp & Hd & Hat & _).
  - by vm_compute.
  - reflexivity.
  - by vm_compute.
  - vm_compute. repeat constructor.
  - by vm_compute.
  - exists b'. split; [exact Hp |]. split; [exact Hd | exact Hat].
Defined.

(** ** Early returns and the trades handed back *)

Lemma place_resident order b o :
  Book.deref order b = Done o ->
  is_Some (Book.orders_ b !! Order.GetOrderId o) ->
  Book.HandleAddOrder_place order b = Done (false, b).
Proof.
  intros Hd Hin. unfold Book.HandleAddOrder_place. rewrite Hd. simpl.
  by rewrite bool_decide_eq_true_2.
Qed.

Lemma CanFullyFill_false side price quantity b :
  Book.CanFullyFill side price quantity b = Done false.
Proof. unfold Book.CanFullyFill. by rewrite CanMatch_false. Qed.

Lemma place_dropped order b o :
  Book.deref order b = Done o ->
  Order.GetOrderType o = FillAndKill \/ Order.GetOrderType o = FillOrKill
  \/ (Order.GetOrderType o = Market /\ Inv.opposite (Order.GetSide o) b = []) ->
  Book.HandleAddOrder_place order b = Done (false, b).
Proof.
  intros Hd Hcase. unfold Book.HandleAddOrder_place. rewrite Hd. simpl.
  case_bool_decide; [done |].
  destruct Hcase as [Hty | [Hty | [Hty He]]].
  - rewrite (bind_Market_limit order b o Hd) by (by rewrite Hty). simpl.
    rewrite Hd. simpl. by rewrite Hty, CanMatch_false.
  - rewrite (bind_Market_limit order b o Hd) by (by rewrite Hty). simpl.
    rewrite Hd. simpl. by rewrite Hty, CanFullyFill_false.
  - by rewrite (bind_Market_empty order b o Hd Hty He).
Qed.

(** X8. [HandleAddOrder] leaves through an early [return { }], with no
    trade and the book as it was (the order's slot is not given back to
    the pool), when the order's id is on the book already, when the
    order is FillAndKill or FillOrKill, and when it is a Market order
    that finds the opposite side empty. *)
Theorem early_return_keeps_book fuel order b o :
  Book.deref order b = Done o ->
  is_Some (Book.orders_ b !! Order.GetOrderId o)
  \/ Order.GetOrderType o = FillAndKill
  \/ Order.GetOrderType o = FillOrKill
  \/ (Order.GetOrderType o = Market /\ Inv.opposite (Order.GetSide o) b = []) ->
  Book.HandleAddOrder fuel order b = Done ([], b).
Proof.
  intros Hd [Hin | Hcase]; unfold Book.HandleAddOrder.
  - by rewrite (place_resident order b o Hd Hin).
  - by rewrite (place_dropped order b o Hd Hcase).
Qed.

Lemma crossed_dec b : Book.crossed b \/ ~ Book.crossed b.
Proof.
  unfold Book.crossed.
  destruct (Book.bids_ b).*1 as [| bidPrice ?]; [right; tauto |].
  destruct (Book.asks_ b).*1 as [| askPrice ?]; [right; tauto |].
  destruct (decide (bidPrice < askPrice)); [right | left]; tauto.
Qed.

Lemma MatchOrders_Done fuel b trades b' :
  Book.MatchOrders fuel b = Done (trades, b') -> trades = [] /\ ~ Book.crossed b.
Proof.
  intros H.
  destruct (crossed_dec b) as [Hc | Hc].
  { by destruct (MatchOrders_crossed fuel b (trades, b') Hc). }
  split; [| done]. revert H. unfold Book.MatchOrders.
  rewrite (MatchOrders_loop_not_crossed fuel [] b Hc). simpl.
  destruct (Book.cancel_FillAndKill_front (Book.bids_ b) b) as [b1 | |];
    simpl; [| done | done].
  destruct (Book.cancel_FillAndKill_front (Book.asks_ b1) b1) as [b2 | |];
    simpl; [| done | done].
  by intros [= <- _].
Qed.

Lemma HandleAddOrder_Done fuel order b trades b' :
  Book.HandleAddOrder fuel order b = Done (trades, b') -> trades = [].
Proof.
  unfold Book.HandleAddOrder.
  destruct (Book.HandleAddOrder_place order b) as [[placed b1] | |];
    simpl; [| done | done].
  destruct placed.
  - intros H. by destruct (MatchOrders_Done fuel b1 trades b' H).
  - by intros [= <- _].
Qed.

(** X9. No handler ever hands a trade back: whenever [MatchOrders],
    [HandleAddOrder] or [HandleModifyOrder] return, the list of trades
    is empty, and [MatchOrders] returns only on a book whose first
    levels do not cross. *)
Theorem handlers_return_no_trade fuel b trades b' :
  (Book.MatchOrders fuel b = Done (trades, b') ->
   trades = [] /\ ~ Book.crossed b)
  /\ (forall order,
        Book.HandleAddOrder fuel order b = Done (trades, b') -> trades = [])
  /\ (forall order,
        Book.HandleModifyOrder fuel order b = Done (trades, b') -> trades = []).
Proof.
  split; [apply MatchOrders_Done |]. split.
  - intros order. apply HandleAddOrder_Done.
  - intros order. unfold Book.HandleModifyOrder.
    destruct (Book.orders_ b !! OrderModify.GetOrderId order) as [existing |];
      [| by intros [= <- _]].
    destruct (Book.deref existing b) as [o | |]; simpl; [| done | done].
    destruct (Book.CancelOrderInternal (OrderModify.GetOrderId order) b)
      as [b1 | |]; simpl; [| done | done].
    destruct (Book.AcquireOrder _ _ _ _ _ b1) as [[newOrder b2] | |];
      simpl; [| done | done].
    apply HandleAddOrder_Done.
Qed.

Lemma early_return_keeps_book_witness :
  Book.HandleAddOrder 1 Example.fok_buy.1 Example.fok_buy.2
  = Done ([], Example.fok_buy.2).
Proof.
  apply (early_return_keeps_book 1 Example.fok_buy.1 Example.fok_buy.2
           (Order.mk FillOrKill 3 Buy 105 5 5)).
  - by vm_compute.
  - right. right. left. reflexivity.
Defined.

Lemma handlers_return_no_trade_witness :
  ([] : Trades) = [] /\ ~ Book.crossed Example.two_sided.
Proof.
  apply (proj1 (handlers_return_no_trade 1 Example.two_sided []
                  Example.two_sided)).
  by vm_compute.
Defined.

(** ** Cancelling *)





(** X11. The edges of a cancel: an id that is not on the book is
    ignored, and an id whose order names a price that has no entry on
    its side stops in the [out_of_range] of [std::map::at]. *)
Theorem cancel_edge_cases orderId b :
  (Book.orders_ b !! orderId = None ->
   Book.CancelOrderInternal orderId b = Done b
   /\ forall orderIds, Forall (fun i => Book.orders_ b !! i = None) orderIds ->
        Book.CancelOrders orderIds b = Done b)
  /\ (forall order o,
        Book.orders_ b !! orderId = Some order ->
        Book.deref order b = Done o ->
        PriceMap.at_ (Order.GetPrice o) (Inv.own (Order.GetSide o) b) = None ->
        Book.CancelOrderInternal orderId b = Fault OutOfRange).
Proof.
  split.
  - intros Hnone. split; [unfold Book.CancelOrderInternal; by rewrite Hnone |].
    induction 1 as [| i ids Hi _ IH]; simpl; [done |].
    unfold Book.CancelOrderInternal at 1. by rewrite Hi.
  - intros order o Hin Hd Hat. unfold Book.CancelOrderInternal. rewrite Hin.
    rewrite (deref_heap order b) by done. rewrite Hd. simpl.
    unfold Inv.own in Hat. destruct (Order.GetSide o); simpl; by rewrite Hat.
Qed.


Lemma cancel_edge_cases_witness :
  Book.CancelOrderInternal 7 Example.two_sided = Done Example.two_sided
  /\ Book.CancelOrderInternal 1 (Book.set_bids [] Example.two_sided)
     = Fault OutOfRange.
Proof.
  split.
  - apply (proj1 (cancel_edge_cases 7 Example.two_sided)). by vm_compute.
  - apply (proj2 (cancel_edge_cases 1 (Book.set_bids [] Example.two_sided))
             3%N (Order.mk GoodTillCancel 1 Buy 100 10 10)); by vm_compute.
Defined.

(** ** Level data *)

Lemma wrapQ_range z : 0 <= wrapQ z < Quantity_modulus.
Proof. unfold wrapQ, Quantity_modulus. apply Z.mod_pos_bound. lia. Qed.

Lemma wrapQ_add_sub a q :
  0 <= a < Quantity_modulus -> wrapQ (wrapQ (a + q) - q) = a.
Proof.
  intros Ha. unfold wrapQ. rewrite Zminus_mod_idemp_l.
  replace (a + q - q) with a by lia. by apply Z.mod_small.
Qed.

(** X12. [UpdateLevelData] keeps no entry whose count is zero; a
    Remove undoes the Add of the same quantity at the same price,
    whether the Add created the entry or found one with a count that
    can still grow; and a Remove at a price that has no entry leaves
    one whose count has wrapped to 4294967295. *)
Theorem level_data_add_remove price quantity b :
  0 <= quantity < Quantity_modulus ->
  (forall d, Book.data_ b !! price = Some d ->
             0 <= LevelData.quantity_ d < Quantity_modulus
             /\ 0 < LevelData.count_ d < Quantity_modulus - 1) ->
  Book.data_ (Book.UpdateLevelData price quantity LevelData.Remove
                (Book.UpdateLevelData price quantity LevelData.Add b))
  = Book.data_ b
  /\ (forall action d,
        Book.data_ (Book.UpdateLevelData price quantity action b) !! price = Some d ->
        LevelData.count_ d <> 0)
  /\ (Book.data_ b !! price = None ->
      Book.data_ (Book.UpdateLevelData price quantity LevelData.Remove b) !! price
      = Some (LevelData.mk (wrapQ (- quantity)) 4294967295)).
Proof.
  intros Hq Hwf. split; [| split].
  - unfold Book.UpdateLevelData at 2.
    destruct (Book.data_ b !! price) as [[Q c] |] eqn:Hd; simpl.
    + destruct (Hwf _ eq_refl) as [HQ Hc]. simpl in HQ, Hc.
      rewrite (wrapQ_small (c + 1)) by lia.
      rewrite (bool_decide_eq_false_2 (c + 1 = 0)) by lia.
      unfold Book.UpdateLevelData. simpl. rewrite lookup_insert_eq. simpl.
      replace (c + 1 + -1) with c by lia. rewrite (wrapQ_small c) by lia.
      rewrite (bool_decide_eq_false_2 (c = 0)) by lia. simpl.
      rewrite wrapQ_add_sub by done. rewrite insert_insert_eq.
      by apply insert_id.
    + unfold Book.UpdateLevelData. simpl. rewrite lookup_insert_eq. simpl.
      rewrite delete_insert_eq. by apply delete_id.
  - intros action d. unfold Book.UpdateLevelData.
    case_bool_decide as Hz; simpl.
    + by rewrite lookup_delete_eq.
    + rewrite lookup_insert_eq. by intros [= <-].
  - intros Hnone. unfold Book.UpdateLevelData. rewrite Hnone. simpl.
    by rewrite lookup_insert_eq.
Qed.

Lemma level_data_add_remove_witness :
  let b := Book.mk Heap.empty {[ 100 := LevelData.mk 10 1 ]} [] [] ∅ (ObjectPool.mk []) in
  Book.data_ (Book.UpdateLevelData 100 5 LevelData.Remove
                (Book.UpdateLevelData 100 5 LevelData.Add b))
  = Book.data_ b
  /\ (forall action d,
        Book.data_ (Book.UpdateLevelData 100 5 action b) !! 100 = Some d ->
        LevelData.count_ d <> 0)
  /\ (Book.data_ b !! 100 = None ->
      Book.data_ (Book.UpdateLevelData 100 5 LevelData.Remove b) !! 100
      = Some (LevelData.mk (wrapQ (- 5)) 4294967295)).
Proof.
  apply (level_data_add_remove 100 5).
  - unfold Quantity_modulus. lia.
  - intros d. simpl. rewrite lookup_singleton_eq. intros [= <-]. simpl.
    unfold Quantity_modulus. lia.
Defined.

(** ** The inner loop of [MatchOrders] *)

Lemma deref_read order b o :
  Book.deref order b = Done o <-> Heap.read Order.zero order (Book.heap b) = Some o.
Proof.
  unfold Book.deref. destruct (Heap.read Order.zero order (Book.heap b)); simpl.
  - split; by intros [= ->].
  - split; done.
Qed.

Lemma nonneg_read b p o :
  Inv.nonneg b -> Heap.read Order.zero p (Book.heap b) = Some o ->
  0 <= Order.GetRemainingQuantity o.
Proof.
  unfold Inv.nonneg, Heap.read. intros Hnn. case_bool_decide; [| done].
  destruct (Heap.cells (Book.heap b) !! p) as [o' |] eqn:Hc; simpl;
    intros [= <-]; [by apply (Hnn p) | done].
Qed.

Lemma Fill_Done quantity o o' :
  Order.Fill quantity o = Done o' ->
  quantity <= Order.GetRemainingQuantity o
  /\ Order.GetRemainingQuantity o' = wrapQ (Order.GetRemainingQuantity o - quantity).
Proof.
  unfold Order.Fill. case_bool_decide; [done |]. intros [= <-]. simpl.
  split; [lia | done].
Qed.

Lemma Fill_not_OutOfFuel quantity o : Order.Fill quantity o <> OutOfFuel.
Proof. unfold Order.Fill. by case_bool_decide. Qed.

Lemma deref_not_OutOfFuel order b : Book.deref order b <> OutOfFuel.
Proof.
  unfold Book.deref. by destruct (Heap.read Order.zero order (Book.heap b)).
Qed.

Lemma cross_not_OutOfFuel bid ask trades b :
  Book.cross bid ask trades b <> OutOfFuel.
Proof.
  unfold Book.cross.
  destruct (Book.deref bid b) as [ob | |] eqn:H1; simpl; [| done |];
    [| by destruct (deref_not_OutOfFuel bid b)].
  destruct (Book.deref ask b) as [oa | |] eqn:H2; simpl; [| done |];
    [| by destruct (deref_not_OutOfFuel ask b)].
  destruct (Order.Fill _ ob) as [ob' | |] eqn:H3; simpl; [| done |];
    [| by destruct (Fill_not_OutOfFuel _ _ H3)].
  destruct (Book.deref ask (Book.store bid ob' b)) as [oa1 | |] eqn:H4; simpl; [| done |];
    [| by destruct (deref_not_OutOfFuel _ _ H4)].
  destruct (Order.Fill _ oa1) as [oa' | |] eqn:H5; simpl; [| done |];
    [| by destruct (Fill_not_OutOfFuel _ _ H5)].
  destruct (Book.deref bid (Book.store ask oa' (Book.store bid ob' b))) as [ob2 | |] eqn:H6; simpl; [| done |];
    [| by destruct (deref_not_OutOfFuel _ _ H6)].
  destruct (Book.deref ask (Book.store ask oa' (Book.store bid ob' b))) as [oa2 | |] eqn:H7; simpl; [| done |];
    [| by destruct (deref_not_OutOfFuel _ _ H7)].
  done.
Qed.

(** One pass of the inner loop pops the head of at least one of the
    two lists. *)
Lemma cross_progress bid ask trades b trades' b' bidPrice bids bidLevels
    askPrice asks askLevels :
  Inv.nonneg b ->
  Book.bids_ b = (bidPrice, bid :: bids) :: bidLevels ->
  Book.asks_ b = (askPrice, ask :: asks) :: askLevels ->
  Book.cross bid ask trades b = Done (trades', b') ->
  Inv.nonneg b'
  /\ length trades' = S (length trades)
  /\ ((Inv.front (Book.bids_ b') = bids
       /\ (Inv.front (Book.asks_ b') = asks
           \/ Inv.front (Book.asks_ b') = ask :: asks))
      \/ (Inv.front (Book.bids_ b') = bid :: bids
          /\ Inv.front (Book.asks_ b') = asks)).
Proof.
  intros Hnn Hb Ha. unfold Book.cross.
  destruct (Book.deref bid b) as [ob | |] eqn:H1; simpl; [| done | done].
  destruct (Book.deref ask b) as [oa | |] eqn:H2; simpl; [| done | done].
  destruct (Order.Fill _ ob) as [ob' | |] eqn:H3; simpl; [| done | done].
  destruct (Book.deref ask (Book.store bid ob' b)) as [oa1 | |] eqn:H4; simpl; [| done | done].
  destruct (Order.Fill _ oa1) as [oa' | |] eqn:H5; simpl; [| done | done].
  destruct (Book.deref bid (Book.store ask oa' (Book.store bid ob' b))) as [ob2 | |] eqn:H6; simpl; [| done | done].
  destruct (Book.deref ask (Book.store ask oa' (Book.store bid ob' b))) as [oa2 | |] eqn:H7; simpl; [| done | done].
  apply Fill_Done in H3 as [Hq3 Hr3]. apply Fill_Done in H5 as [Hq5 Hr5].
  assert (Hrb : 0 <= Order.GetRemainingQuantity ob).
  { apply (nonneg_read b bid); [done | by apply deref_read]. }
  assert (Hra : 0 <= Order.GetRemainingQuantity oa).
  { apply (nonneg_read b ask); [done | by apply deref_read]. }
  assert (Hoa2 : oa2 = oa').
  { rewrite (deref_store_eq ask oa' oa1) in H7 by done. by injection H7. }
  assert (Hfilled : Order.IsFilled ob2 = true \/ Order.IsFilled oa2 = true).
  { unfold Order.IsFilled. subst oa2.
    destruct (decide (bid = ask)) as [-> | Hne].
    - right. apply bool_decide_eq_true_2.
      rewrite (deref_store_eq ask ob' ob) in H4 by done. injection H4 as <-.
      rewrite H2 in H1. injection H1 as <-.
      rewrite Hr5, Hr3. rewrite Hr3 in Hq5.
      rewrite Z.min_id in *.
      replace (Order.GetRemainingQuantity oa - Order.GetRemainingQuantity oa)
        with 0 in * by lia.
      change (wrapQ 0) with 0 in *.
      assert (Order.GetRemainingQuantity oa = 0) as -> by lia. done.
    - rewrite (deref_store_ne bid ask) in H4 by done.
      rewrite H2 in H4. injection H4 as <-.
      rewrite (deref_store_ne ask bid) in H6 by done.
      rewrite (deref_store_eq bid ob' ob) in H6 by done. injection H6 as <-.
      rewrite Hr3, Hr5.
      destruct (Z.min_spec (Order.GetRemainingQuantity ob)
                  (Order.GetRemainingQuantity oa)) as [[_ ->] | [_ ->]].
      + left. apply bool_decide_eq_true_2. by rewrite Z.sub_diag.
      + right. apply bool_decide_eq_true_2. by rewrite Z.sub_diag. }
  intros [= <- <-]. split; [| split].
  - unfold Inv.nonneg, Book.OnOrderMatched. rewrite !heap_UpdateLevelData.
    assert (Hh : forall b0 : Book.t,
              Book.heap b0 = Heap.write ask oa' (Heap.write bid ob' (Book.heap b)) ->
              map_Forall (fun _ o => 0 <= Order.GetRemainingQuantity o)
                (Heap.cells (Book.heap b0))).
    { intros b0 ->. simpl.
      apply map_Forall_insert_2; [rewrite Hr5; apply wrapQ_range |].
      apply map_Forall_insert_2; [rewrite Hr3; apply wrapQ_range | done]. }
    apply Hh. by destruct (Order.IsFilled ob2), (Order.IsFilled oa2).
  - rewrite length_app. simpl. lia.
  - unfold Book.OnOrderMatched. rewrite !bids_UpdateLevelData, !asks_UpdateLevelData.
    destruct (Order.IsFilled ob2), (Order.IsFilled oa2); simpl;
      rewrite ?Hb, ?Ha; simpl.
    + left. split; [done | by left].
    + left. split; [done | by right].
    + right. done.
    + by destruct Hfilled.
Qed.

(** X13. The inner loop of [MatchOrders] ends: with remaining
    quantities that are not negative, as many passes as the two first
    lists hold orders are enough, whatever the objects on them; when it
    ends normally one of the two lists is empty and no more trades than
    passes have been added. *)
Theorem inner_loop_terminates n :
  forall trades b,
    Inv.nonneg b ->
    (length (Inv.front (Book.bids_ b)) + length (Inv.front (Book.asks_ b)) <= n)%nat ->
    Book.cross_loop n trades b <> OutOfFuel
    /\ forall trades' b',
         Book.cross_loop n trades b = Done (trades', b') ->
         (Inv.front (Book.bids_ b') = [] \/ Inv.front (Book.asks_ b') = [])
         /\ (length trades <= length trades' <= length trades + n)%nat.
Proof.
  induction n as [| n IH]; intros trades b Hnn Hlen; rewrite cross_loop_unfold.
  - destruct (Book.bids_ b) as [| [bidPrice [| bid bids]] bidLevels] eqn:Hb;
      simpl in *.
    1,2: split; [done | intros ? ? [= <- <-]; rewrite Hb; simpl; split; [by left | lia]].
    destruct (Book.asks_ b) as [| [askPrice [| ask asks]] askLevels] eqn:Ha;
      simpl in *.
    1,2: split; [done | intros ? ? [= <- <-]; rewrite Ha; simpl; split; [by right | lia]].
    lia.
  - destruct (Book.bids_ b) as [| [bidPrice [| bid bids]] bidLevels] eqn:Hb;
      simpl in *.
    1,2: split; [done | intros ? ? [= <- <-]; rewrite Hb; simpl; split; [by left | lia]].
    destruct (Book.asks_ b) as [| [askPrice [| ask asks]] askLevels] eqn:Ha;
      simpl in *.
    1,2: split; [done | intros ? ? [= <- <-]; rewrite Ha; simpl; split; [by right | lia]].
    destruct (Book.cross bid ask trades b) as [[t1 b1] | f |] eqn:Hc; simpl.
    + destruct (cross_progress _ _ _ _ _ _ _ _ _ _ _ _ Hnn Hb Ha Hc)
        as (Hnn1 & Ht1 & Hfront).
      assert (Hlen1 : (length (Inv.front (Book.bids_ b1))
                       + length (Inv.front (Book.asks_ b1)) <= n)%nat).
      { destruct Hfront as [[-> [-> | ->]] | [-> ->]]; simpl; lia. }
      destruct (IH t1 b1 Hnn1 Hlen1) as [Hfuel Hdone].
      split; [done |]. intros trades' b' Hr.
      destruct (Hdone _ _ Hr) as [He Hl]. split; [done | lia].
    + done.
    + by destruct (cross_not_OutOfFuel bid ask trades b).
Qed.

Lemma inner_loop_terminates_witness :
  Book.cross_loop 2 [] Example.crossing <> OutOfFuel.
Proof.
  apply (inner_loop_terminates 2 [] Example.crossing).
  - apply (bool_decide_unpack (Inv.nonneg _)). by vm_compute.
  - vm_compute. lia.
Defined.

(** ** Modifying *)

Lemma OnOrderCancelled_pool order b b' :
  Book.OnOrderCancelled order b = Done b' ->
  Book.heap b' = Book.heap b
  /\ ObjectPool.pool_ (Book.orderPool_ b')
     = order :: ObjectPool.pool_ (Book.orderPool_ b).
Proof.
  unfold Book.OnOrderCancelled.
  destruct (Book.deref order b) as [o | |]; simpl; [| done | done].
  intros [= <-]. unfold Book.Release. simpl.
  by rewrite heap_UpdateLevelData, pool_UpdateLevelData.
Qed.

(** A cancel that finds the id leaves the objects alone and pushes the
    order's slot on the pool. *)
Lemma cancel_Done_pool orderId b order b' :
  Book.orders_ b !! orderId = Some order ->
  Book.CancelOrderInternal orderId b = Done b' ->
  Book.heap b' = Book.heap b
  /\ ObjectPool.pool_ (Book.orderPool_ b')
     = order :: ObjectPool.pool_ (Book.orderPool_ b).
Proof.
  intros Hin. unfold Book.CancelOrderInternal. rewrite Hin.
  destruct (Book.deref order _) as [o | |]; simpl; [| done | done].
  destruct (bool_decide (Order.GetSide o = Sell)).
  - destruct (PriceMap.at_ _ _) as [l |]; simpl; [| done].
    destruct (OrderPointers.erase order l) as [l' |]; simpl; [| done].
    intros H. by apply OnOrderCancelled_pool in H.
  - destruct (PriceMap.at_ _ _) as [l |]; simpl; [| done].
    destruct (OrderPointers.erase order l) as [l' |]; simpl; [| done].
    intros H. by apply OnOrderCancelled_pool in H.
Qed.

(** X14. [HandleModifyOrder] ignores an id that is not on the book.
    For an id that is, it is the cancel followed by [HandleAddOrder] of
    the very object just cancelled: the slot released by the cancel is
    the one [AcquireOrder] hands back, the pool ends as it was, and the
    object is reset to the old order type with the id, side, price and
    quantity of the modification. *)
Theorem modify_is_cancel_then_add fuel order b :
  (Book.orders_ b !! OrderModify.GetOrderId order = None ->
   Book.HandleModifyOrder fuel order b = Done ([], b))
  /\ (forall existingOrder o b1,
        Book.orders_ b !! OrderModify.GetOrderId order = Some existingOrder ->
        Book.deref existingOrder b = Done o ->
        Book.CancelOrderInternal (OrderModify.GetOrderId order) b = Done b1 ->
        Book.HandleModifyOrder fuel order b
        = Book.HandleAddOrder fuel existingOrder
            (Book.store existingOrder
               (Order.mk (Order.GetOrderType o) (OrderModify.GetOrderId order)
                  (OrderModify.GetSide order) (OrderModify.GetPrice order)
                  (OrderModify.GetQuantity order) (OrderModify.GetQuantity order))
               (Book.set_pool (Book.orderPool_ b) b1))).
Proof.
  split.
  - intros Hnone. unfold Book.HandleModifyOrder. by rewrite Hnone.
  - intros existingOrder o b1 Hin Hd Hc.
    destruct (cancel_Done_pool _ _ _ _ Hin Hc) as [Hheap Hpool].
    unfold Book.HandleModifyOrder. rewrite Hin, Hd. simpl. rewrite Hc. simpl.
    unfold Book.AcquireOrder, ObjectPool.Acquire. rewrite Hpool.
    assert (Hd1 : forall b2, Book.heap b2 = Book.heap b1 ->
                             Book.deref existingOrder b2 = Done o).
    { intros b2 Hh. by rewrite (deref_heap _ b), Hd by congruence. }
    rewrite Hd1 by done. simpl.
    do 2 f_equal. unfold Book.store, Order.Reset. simpl.
    destruct b1 as [h d bids asks ords pool]; simpl.
    unfold Book.set_heap, Book.set_pool; simpl. by destruct (Book.orderPool_ b).
Qed.

Lemma modify_is_cancel_then_add_witness :
  Book.HandleModifyOrder 1 (OrderModify.mk 1 Buy 99 8) Example.two_sided
  = Book.HandleAddOrder 1 3%N
      (Book.store 3%N (Order.mk GoodTillCancel 1 Buy 99 8 8)
         (Book.set_pool (Book.orderPool_ Example.two_sided) Example.emptied)).
Proof.
  apply (proj2 (modify_is_cancel_then_add 1 (OrderModify.mk 1 Buy 99 8)
                  Example.two_sided)
           3%N (Order.mk GoodTillCancel 1 Buy 100 10 10) Example.emptied);
    by vm_compute.
Defined.

(** ** The event loop, continued *)

Section Matcher_more.
Variable clock : nat -> Z.

Lemma record_latency_cases req s :
  let s' := Orderbook.record_latency clock req s in
  Orderbook.book s' = Orderbook.book s
  /\ Orderbook.requestQueue_ s' = Orderbook.requestQueue_ s
  /\ Orderbook.shutdown_ s' = Orderbook.shutdown_ s
  /\ Orderbook.riskManager_ s' = Orderbook.riskManager_ s
  /\ Orderbook.ordersProcessed_ s' = Orderbook.ordersProcessed_ s
  /\ Orderbook.journaler_ s' = Orderbook.journaler_ s
  /\ Orderbook.latencies_ s'
     = Orderbook.latencies_ s
       ++ (if bool_decide (0 < Request.timestamp req
                           < clock (Orderbook.ordersProcessed_ s))
           then [clock (Orderbook.ordersProcessed_ s) - Request.timestamp req]
           else []).
Proof.
  unfold Orderbook.record_latency. simpl.
  repeat case_bool_decide; simpl; rewrite ?app_nil_r; repeat split; try done; lia.
Qed.

Lemma process_request_Done fuel req s s' :
  Orderbook.process_request clock fuel req s = Done s' ->
  Orderbook.ordersProcessed_ s' = S (Orderbook.ordersProcessed_ s)
  /\ Orderbook.requestQueue_ s' = Orderbook.requestQueue_ s
  /\ Orderbook.shutdown_ s' = Orderbook.shutdown_ s
  /\ Orderbook.riskManager_ s' = Orderbook.riskManager_ s
  /\ Orderbook.journaler_ s' = Orderbook.journaler_ s.
Proof.
  unfold Orderbook.process_request.
  destruct (Orderbook.risk_gate req s) as [[order |] | |];
    simpl; [| | done | done].
  - by intros [= <-].
  - destruct (Orderbook.dispatch fuel req (Orderbook.book s)) as [b | |];
      simpl; [| done | done].
    intros [= <-].
    destruct (record_latency_cases req
                (Orderbook.set_processed (S (Orderbook.ordersProcessed_ s))
                   (Orderbook.set_book b s)))
      as (_ & Hq & Hsh & Hrm & Hn & Hj & _).
    simpl in *. by rewrite Hq, Hsh, Hrm, Hn, Hj.
Qed.

(** X15. Every request the matcher gets through is counted once:
    [ordersProcessed_] goes up by one, whether the request was rejected
    by the risk gate or handled. A rejected request leaves no latency
    sample; a handled one leaves one, the clock reading minus its
    timestamp, exactly when its timestamp is positive and below the
    reading. The ring, the flag, the risk configuration and the journal
    are not touched. *)
Theorem process_request_counts_once fuel req s s' :
  Orderbook.process_request clock fuel req s = Done s' ->
  Orderbook.ordersProcessed_ s' = S (Orderbook.ordersProcessed_ s)
  /\ Orderbook.requestQueue_ s' = Orderbook.requestQueue_ s
  /\ Orderbook.shutdown_ s' = Orderbook.shutdown_ s
  /\ Orderbook.riskManager_ s' = Orderbook.riskManager_ s
  /\ Orderbook.journaler_ s' = Orderbook.journaler_ s
  /\ exists rejected,
       Orderbook.risk_gate req s = Done rejected
       /\ Orderbook.latencies_ s'
          = Orderbook.latencies_ s
            ++ (if bool_decide (rejected = None
                                /\ 0 < Request.timestamp req
                                   < clock (S (Orderbook.ordersProcessed_ s)))
                then [clock (S (Orderbook.ordersProcessed_ s))
                      - Request.timestamp req]
                else []).
Proof.
  intros Hr.
  destruct (process_request_Done fuel req s s' Hr) as (Hn & Hq & Hsh & Hrm & Hj).
  do 5 (split; [done |]). revert Hr. unfold Orderbook.process_request.
  destruct (Orderbook.risk_gate req s) as [[order |] | |] eqn:Hg;
    simpl; [| | done | done].
  - intros [= <-]. simpl. exists (Some order). split; [done |].
    rewrite bool_decide_eq_false_2 by (by intros [? _]). by rewrite app_nil_r.
  - destruct (Orderbook.dispatch fuel req (Orderbook.book s)) as [b | |];
      simpl; [| done | done].
    intros [= <-].
    destruct (record_latency_cases req
                (Orderbook.set_processed (S (Orderbook.ordersProcessed_ s))
                   (Orderbook.set_book b s)))
      as (_ & _ & _ & _ & _ & _ & Hl).
    simpl in Hl. rewrite Hl. exists None. split; [done |].
    f_equal. repeat case_bool_decide; try done; tauto.
Qed.

(** X16. An Add the risk gate does not allow never reaches the book:
    the order's slot goes back on the pool, the request is counted, no
    latency sample is taken, and the maps, the index, the level data
    and the objects are as before. *)
Theorem rejected_Add_is_released fuel req s order o :
  Request.type req = Request.Add ->
  Request.order req = Some order ->
  Book.deref order (Orderbook.book s) = Done o ->
  RiskManager.CheckOrder (Orderbook.riskManager_ s) o <> RiskManager.Allowed ->
  exists s',
    Orderbook.process_request clock fuel req s = Done s'
    /\ Orderbook.book s'
       = Book.set_pool
           (ObjectPool.mk (order :: ObjectPool.pool_ (Book.orderPool_ (Orderbook.book s))))
           (Orderbook.book s)
    /\ Orderbook.ordersProcessed_ s' = S (Orderbook.ordersProcessed_ s)
    /\ Orderbook.latencies_ s' = Orderbook.latencies_ s
    /\ Orderbook.requestQueue_ s' = Orderbook.requestQueue_ s.
Proof.
  intros Hty Hord Hd Hrej. eexists. split.
  - unfold Orderbook.process_request, Orderbook.risk_gate.
    rewrite Hty, Hord. simpl. rewrite Hd. simpl.
    rewrite bool_decide_eq_true_2 by done. simpl. reflexivity.
  - simpl. done.
Qed.

Lemma ProcessRequests_Done iters fuel :
  forall s s',
    Orderbook.ProcessRequests clock iters fuel s = Done s' ->
    Orderbook.shutdown_ s = true
    /\ Orderbook.shutdown_ s' = true
    /\ LockFreeQueue.IsEmpty (Orderbook.requestQueue_ s') = true
    /\ Orderbook.riskManager_ s' = Orderbook.riskManager_ s
    /\ Orderbook.journaler_ s' = Orderbook.journaler_ s
    /\ (LockFreeQueue.wf (Orderbook.requestQueue_ s) ->
        Orderbook.ordersProcessed_ s'
        = (Orderbook.ordersProcessed_ s
           + LockFreeQueue.Size (Orderbook.requestQueue_ s))%nat).
Proof.
  induction iters as [| iters IH]; intros s s'; rewrite ProcessRequests_unfold.
  - destruct (Orderbook.shutdown_ s) eqn:Hsh; simpl; [| done].
    destruct (LockFreeQueue.IsEmpty (Orderbook.requestQueue_ s)) eqn:He;
      simpl; [| done].
    intros [= <-]. do 5 (split; [done |]). intros Hwf.
    apply IsEmpty_Size in He; [lia | done].
  - destruct (negb (Orderbook.shutdown_ s)
              || negb (LockFreeQueue.IsEmpty (Orderbook.requestQueue_ s)))
      eqn:Hcond.
    + destruct (LockFreeQueue.Pop (Orderbook.requestQueue_ s)) as [[req |] q]
        eqn:HP.
      * destruct (Orderbook.process_request clock fuel req
                    (Orderbook.set_queue q s)) as [s1 | |] eqn:Hp;
          simpl; [| done | done].
        intros Hr. destruct (IH _ _ Hr) as (Hs1 & Hs' & He' & Hrm & Hj & Hn).
        destruct (process_request_Done _ _ _ _ Hp)
          as (Hn1 & Hq1 & Hsh1 & Hrm1 & Hj1).
        simpl in *. split; [congruence |]. split; [done |]. split; [done |].
        split; [congruence |]. split; [congruence |].
        intros Hwf.
        assert (Hne : LockFreeQueue.IsEmpty (Orderbook.requestQueue_ s) = false).
        { apply Pop_Some_iff; [done |]. rewrite HP. by eexists. }
        destruct (Pop_contents _ Hwf Hne) as (x & q' & HP' & _ & Hwf' & HS).
        rewrite HP in HP'. injection HP' as <- <-.
        rewrite Hn by (by rewrite Hq1). rewrite Hn1, Hq1, HS. lia.
      * intros Hr. destruct (IH _ _ Hr) as (Hs1 & Hs' & He' & Hrm & Hj & Hn).
        done.
    + intros [= <-].
      apply orb_false_iff in Hcond as [Hsh He].
      apply negb_false_iff in Hsh, He.
      do 5 (split; [done |]). intros Hwf.
      apply IsEmpty_Size in He; [lia | done].
Qed.

(** X17. The matcher stops only when it is told to and has nothing
    left: whenever [ProcessRequests] returns, the shutdown flag was set
    and the ring is empty; every request that was in the ring has been
    counted once; the risk configuration and the journal are as
    before. *)
Theorem matcher_stops_only_when_told iters fuel s s' :
  Orderbook.ProcessRequests clock iters fuel s = Done s' ->
  LockFreeQueue.wf (Orderbook.requestQueue_ s) ->
  Orderbook.shutdown_ s = true
  /\ Orderbook.shutdown_ s' = true
  /\ LockFreeQueue.IsEmpty (Orderbook.requestQueue_ s') = true
  /\ Orderbook.ordersProcessed_ s'
     = (Orderbook.ordersProcessed_ s
        + LockFreeQueue.Size (Orderbook.requestQueue_ s))%nat
  /\ Orderbook.riskManager_ s' = Orderbook.riskManager_ s
  /\ Orderbook.journaler_ s' = Orderbook.journaler_ s.
Proof.
  intros Hr Hwf.
  destruct (ProcessRequests_Done iters fuel s s' Hr)
    as (Hs & Hs' & He & Hrm & Hj & Hn).
  specialize (Hn Hwf). done.
Qed.

End Matcher_more.

(** ** The producer side *)

Lemma submit_cases req s :
  LockFreeQueue.wf (Orderbook.requestQueue_ s) ->
  if bool_decide (LockFreeQueue.Size (Orderbook.requestQueue_ s)
                  < LockFreeQueue.capacity_ (Orderbook.requestQueue_ s) - 1)%nat
  then exists q,
         Orderbook.submit req s = Done (Orderbook.set_queue q s)
         /\ LockFreeQueue.contents q
            = LockFreeQueue.contents (Orderbook.requestQueue_ s) ++ [req]
         /\ LockFreeQueue.wf q
  else Orderbook.submit req s = OutOfFuel.
Proof.
  intros Hwf. unfold Orderbook.submit.
  pose proof (Push_true_iff req _ Hwf) as Hiff.
  pose proof (Push_contents req _ Hwf) as Hc.
  pose proof (Push_true_wf req _ Hwf) as Hw.
  destruct (LockFreeQueue.Push req (Orderbook.requestQueue_ s)) as [[|] q];
    simpl in *.
  - rewrite bool_decide_eq_true_2 by (by apply Hiff).
    exists q. split; [done |]. split; [by apply Hc | by apply Hw].
  - rewrite bool_decide_eq_false_2; [done |].
    intros Hlt. apply Hiff in Hlt. done.
Qed.

(** X18. [AddOrder], [CancelOrder] and [ModifyOrder] put one request
    behind the requests held, of their type, with the pointer, the id
    or the modification given and the clock reading as timestamp, and
    touch nothing else; when the ring holds one request less than its
    capacity they spin instead. *)
Theorem producers_enqueue_or_spin now order orderId modify s :
  LockFreeQueue.wf (Orderbook.requestQueue_ s) ->
  let full :=
    negb (bool_decide (LockFreeQueue.Size (Orderbook.requestQueue_ s)
                       < LockFreeQueue.capacity_ (Orderbook.requestQueue_ s) - 1)%nat) in
  let sent (r : outcome Orderbook.t) (ty : Request.Type_) (p : option N)
      (id : OrderId) (m : OrderModify.t) :=
    if full then r = OutOfFuel
    else exists q req,
      r = Done (Orderbook.set_queue q s)
      /\ LockFreeQueue.contents q
         = LockFreeQueue.contents (Orderbook.requestQueue_ s) ++ [req]
      /\ Request.type req = ty /\ Request.timestamp req = now
      /\ Request.order req = p /\ Request.orderId req = id
      /\ Request.modify req = m in
  sent (Orderbook.AddOrder now order s) Request.Add (Some order) 0
    (OrderModify.mk 0 Buy 0 0)
  /\ sent (Orderbook.CancelOrder now orderId s) Request.Cancel None orderId
       (OrderModify.mk 0 Buy 0 0)
  /\ sent (Orderbook.ModifyOrder now modify s) Request.Modify None 0 modify.
Proof.
  intros Hwf full sent. unfold sent, full.
  unfold Orderbook.AddOrder, Orderbook.CancelOrder, Orderbook.ModifyOrder.
  split; [| split].
  - pose proof (submit_cases
                  (Request.mk Request.Add (Some order) 0 (OrderModify.mk 0 Buy 0 0) now)
                  s Hwf) as H.
    destruct (bool_decide _); simpl; [| done].
    destruct H as (q & Hr & Hc & _). by eexists q, _.
  - pose proof (submit_cases
                  (Request.mk Request.Cancel None orderId (OrderModify.mk 0 Buy 0 0) now)
                  s Hwf) as H.
    destruct (bool_decide _); simpl; [| done].
    destruct H as (q & Hr & Hc & _). by eexists q, _.
  - pose proof (submit_cases (Request.mk Request.Modify None 0 modify now) s Hwf)
      as H.
    destruct (bool_decide _); simpl; [| done].
    destruct H as (q & Hr & Hc & _). by eexists q, _.
Qed.

Lemma process_request_counts_once_witness :
  let req := Request.mk Request.Cancel None 7 (OrderModify.mk 0 Buy 0 0) 1 in
  exists s',
    Orderbook.process_request Example.clock 1 req Example.engine = Done s'
    /\ Orderbook.ordersProcessed_ s' = 1%nat
    /\ Orderbook.latencies_ s' = [1999].
Proof.
  intros req.
  set (s' := Scenario.result Example.engine
               (Orderbook.process_request Example.clock 1 req Example.engine)).
  assert (Hr : Orderbook.process_request Example.clock 1 req Example.engine
               = Done s') by (by vm_compute).
  destruct (process_request_counts_once Example.clock 1 req Example.engine s' Hr)
    as (Hn & _).
  exists s'. split; [exact Hr |]. split; [exact Hn | by vm_compute].
Defined.

Lemma rejected_Add_is_released_witness :
  let req :=
    Request.mk Request.Add (Some Example.oversized.1) 0 (OrderModify.mk 0 Buy 0 0) 1 in
  exists s',
    Orderbook.process_request Example.clock 1 req
      (Orderbook.set_book Example.oversized.2 Example.engine) = Done s'
    /\ ObjectPool.pool_ (Book.orderPool_ (Orderbook.book s')) = [3%N; 2%N; 1%N; 0%N]
    /\ Orderbook.ordersProcessed_ s' = 1%nat
    /\ Orderbook.latencies_ s' = [].
Proof.
  destruct (rejected_Add_is_released Example.clock 1
              (Request.mk Request.Add (Some Example.oversized.1) 0
                 (OrderModify.mk 0 Buy 0 0) 1)
              (Orderbook.set_book Example.oversized.2 Example.engine)
              Example.oversized.1 (Order.mk GoodTillCancel 1 Buy 100 20000 20000))
    as (s' & Hr & Hb & Hn & Hl & _).
  - reflexivity.
  - reflexivity.
  - by vm_compute.
  - by vm_compute.
  - exists s'. split; [exact Hr |].
    split; [by rewrite Hb |]. split; [exact Hn | exact Hl].
Defined.

Lemma matcher_stops_only_when_told_witness :
  let s := Scenario.result Example.engine
             (Orderbook.CancelOrder 1 7 (Orderbook.set_shutdown true Example.engine)) in
  exists s',
    Orderbook.ProcessRequests Example.clock 2 1 s = Done s'
    /\ LockFreeQueue.IsEmpty (Orderbook.requestQueue_ s') = true
    /\ Orderbook.ordersProcessed_ s' = 1%nat.
Proof.
  intros s.
  set (s' := Scenario.result s (Orderbook.ProcessRequests Example.clock 2 1 s)).
  assert (Hr : Orderbook.ProcessRequests Example.clock 2 1 s = Done s')
    by (by vm_compute).
  destruct (matcher_stops_only_when_told Example.clock 2 1 s s' Hr)
    as (_ & _ & He & Hn & _).
  - unfold LockFreeQueue.wf. vm_compute. lia.
  - exists s'. split; [exact Hr |]. split; [exact He | exact Hn].
Defined.

Lemma producers_enqueue_or_spin_witness :
  exists q req,
    Orderbook.CancelOrder 5 7 Example.engine
    = Done (Orderbook.set_queue q Example.engine)
    /\ LockFreeQueue.contents q = [req]
    /\ Request.type req = Request.Cancel /\ Request.timestamp req = 5
    /\ Request.order req = None /\ Request.orderId req = 7.
Proof.
  destruct (producers_enqueue_or_spin 5 3%N 7 (OrderModify.mk 1 Buy 99 8)
              Example.engine) as (_ & Hc & _).
  - unfold LockFreeQueue.wf. vm_compute. lia.
  - destruct Hc as (q & req & Hr & Hq & Hty & Hts & Hord & Hid & _).
    exists q, req. split; [exact Hr |]. split; [exact Hq |].
    split; [exact Hty |]. split; [exact Hts |]. split; [exact Hord | exact Hid].
Defined.

(** ** The journal *)

Lemma WriterLoop_unfold iters w :
  JournalWriter.WriterLoop iters w =
  if JournalWriter.running_ w
     || negb (LockFreeQueue.IsEmpty
                (AsyncJournaler.queue_ (JournalWriter.journaler w))) then
    match iters with
    | O => OutOfFuel
    | S iters' =>
        match LockFreeQueue.Pop
                (AsyncJournaler.queue_ (JournalWriter.journaler w)) with
        | (Some entry, q) =>
            JournalWriter.WriterLoop iters'
              (JournalWriter.mk (AsyncJournaler.mk q) (JournalWriter.running_ w)
                 (JournalWriter.file w ++ [entry]))
        | (None, _) => JournalWriter.WriterLoop iters' w
        end
    end
  else Done w.
Proof. by destruct iters. Qed.

Lemma WriterLoop_running iters :
  forall w r, JournalWriter.running_ w = true ->
              JournalWriter.WriterLoop iters w <> Done r.
Proof.
  induction iters as [| iters IH]; intros w r Hrun; rewrite WriterLoop_unfold;
    rewrite Hrun; simpl; [done |].
  destruct (LockFreeQueue.Pop _) as [[entry |] q]; by apply IH.
Qed.

Lemma WriterLoop_drains n :
  forall iters w,
    JournalWriter.running_ w = false ->
    LockFreeQueue.wf (AsyncJournaler.queue_ (JournalWriter.journaler w)) ->
    LockFreeQueue.Size (AsyncJournaler.queue_ (JournalWriter.journaler w)) = n ->
    (n <= iters)%nat ->
    JournalWriter.WriterLoop iters w
    = Done (JournalWriter.mk
              (AsyncJournaler.mk
                 (LockFreeQueue.drained
                    (AsyncJournaler.queue_ (JournalWriter.journaler w))))
              false
              (JournalWriter.file w
               ++ LockFreeQueue.contents
                    (AsyncJournaler.queue_ (JournalWriter.journaler w)))).
Proof.
  induction n as [| n IH]; intros iters w Hrun Hwf HS Hit;
    rewrite WriterLoop_unfold, Hrun; simpl.
  - assert (He : LockFreeQueue.IsEmpty
                   (AsyncJournaler.queue_ (JournalWriter.journaler w)) = true)
      by (by apply IsEmpty_Size).
    rewrite He. simpl. rewrite (contents_nil _ Hwf He), app_nil_r.
    destruct w as [[q] run f]. simpl in *. subst run. do 3 f_equal.
    unfold LockFreeQueue.drained, LockFreeQueue.IsEmpty in *.
    apply bool_decide_eq_true in He. destruct q; simpl in *. by subst.
  - assert (He : LockFreeQueue.IsEmpty
                   (AsyncJournaler.queue_ (JournalWriter.journaler w)) = false).
    { destruct (LockFreeQueue.IsEmpty _) eqn:He; [| done].
      apply IsEmpty_Size in He; [lia | done]. }
    rewrite He. simpl.
    destruct iters as [| iters]; [lia |].
    destruct (Pop_contents _ Hwf He) as (x & q' & HP & Hc & Hwf' & HS').
    rewrite HP. rewrite IH; simpl; [| done | done | lia | lia].
    rewrite Hc, <- app_assoc. simpl. do 3 f_equal.
    unfold LockFreeQueue.drained. revert HP. unfold LockFreeQueue.Pop.
    case_bool_decide; [done |].
    destruct (LockFreeQueue.buffer_ _ !! _); [| done].
    by intros [= _ <-].
Qed.

(** X19. [Log] puts one entry behind the entries held: the request's
    type and id, followed for an Add that carries an order by the
    order's type, id, side, price and initial quantity, and for a Modify
    by the modification; a Cancel adds nothing. When the ring is full
    it spins. *)
Theorem Log_enqueues_entry req h j :
  LockFreeQueue.wf (AsyncJournaler.queue_ j) ->
  (forall p, Request.order req = Some p -> is_Some (Heap.read Order.zero p h)) ->
  let head :=
    [AsyncJournaler.F_type (Request.type req);
     AsyncJournaler.F_orderId (Request.orderId req)] in
  let body :=
    match Request.type req, Request.order req with
    | Request.Add, Some p =>
        let o := default Order.zero (Heap.read Order.zero p h) in
        [AsyncJournaler.F_orderType (Order.GetOrderType o);
         AsyncJournaler.F_orderId (Order.GetOrderId o);
         AsyncJournaler.F_side (Order.GetSide o);
         AsyncJournaler.F_price (Order.GetPrice o);
         AsyncJournaler.F_quantity (Order.GetInitialQuantity o)]
    | Request.Modify, _ => [AsyncJournaler.F_modify (Request.modify req)]
    | _, _ => []
    end in
  if bool_decide (LockFreeQueue.Size (AsyncJournaler.queue_ j)
                  < LockFreeQueue.capacity_ (AsyncJournaler.queue_ j) - 1)%nat
  then exists j',
         AsyncJournaler.Log req h j = Done j'
         /\ LockFreeQueue.contents (AsyncJournaler.queue_ j')
            = LockFreeQueue.contents (AsyncJournaler.queue_ j)
              ++ [AsyncJournaler.mkEntry (head ++ body)]
         /\ LockFreeQueue.wf (AsyncJournaler.queue_ j')
  else AsyncJournaler.Log req h j = OutOfFuel.
Proof.
  intros Hwf Hptr head body.
  assert (He : AsyncJournaler.entry_of req h
               = Done (AsyncJournaler.mkEntry (head ++ body))).
  { unfold AsyncJournaler.entry_of, head, body.
    destruct (Request.type req); destruct (Request.order req) as [p |]; try done.
    destruct (Hptr p eq_refl) as [o Ho]. by rewrite Ho. }
  unfold AsyncJournaler.Log. rewrite He. simpl.
  pose proof (Push_true_iff (AsyncJournaler.mkEntry (head ++ body)) _ Hwf) as Hiff.
  pose proof (Push_contents (AsyncJournaler.mkEntry (head ++ body)) _ Hwf) as Hc.
  pose proof (Push_true_wf (AsyncJournaler.mkEntry (head ++ body)) _ Hwf) as Hw.
  destruct (LockFreeQueue.Push _ (AsyncJournaler.queue_ j)) as [[|] q];
    simpl in *.
  - rewrite bool_decide_eq_true_2 by (by apply Hiff).
    eexists. split; [done |]. simpl. split; [by apply Hc | by apply Hw].
  - rewrite bool_decide_eq_false_2; [done |].
    intros Hlt. apply Hiff in Hlt. done.
Qed.

(** X20. The writer of the journal never stops while the journaler
    runs; once the destructor has cleared the flag it writes the
    entries still held to the file, oldest first, behind what the file
    holds, and stops with the ring empty. *)
Theorem writer_drains_in_order iters w :
  LockFreeQueue.wf (AsyncJournaler.queue_ (JournalWriter.journaler w)) ->
  (LockFreeQueue.Size (AsyncJournaler.queue_ (JournalWriter.journaler w))
   <= iters)%nat ->
  (JournalWriter.running_ w = true ->
   forall n r, JournalWriter.WriterLoop n w <> Done r)
  /\ exists w',
       JournalWriter.dtor iters w = Done w'
       /\ JournalWriter.file w'
          = JournalWriter.file w
            ++ LockFreeQueue.contents
                 (AsyncJournaler.queue_ (JournalWriter.journaler w))
       /\ LockFreeQueue.IsEmpty
            (AsyncJournaler.queue_ (JournalWriter.journaler w')) = true
       /\ JournalWriter.running_ w' = false.
Proof.
  intros Hwf Hit. split.
  - intros Hrun n r. by apply WriterLoop_running.
  - eexists. split.
    + unfold JournalWriter.dtor.
      exact (WriterLoop_drains _ iters
               (JournalWriter.mk (JournalWriter.journaler w) false
                  (JournalWriter.file w)) eq_refl Hwf eq_refl Hit).
    + simpl. split; [done |]. split; [| done].
      unfold LockFreeQueue.IsEmpty, LockFreeQueue.drained. simpl.
      by apply bool_decide_eq_true_2.
Qed.

Lemma Log_enqueues_entry_witness :
  let j := AsyncJournaler.mk (LockFreeQueue.ctor (AsyncJournaler.mkEntry []) 4) in
  let req := Request.mk Request.Modify None 1 (OrderModify.mk 1 Buy 99 8) 5 in
  exists j',
    AsyncJournaler.Log req (Heap.empty : Heap.t Order.t) j = Done j'
    /\ LockFreeQueue.contents (AsyncJournaler.queue_ j')
       = [AsyncJournaler.mkEntry
            [AsyncJournaler.F_type Request.Modify; AsyncJournaler.F_orderId 1;
             AsyncJournaler.F_modify (OrderModify.mk 1 Buy 99 8)]].
Proof.
  intros j req.
  pose proof (Log_enqueues_entry req Heap.empty j) as H.
  simpl in H. destruct H as (j' & Hr & Hc & _).
  - unfold LockFreeQueue.wf. vm_compute. lia.
  - intros p. done.
  - exists j'. split; [exact Hr | exact Hc].
Defined.

Lemma writer_drains_in_order_witness :
  let e1 := AsyncJournaler.mkEntry [AsyncJournaler.F_orderId 1] in
  let e2 := AsyncJournaler.mkEntry [AsyncJournaler.F_orderId 2] in
  let q := (LockFreeQueue.push_all [e1; e2]
              (LockFreeQueue.ctor (AsyncJournaler.mkEntry []) 4)).2 in
  exists w',
    JournalWriter.dtor 2 (JournalWriter.mk (AsyncJournaler.mk q) true []) = Done w'
    /\ JournalWriter.file w' = [e1; e2].
Proof.
  intros e1 e2 q.
  destruct (writer_drains_in_order 2
              (JournalWriter.mk (AsyncJournaler.mk q) true []))
    as (_ & w' & Hr & Hf & _).
  - unfold LockFreeQueue.wf. vm_compute. lia.
  - vm_compute. lia.
  - exists w'. split; [exact Hr | exact Hf].
Defined.

(** ** The view of the levels *)

Lemma wrapQ_wrapQ_add a c : wrapQ (wrapQ a + c) = wrapQ (a + c).
Proof. unfold wrapQ. apply Zplus_mod_idemp_l. Qed.

Lemma accumulate_sum b orders :
  Forall (fun order => is_Some (Heap.read Order.zero order (Book.heap b))) orders ->
  forall runningSum,
    BookView.accumulate b orders (wrapQ runningSum)
    = Done (wrapQ (runningSum + Spec.remaining_sum b orders)).
Proof.
  induction 1 as [| order orders [o Ho] _ IH]; intros runningSum; simpl.
  - by rewrite Z.add_0_r.
  - unfold Book.deref, Spec.remaining_sum. simpl. rewrite Ho. simpl.
    rewrite wrapQ_wrapQ_add, IH. do 2 f_equal. unfold Spec.remaining_sum.
    apply eq_sym, Z.add_assoc.
Qed.

Lemma infos_levels b (m : PriceMap.t) :
  Forall (fun order => is_Some (Heap.read Order.zero order (Book.heap b)))
    (mjoin (m.*2)) ->
  BookView.infos b m
  = Done ((fun level : Price * list N =>
             LevelInfo.mk level.1 (wrapQ (Spec.remaining_sum b level.2))) <$> m).
Proof.
  induction m as [| [price orders] m IH]; simpl; [done |].
  intros [Hl Hm]%Forall_app. unfold BookView.CreateLevelInfos.
  change 0 with (wrapQ 0) at 1. rewrite (accumulate_sum b orders Hl 0). simpl.
  by rewrite IH.
Qed.

(** X21. [GetOrderInfos] lists every key of [bids_] and then of
    [asks_], in the order of the maps, each with the sum modulo 2^32 of
    what remains of the orders in its list; a level whose list is empty
    is listed too, with quantity 0. *)
Theorem GetOrderInfos_lists_every_level b :
  Forall (fun order => is_Some (Heap.read Order.zero order (Book.heap b)))
    (mjoin ((Book.bids_ b ++ Book.asks_ b).*2)) ->
  let info (level : Price * list N) :=
    LevelInfo.mk level.1 (wrapQ (Spec.remaining_sum b level.2)) in
  BookView.GetOrderInfos b
  = Done (OrderbookLevelInfos.mk (info <$> Book.bids_ b) (info <$> Book.asks_ b))
  /\ forall price, info (price, []) = LevelInfo.mk price 0.
Proof.
  rewrite fmap_app, join_app. intros [Hb Ha]%Forall_app info. split; [| done].
  unfold BookView.GetOrderInfos. rewrite (infos_levels b _ Hb). simpl.
  by rewrite (infos_levels b _ Ha).
Qed.

Lemma GetOrderInfos_lists_every_level_witness :
  BookView.GetOrderInfos Example.emptied
  = Done (OrderbookLevelInfos.mk [LevelInfo.mk 100 0] [LevelInfo.mk 105 5]).
Proof.
  apply (proj1 (GetOrderInfos_lists_every_level Example.emptied
                  ltac:(vm_compute; repeat constructor; by eexists))).
Defined.

(** ** Orders that rest *)

Lemma cancel_front_resting (m : PriceMap.t) b :
  Inv.resting_front m b -> Book.cancel_FillAndKill_front m b = Done b.
Proof.
  unfold Book.cancel_FillAndKill_front, Inv.resting_front, PriceMap.begin.
  destruct m as [| [price orders] rest]; simpl; [done |].
  intros (order & o & Hhd & Hd & Hty). rewrite Hhd. simpl. rewrite Hd. simpl.
  by rewrite bool_decide_eq_false_2.
Qed.

Lemma cancel_front_empty (m : PriceMap.t) b price rest :
  m = (price, []) :: rest ->
  Book.cancel_FillAndKill_front m b = Fault Undefined.
Proof. by intros ->. Qed.

Lemma MatchOrders_resting fuel b :
  ~ Book.crossed b ->
  Inv.resting_front (Book.bids_ b) b -> Inv.resting_front (Book.asks_ b) b ->
  Book.MatchOrders fuel b = Done ([], b).
Proof.
  intros Hc Hb Ha. unfold Book.MatchOrders.
  rewrite (MatchOrders_loop_not_crossed fuel [] b Hc). simpl.
  rewrite (cancel_front_resting _ _ Hb). simpl.
  by rewrite (cancel_front_resting _ _ Ha).
Qed.

(** X22. On a book whose first levels do not cross, [MatchOrders]
    returns no trade and leaves the book alone when each side is empty
    or has a first order that is not FillAndKill; when the list of a
    first level is empty (a level emptied by a cancel stays in its map)
    it takes [front()] of that empty list, whatever the fuel. *)
Theorem MatchOrders_without_cross fuel b :
  ~ Book.crossed b ->
  (Inv.resting_front (Book.bids_ b) b -> Inv.resting_front (Book.asks_ b) b ->
   Book.MatchOrders fuel b = Done ([], b))
  /\ (forall price rest,
        Book.bids_ b = (price, []) :: rest ->
        Book.MatchOrders fuel b = Fault Undefined)
  /\ (forall price rest,
        Inv.resting_front (Book.bids_ b) b ->
        Book.asks_ b = (price, []) :: rest ->
        Book.MatchOrders fuel b = Fault Undefined).
Proof.
  intros Hc. split; [by apply MatchOrders_resting |]. split.
  - intros price rest Hb. unfold Book.MatchOrders.
    rewrite (MatchOrders_loop_not_crossed fuel [] b Hc). simpl.
    by rewrite (cancel_front_empty _ b price rest Hb).
  - intros price rest Hb Ha. unfold Book.MatchOrders.
    rewrite (MatchOrders_loop_not_crossed fuel [] b Hc). simpl.
    rewrite (cancel_front_resting _ _ Hb). simpl.
    by rewrite (cancel_front_empty _ b price rest Ha).
Qed.

(** The first entry of a map after [m[price].push_back(order)]. *)
Lemma head_push before price order (m : PriceMap.t) :
  head (PriceMap.update price (fun orders => orders ++ [order])
          (PriceMap.subscript before price m))
  = match m with
    | [] => Some (price, [order])
    | (k, l) :: _ =>
        if bool_decide (k = price) then Some (k, l ++ [order])
        else if before price k then Some (price, [order])
        else Some (k, l)
    end.
Proof.
  destruct m as [| [k l] rest]; simpl.
  - by rewrite bool_decide_eq_true_2.
  - case_bool_decide as Hk; simpl.
    + by rewrite bool_decide_eq_true_2.
    + destruct (before price k); simpl.
      * by rewrite bool_decide_eq_true_2.
      * by rewrite bool_decide_eq_false_2.
Qed.

Lemma resting_front_heap (m : PriceMap.t) b b' :
  Book.heap b' = Book.heap b -> Inv.resting_front m b -> Inv.resting_front m b'.
Proof.
  intros Hh. unfold Inv.resting_front. destruct m as [| [k l] rest]; [done |].
  intros (order & o & Hhd & Hd & Hty). exists order, o.
  by rewrite (deref_heap _ _ _ Hh).
Qed.

Lemma resting_front_push before price order o (m : PriceMap.t) b :
  Book.deref order b = Done o -> Order.GetOrderType o <> FillAndKill ->
  Inv.resting_front m b ->
  Inv.resting_front
    (PriceMap.update price (fun orders => orders ++ [order])
       (PriceMap.subscript before price m)) b.
Proof.
  intros Hd Hty Hm.
  pose proof (head_push before price order m) as Hh.
  destruct (PriceMap.update _ _ _) as [| [k' l'] rest']; [done |].
  simpl in Hh. unfold Inv.resting_front in *.
  destruct m as [| [k l] rest].
  - injection Hh as -> ->. by exists order, o.
  - destruct Hm as (first & o1 & Hhd & Hd1 & Hty1).
    case_bool_decide.
    + injection Hh as -> ->. exists first, o1.
      destruct l; [done |]. simpl in *. done.
    + destruct (before price k).
      * injection Hh as -> ->. by exists order, o.
      * injection Hh as -> ->. by exists first, o1.
Qed.

(** X23. A GoodTillCancel order whose id is new and whose price does
    not meet the other side rests: on a book at rest [HandleAddOrder]
    returns for any fuel, with no trade, the order at the tail of its
    price on its side and indexed under its id, and the book at rest
    again. *)
Theorem passive_order_rests fuel order b o :
  Book.deref order b = Done o ->
  Order.GetOrderType o = GoodTillCancel ->
  Book.orders_ b !! Order.GetOrderId o = None ->
  Inv.at_rest b ->
  Inv.passive (Order.GetSide o) (Order.GetPrice o) b ->
  exists b',
    Book.HandleAddOrder fuel order b = Done ([], b')
    /\ PriceMap.at_ (Order.GetPrice o) (Inv.own (Order.GetSide o) b')
       = Some (default [] (PriceMap.at_ (Order.GetPrice o)
                             (Inv.own (Order.GetSide o) b)) ++ [order])
    /\ Book.orders_ b' !! Order.GetOrderId o = Some order
    /\ Inv.opposite (Order.GetSide o) b' = Inv.opposite (Order.GetSide o) b
    /\ Inv.at_rest b'.
Proof.
  intros Hd Hty Hnew (Hs & Hc & Hfb & Hfa) Hpass.
  pose proof (place_limit order b o Hd Hty Hnew) as Hp.
  destruct (place_limit_facts order b o _ Hd Hty Hnew Hs Hp)
    as (Hat & _ & Hopp & Hord & _ & Hheap & _ & Hs').
  set (b' := Book.UpdateLevelData _ _ _ _) in *.
  assert (Hbids : Book.bids_ b'
                  = if bool_decide (Order.GetSide o = Buy) then
                      PriceMap.update (Order.GetPrice o) (fun orders => orders ++ [order])
                        (PriceMap.subscript PriceMap.greater (Order.GetPrice o)
                           (Book.bids_ b))
                    else Book.bids_ b).
  { unfold b'. rewrite bids_UpdateLevelData. by case_bool_decide. }
  assert (Hasks : Book.asks_ b'
                  = if bool_decide (Order.GetSide o = Buy) then Book.asks_ b
                    else
                      PriceMap.update (Order.GetPrice o) (fun orders => orders ++ [order])
                        (PriceMap.subscript PriceMap.less (Order.GetPrice o)
                           (Book.asks_ b))).
  { unfold b'. rewrite asks_UpdateLevelData. by case_bool_decide. }
  clearbody b'. clear Hat Hopp Hord.
  assert (Hrest : Inv.at_rest b').
  { split; [done |]. unfold Inv.passive in Hpass.
    assert (Hnf : Order.GetOrderType o <> FillAndKill) by (by rewrite Hty).
    destruct (Order.GetSide o); simpl in Hbids, Hasks.
    - split; [| split].
      + unfold Book.crossed. rewrite Hasks, Hbids.
        pose proof (head_push PriceMap.greater (Order.GetPrice o) order (Book.bids_ b))
          as Hh.
        destruct (PriceMap.update (Order.GetPrice o) _
                    (PriceMap.subscript PriceMap.greater _ _))
          as [| [k' l'] rest']; [simpl; tauto |].
        simpl in Hh. simpl.
        destruct (Book.asks_ b) as [| [askPrice la] resta] eqn:Ha; [simpl; tauto |].
        simpl. specialize (Hpass askPrice eq_refl).
        unfold Book.crossed in Hc. rewrite Ha in Hc.
        destruct (Book.bids_ b) as [| [k l] rest]; simpl in *.
        * injection Hh as -> ->. lia.
        * case_bool_decide; [injection Hh as -> ->; lia |].
          destruct (PriceMap.greater (Order.GetPrice o) k);
            injection Hh as -> ->; [lia | done].
      + rewrite Hbids. apply (resting_front_heap _ b); [done |].
        by apply (resting_front_push _ _ _ o).
      + rewrite Hasks. by apply (resting_front_heap _ b).
    - split; [| split].
      + unfold Book.crossed. rewrite Hasks, Hbids.
        pose proof (head_push PriceMap.less (Order.GetPrice o) order (Book.asks_ b))
          as Hh.
        destruct (Book.bids_ b) as [| [bidPrice lb] restb] eqn:Hb; [simpl; tauto |].
        simpl.
        destruct (PriceMap.update (Order.GetPrice o) _
                    (PriceMap.subscript PriceMap.less _ _))
          as [| [k' l'] rest']; [simpl; tauto |].
        simpl in Hh. simpl. specialize (Hpass bidPrice eq_refl).
        unfold Book.crossed in Hc. rewrite Hb in Hc. simpl in Hc.
        destruct (Book.asks_ b) as [| [k l] rest]; simpl in *.
        * injection Hh as -> ->. lia.
        * case_bool_decide; [injection Hh as -> ->; lia |].
          destruct (PriceMap.less (Order.GetPrice o) k);
            injection Hh as -> ->; [lia | done].
      + rewrite Hbids. by apply (resting_front_heap _ b).
      + rewrite Hasks. apply (resting_front_heap _ b); [done |].
        by apply (resting_front_push _ _ _ o). }
  exists b'. split.
  - unfold Book.HandleAddOrder. rewrite Hp. simpl.
    destruct Hrest as (_ & Hc' & Hfb' & Hfa').
    by apply MatchOrders_resting.
  - destruct (place_limit_facts order b o _ Hd Hty Hnew Hs Hp)
      as (Hat & _ & Hopp & Hord & _).
    split; [exact Hat |]. split; [by rewrite Hord, lookup_insert_eq |].
    split; [exact Hopp | exact Hrest].
Qed.

Lemma MatchOrders_without_cross_witness :
  Book.MatchOrders 1 Example.two_sided = Done ([], Example.two_sided)
  /\ Book.MatchOrders 1 Example.emptied = Fault Undefined.
Proof.
  split.
  - apply (MatchOrders_without_cross 1 Example.two_sided).
    + vm_compute. intros H. apply H. reflexivity.
    + exists 3%N, (Order.mk GoodTillCancel 1 Buy 100 10 10). by vm_compute.
    + exists 2%N, (Order.mk GoodTillCancel 2 Sell 105 5 5). by vm_compute.
  - apply (proj1 (proj2 (MatchOrders_without_cross 1 Example.emptied
                           ltac:(vm_compute; intros H; apply H; reflexivity)))
             100 []).
    by vm_compute.
Defined.

Lemma passive_order_rests_witness :
  exists b',
    Book.HandleAddOrder 1 Example.limit_buy.1 Example.limit_buy.2 = Done ([], b')
    /\ PriceMap.at_ 101 (Book.bids_ b') = Some [Example.limit_buy.1]
    /\ Inv.at_rest b'.
Proof.
  destruct (passive_order_rests 1 Example.limit_buy.1 Example.limit_buy.2
              (Order.mk GoodTillCancel 3 Buy 101 7 7))
    as (b' & Hr & Hat & _ & _ & Hrest).
  - by vm_compute.
  - reflexivity.
  - by vm_compute.
  - split; [vm_compute; repeat constructor |].
    split; [vm_compute; intros H; apply H; reflexivity |].
    split.
    + exists 3%N, (Order.mk GoodTillCancel 1 Buy 100 10 10). by vm_compute.
    + exists 2%N, (Order.mk GoodTillCancel 2 Sell 105 5 5). by vm_compute.
  - intros askPrice. vm_compute. intros [= <-]. reflexivity.
  - exists b'. split; [exact Hr |]. split; [exact Hat | exact Hrest].
Defined.

(** ** Orders that meet the other side *)

Lemma head_push_key_buy price order (m : PriceMap.t) :
  exists k l rest,
    PriceMap.update price (fun orders => orders ++ [order])
      (PriceMap.subscript PriceMap.greater price m) = (k, l) :: rest
    /\ price <= k.
Proof.
  pose proof (head_push PriceMap.greater price order m) as Hh.
  destruct (PriceMap.update _ _ _) as [| [k l] rest].
  { destruct m as [| [k0 l0] ?]; [done |]. simpl in Hh.
    by repeat case_match. }
  exists k, l, rest. split; [done |]. simpl in Hh.
  destruct m as [| [k0 l0] ?]; [injection Hh as -> ->; lia |].
  case_bool_decide; [injection Hh as -> ->; lia |].
  unfold PriceMap.greater in Hh. case_bool_decide; injection Hh as -> ->; lia.
Qed.

Lemma head_push_key_sell price order (m : PriceMap.t) :
  exists k l rest,
    PriceMap.update price (fun orders => orders ++ [order])
      (PriceMap.subscript PriceMap.less price m) = (k, l) :: rest
    /\ k <= price.
Proof.
  pose proof (head_push PriceMap.less price order m) as Hh.
  destruct (PriceMap.update _ _ _) as [| [k l] rest].
  { destruct m as [| [k0 l0] ?]; [done |]. simpl in Hh.
    by repeat case_match. }
  exists k, l, rest. split; [done |]. simpl in Hh.
  destruct m as [| [k0 l0] ?]; [injection Hh as -> ->; lia |].
  case_bool_decide; [injection Hh as -> ->; lia |].
  unfold PriceMap.less in Hh. case_bool_decide; injection Hh as -> ->; lia.
Qed.

(** The book crosses once a limit order that meets the other side has
    been put on it. *)
Lemma place_marketable order b o b' :
  Book.deref order b = Done o ->
  Order.GetOrderType o = GoodTillCancel ->
  Book.orders_ b !! Order.GetOrderId o = None ->
  Inv.marketable (Order.GetSide o) (Order.GetPrice o) b ->
  Book.HandleAddOrder_place order b = Done (true, b') ->
  Book.crossed b'.
Proof.
  intros Hd Hty Hnew Hm Hp.
  rewrite (place_limit order b o Hd Hty Hnew) in Hp. injection Hp as <-.
  unfold Book.crossed, Inv.marketable in *.
  rewrite bids_UpdateLevelData, asks_UpdateLevelData.
  destruct (Order.GetSide o); simpl.
  - destruct Hm as (askPrice & Ha & Hle).
    destruct (head_push_key_buy (Order.GetPrice o) order (Book.bids_ b))
      as (k & l & rest & -> & Hk).
    simpl. destruct (Book.asks_ b).*1 as [| a ?]; [done |].
    injection Ha as ->. lia.
  - destruct Hm as (bidPrice & Hb & Hle).
    destruct (head_push_key_sell (Order.GetPrice o) order (Book.asks_ b))
      as (k & l & rest & -> & Hk).
    simpl. destruct (Book.bids_ b).*1 as [| a ?]; [done |].
    injection Hb as ->. lia.
Qed.

Lemma HandleAddOrder_crossed fuel order b b' r :
  Book.HandleAddOrder_place order b = Done (true, b') ->
  Book.crossed b' ->
  Book.HandleAddOrder fuel order b <> Done r.
Proof.
  intros Hp Hc. unfold Book.HandleAddOrder. rewrite Hp. simpl.
  by apply MatchOrders_crossed.
Qed.

Lemma sorted_less_head_last (keys : list Price) first worst :
  Inv.sorted_keys PriceMap.less keys ->
  head keys = Some first -> last keys = Some worst -> first <= worst.
Proof.
  destruct keys as [| k rest]; [done |]. simpl.
  intros [Hall _] [= ->] Hlast.
  destruct rest as [| k' rest']; [injection Hlast as ->; lia |].
  assert (Hin : worst ∈ k' :: rest').
  { rewrite last_lookup in Hlast. simpl in Hlast.
    by apply (list_elem_of_lookup_2 _ (length rest')). }
  rewrite Forall_forall in Hall. specialize (Hall _ Hin).
  unfold PriceMap.less in Hall. apply bool_decide_eq_true in Hall. lia.
Qed.

Lemma sorted_greater_head_last (keys : list Price) first worst :
  Inv.sorted_keys PriceMap.greater keys ->
  head keys = Some first -> last keys = Some worst -> worst <= first.
Proof.
  destruct keys as [| k rest]; [done |]. simpl.
  intros [Hall _] [= ->] Hlast.
  destruct rest as [| k' rest']; [injection Hlast as ->; lia |].
  assert (Hin : worst ∈ k' :: rest').
  { rewrite last_lookup in Hlast. simpl in Hlast.
    by apply (list_elem_of_lookup_2 _ (length rest')). }
  rewrite Forall_forall in Hall. specialize (Hall _ Hin).
  unfold PriceMap.greater in Hall. apply bool_decide_eq_true in Hall. lia.
Qed.

(** X24. An order that meets the other side never comes back from
    [HandleAddOrder]: a GoodTillCancel order whose id is new and whose
    price is at or beyond the first key of the opposite map, and a
    Market order whose id is new and that finds the opposite map not
    empty, are put on the book and leave the maps crossed for a
    [MatchOrders] that does not return, whatever the fuel. *)
Theorem marketable_order_never_returns fuel order b o r :
  Book.deref order b = Done o ->
  Book.orders_ b !! Order.GetOrderId o = None ->
  Inv.sorted b ->
  (Order.GetOrderType o = GoodTillCancel
   /\ Inv.marketable (Order.GetSide o) (Order.GetPrice o) b)
  \/ (Order.GetOrderType o = Market /\ Inv.opposite (Order.GetSide o) b <> []) ->
  Book.HandleAddOrder fuel order b <> Done r.
Proof.
  intros Hd Hnew Hs [[Hty Hm] | [Hty Hne]].
  - pose proof (place_limit order b o Hd Hty Hnew) as Hp.
    apply (HandleAddOrder_crossed fuel order b _ r Hp).
    by apply (place_marketable order b o _ Hd Hty Hnew Hm).
  - destruct (PriceMap.rbegin (Inv.opposite (Order.GetSide o) b))
      as [[worst l] |] eqn:Hlast.
    2: { unfold PriceMap.rbegin in Hlast. by apply last_None in Hlast. }
    set (o' := Order.mk GoodTillCancel (Order.GetOrderId o) (Order.GetSide o) worst
                 (Order.GetInitialQuantity o) (Order.GetRemainingQuantity o)).
    set (b1 := Book.store order o' b).
    assert (Hd1 : Book.deref order b1 = Done o')
      by (by apply (deref_store_eq _ _ o)).
    assert (Hnew1 : Book.orders_ b1 !! Order.GetOrderId o' = None) by done.
    pose proof (place_limit order b1 o' Hd1 eq_refl Hnew1) as Hp1.
    assert (Hp : Book.HandleAddOrder_place order b
                 = Book.HandleAddOrder_place order b1)
      by (by apply (place_Market order b o worst l)).
    rewrite <- Hp in Hp1.
    apply (HandleAddOrder_crossed fuel order b _ r Hp1).
    apply (place_marketable order b1 o' _ Hd1 eq_refl Hnew1); [| by rewrite <- Hp].
    unfold Inv.marketable. simpl. clear Hp Hp1.
    destruct Hs as [Hsb Hsa]. unfold Inv.opposite, PriceMap.rbegin in *.
    destruct (Order.GetSide o).
    + destruct (head (Book.asks_ b).*1) as [first |] eqn:Hh.
      2: { destruct (Book.asks_ b); done. }
      exists first. split; [done |].
      apply (sorted_less_head_last (Book.asks_ b).*1); [done | done |].
      by rewrite fmap_last, Hlast.
    + destruct (head (Book.bids_ b).*1) as [first |] eqn:Hh.
      2: { destruct (Book.bids_ b); done. }
      exists first. split; [done |].
      apply (sorted_greater_head_last (Book.bids_ b).*1); [done | done |].
      by rewrite fmap_last, Hlast.
Qed.

Lemma marketable_order_never_returns_witness :
  Book.HandleAddOrder 5 Example.limit_sell.1 Example.limit_sell.2
  <> Done ([], Example.limit_sell.2).
Proof.
  apply (marketable_order_never_returns 5 Example.limit_sell.1
           Example.limit_sell.2 (Order.mk GoodTillCancel 3 Sell 100 4 4)).
  - by vm_compute.
  - by vm_compute.
  - vm_compute. repeat constructor.
  - left. split; [reflexivity |]. exists 100. split; [by vm_compute | simpl; lia].
Defined.

(** ** The price-indexed book *)

Lemma PRICE_LEVELS_eq : PriceIndexedOrderbook.PRICE_LEVELS = 1000001%N.
Proof. reflexivity. Qed.

Lemma price_to_index_lt price :
  (PriceIndexedOrderbook.price_to_index price
   < PriceIndexedOrderbook.PRICE_LEVELS)%N.
Proof.
  rewrite PRICE_LEVELS_eq. unfold PriceIndexedOrderbook.price_to_index.
  unfold PriceIndexedOrderbook.MIN_PRICE, PriceIndexedOrderbook.MAX_PRICE,
    PriceIndexedOrderbook.TICK_SIZE. rewrite PRICE_LEVELS_eq.
  repeat case_bool_decide; [lia | lia |]. rewrite Z.quot_1_r. lia.
Qed.

Lemma price_to_index_in_range price :
  0 <= price <= PriceIndexedOrderbook.MAX_PRICE ->
  PriceIndexedOrderbook.price_to_index price = Z.to_N price.
Proof.
  unfold PriceIndexedOrderbook.price_to_index.
  unfold PriceIndexedOrderbook.MIN_PRICE, PriceIndexedOrderbook.MAX_PRICE,
    PriceIndexedOrderbook.TICK_SIZE. intros Hp.
  rewrite !bool_decide_eq_false_2 by lia. rewrite Z.quot_1_r. f_equal. lia.
Qed.

(** X25. A price that is not negative always has a level: its index is
    below [PRICE_LEVELS], so [GetBidLevel] and [GetAskLevel] never
    answer [nullptr]; the index is the price itself up to [MAX_PRICE],
    and every price beyond shares the last level, whose price is
    [MAX_PRICE]. *)
Theorem price_index_clamps price b :
  0 <= price ->
  (PriceIndexedOrderbook.price_to_index price
   < PriceIndexedOrderbook.PRICE_LEVELS)%N
  /\ PriceIndexedOrderbook.GetBidLevel price b
     = Some (PriceIndexedOrderbook.price_to_index price)
  /\ PriceIndexedOrderbook.GetAskLevel price b
     = Some (PriceIndexedOrderbook.price_to_index price)
  /\ PriceIndexedOrderbook.index_to_price
       (PriceIndexedOrderbook.price_to_index price)
     = Z.min price PriceIndexedOrderbook.MAX_PRICE
  /\ PriceIndexedOrderbook.price
       (PriceIndexedOrderbook.bid_levels_ PriceIndexedOrderbook.ctor
          (PriceIndexedOrderbook.price_to_index price))
     = Z.min price PriceIndexedOrderbook.MAX_PRICE
  /\ (PriceIndexedOrderbook.MAX_PRICE <= price ->
      PriceIndexedOrderbook.price_to_index price
      = PriceIndexedOrderbook.price_to_index PriceIndexedOrderbook.MAX_PRICE).
Proof.
  intros Hp. pose proof (price_to_index_lt price) as Hlt.
  split; [done |].
  unfold PriceIndexedOrderbook.GetBidLevel, PriceIndexedOrderbook.GetAskLevel.
  rewrite !bool_decide_eq_false_2 by lia. split; [done |]. split; [done |].
  assert (Hi : PriceIndexedOrderbook.index_to_price
                 (PriceIndexedOrderbook.price_to_index price)
               = Z.min price PriceIndexedOrderbook.MAX_PRICE).
  { unfold PriceIndexedOrderbook.index_to_price,
      PriceIndexedOrderbook.price_to_index.
    rewrite PRICE_LEVELS_eq.
    unfold PriceIndexedOrderbook.MIN_PRICE, PriceIndexedOrderbook.MAX_PRICE,
      PriceIndexedOrderbook.TICK_SIZE.
    rewrite bool_decide_eq_false_2 by lia.
    case_bool_decide; [lia |]. rewrite Z.quot_1_r. lia. }
  split; [done |]. split; [done |].
  intros Hmax. unfold PriceIndexedOrderbook.price_to_index.
  unfold PriceIndexedOrderbook.MIN_PRICE, PriceIndexedOrderbook.MAX_PRICE,
    PriceIndexedOrderbook.TICK_SIZE in *. rewrite PRICE_LEVELS_eq.
  rewrite !bool_decide_eq_false_2 by lia.
  case_bool_decide; [done |]. rewrite !Z.quot_1_r. f_equal. lia.
Qed.

Lemma price_index_clamps_witness :
  PriceIndexedOrderbook.GetBidLevel 2000000 PriceIndexedOrderbook.ctor
  = Some (PriceIndexedOrderbook.price_to_index 2000000)
  /\ PriceIndexedOrderbook.index_to_price
       (PriceIndexedOrderbook.price_to_index 2000000)
     = Z.min 2000000 PriceIndexedOrderbook.MAX_PRICE.
Proof.
  destruct (price_index_clamps 2000000 PriceIndexedOrderbook.ctor)
    as (_ & Hb & _ & Hi & _); [lia |].
  split; [exact Hb | exact Hi].
Defined.

Section PriceIndexedOrderbook_facts.
Import PriceIndexedOrderbook.


Lemma assign_eq levels index level : assign levels index level index = level.
Proof. unfold assign. by rewrite bool_decide_eq_true_2. Qed.

Lemma assign_ne levels index level i :
  i <> index -> assign levels index level i = levels i.
Proof. intros. unfold assign. by rewrite bool_decide_eq_false_2. Qed.

Lemma UpdateBidLevel_frame price dq dc b :
  bid_levels_ (UpdateBidLevel price dq dc b)
  = assign (bid_levels_ b) (price_to_index price)
      (updated (bid_levels_ b (price_to_index price)) dq dc)
  /\ ask_levels_ (UpdateBidLevel price dq dc b) = ask_levels_ b
  /\ best_ask_price_ (UpdateBidLevel price dq dc b) = best_ask_price_ b
  /\ orders_ (UpdateBidLevel price dq dc b) = orders_ b.
Proof.
  unfold UpdateBidLevel. pose proof (price_to_index_lt price).
  rewrite bool_decide_eq_false_2 by lia. simpl.
  by repeat case_bool_decide.
Qed.

Lemma UpdateAskLevel_frame price dq dc b :
  ask_levels_ (UpdateAskLevel price dq dc b)
  = assign (ask_levels_ b) (price_to_index price)
      (updated (ask_levels_ b (price_to_index price)) dq dc)
  /\ bid_levels_ (UpdateAskLevel price dq dc b) = bid_levels_ b
  /\ best_bid_price_ (UpdateAskLevel price dq dc b) = best_bid_price_ b
  /\ orders_ (UpdateAskLevel price dq dc b) = orders_ b.
Proof.
  unfold UpdateAskLevel. pose proof (price_to_index_lt price).
  rewrite bool_decide_eq_false_2 by lia. simpl.
  by repeat case_bool_decide.
Qed.

Lemma updated_add level q :
  0 <= q -> 0 <= total_quantity level ->
  total_quantity level + q < Quantity_modulus ->
  0 <= order_count level -> order_count level + 1 < Quantity_modulus ->
  updated level q 1
  = mkLevel (price level) (total_quantity level + q) (order_count level + 1).
Proof.
  intros. unfold updated. rewrite !Z.max_r by lia.
  by rewrite !wrapQ_small by lia.
Qed.

Lemma updated_add_remove level q :
  0 <= q -> 0 <= total_quantity level ->
  total_quantity level + q < Quantity_modulus ->
  0 <= order_count level -> order_count level + 1 < Quantity_modulus ->
  updated (updated level q 1) (- q) (-1) = level.
Proof.
  intros. rewrite updated_add by done. unfold updated. simpl.
  rewrite !Z.max_r by lia. rewrite !wrapQ_small by lia.
  destruct level; simpl. f_equal; lia.
Qed.

(** X26. [AddOrder] on the price-indexed book records an order whose
    id is new at the level of its price on its side, what remains of it
    added to the total and the count one up, and ignores the same
    order a second time; [CancelOrder] of the id then takes both off
    again and forgets the id, leaving every level of both sides and the
    index of ids as they were. *)
Theorem indexed_add_then_cancel p h b o :
  Heap.read Order.zero p h = Some o ->
  orders_ b !! Order.GetOrderId o = None ->
  let index := price_to_index (Order.GetPrice o) in
  let level := Inv.side_levels (Order.GetSide o) b index in
  0 <= Order.GetRemainingQuantity o ->
  0 <= total_quantity level ->
  total_quantity level + Order.GetRemainingQuantity o < Quantity_modulus ->
  0 <= order_count level ->
  order_count level + 1 < Quantity_modulus ->
  exists b1 b2,
    AddOrder (Some p) h b = Done b1
    /\ Inv.side_levels (Order.GetSide o) b1 index
       = mkLevel (price level)
           (total_quantity level + Order.GetRemainingQuantity o)
           (order_count level + 1)
    /\ orders_ b1 !! Order.GetOrderId o = Some (Some p)
    /\ AddOrder (Some p) h b1 = Done b1
    /\ CancelOrder (Order.GetOrderId o) h b1 = Done b2
    /\ (forall side i, Inv.side_levels side b2 i = Inv.side_levels side b i)
    /\ orders_ b2 = orders_ b.
Proof.
  intros Hr Hnew index level Hq Ht Htq Hc Hcq.
  unfold AddOrder, CancelOrder. rewrite Hr. simpl. rewrite Hnew.
  rewrite (bool_decide_eq_false_2 (is_Some None)) by (by intros [? ?]).
  unfold Inv.side_levels in *.
  destruct (Order.GetSide o) eqn:Hside; simpl.
  - set (b0 := set_orders _ b).
    destruct (UpdateBidLevel_frame (Order.GetPrice o)
                (Order.GetRemainingQuantity o) 1 b0) as (Hb1 & Ha1 & _ & Ho1).
    set (b1 := UpdateBidLevel _ _ 1 b0) in *.
    destruct (UpdateBidLevel_frame (Order.GetPrice o)
                (- Order.GetRemainingQuantity o) (-1) b1) as (Hb2 & Ha2 & _ & Ho2).
    eexists b1, _. split; [done |].
    split; [rewrite Hb1, assign_eq; by apply updated_add |].
    assert (Hin : orders_ b1 !! Order.GetOrderId o = Some (Some p))
      by (rewrite Ho1; apply lookup_insert_eq).
    split; [done |]. rewrite Hin.
    rewrite bool_decide_eq_true_2 by done. split; [done |].
    rewrite Hr. simpl. rewrite Hside. simpl. split; [reflexivity |].
    simpl. rewrite Ho2, Ho1. simpl. split.
    + intros [] i; simpl.
      * rewrite Hb2, Hb1. fold index.
        destruct (decide (i = index)) as [-> | Hne].
        -- rewrite !assign_eq. by apply updated_add_remove.
        -- by rewrite !assign_ne.
      * by rewrite Ha2, Ha1.
    + rewrite delete_insert_eq. by apply delete_id.
  - set (b0 := set_orders _ b).
    destruct (UpdateAskLevel_frame (Order.GetPrice o)
                (Order.GetRemainingQuantity o) 1 b0) as (Ha1 & Hb1 & _ & Ho1).
    set (b1 := UpdateAskLevel _ _ 1 b0) in *.
    destruct (UpdateAskLevel_frame (Order.GetPrice o)
                (- Order.GetRemainingQuantity o) (-1) b1) as (Ha2 & Hb2 & _ & Ho2).
    eexists b1, _. split; [done |].
    split; [rewrite Ha1, assign_eq; by apply updated_add |].
    assert (Hin : orders_ b1 !! Order.GetOrderId o = Some (Some p))
      by (rewrite Ho1; apply lookup_insert_eq).
    split; [done |]. rewrite Hin.
    rewrite bool_decide_eq_true_2 by done. split; [done |].
    rewrite Hr. simpl. rewrite Hside. simpl. split; [reflexivity |].
    simpl. rewrite Ho2, Ho1. simpl. split.
    + intros [] i; simpl.
      * by rewrite Hb2, Hb1.
      * rewrite Ha2, Ha1. fold index.
        destruct (decide (i = index)) as [-> | Hne].
        -- rewrite !assign_eq. by apply updated_add_remove.
        -- by rewrite !assign_ne.
    + rewrite delete_insert_eq. by apply delete_id.
Qed.


Lemma scan_down_is_best levels n : Inv.is_best_bid levels n (scan_down levels n).
Proof.
  induction n as [| n IH]; simpl.
  - right. split; [done |]. intros j Hj. lia.
  - case_bool_decide as Hpos.
    + left. exists n. split; [lia |]. split; [done |]. split; [done |].
      intros j Hj. lia.
    + destruct IH as [(i & Hi & Hq & Hp & Habove) | [Hp Hnone]].
      * left. exists i. split; [lia |]. split; [done |]. split; [done |].
        intros j Hj. destruct (decide (j = n)) as [-> | Hne]; [done |].
        apply Habove. lia.
      * right. split; [done |]. intros j Hj.
        destruct (decide (j = n)) as [-> | Hne]; [done |]. apply Hnone. lia.
Qed.

Lemma is_best_bid_scan levels n p :
  Inv.is_best_bid levels n p -> scan_down levels n = p.
Proof.
  induction n as [| n IH]; simpl.
  - intros [(i & Hi & _) | [-> _]]; [lia | done].
  - intros [(i & Hi & Hq & -> & Habove) | [-> Hnone]].
    + destruct (decide (i = n)) as [-> | Hne].
      * by rewrite bool_decide_eq_true_2.
      * rewrite bool_decide_eq_false_2 by (apply Habove; lia).
        apply IH. left. exists i. split; [lia |]. split; [done |].
        split; [done |]. intros j Hj. apply Habove. lia.
    + rewrite bool_decide_eq_false_2 by (apply Hnone; lia).
      apply IH. right. split; [done |]. intros j Hj. apply Hnone. lia.
Qed.

Lemma levels_ok_assign levels index level :
  Inv.levels_ok levels ->
  price level = price (levels index) ->
  0 <= total_quantity level < Quantity_modulus ->
  Inv.levels_ok (assign levels index level).
Proof.
  intros Hok Hp Ht i. unfold assign. case_bool_decide as Hi; [| apply Hok].
  subst i. split; [| done]. rewrite Hp. apply Hok.
Qed.

(** The best bid after an update of a level, from the best bid
    before. *)
Lemma is_best_bid_update levels n k (level : PriceLevel) best dq :
  Inv.levels_ok levels ->
  (k < n)%nat ->
  price level = price (levels (N.of_nat k)) ->
  total_quantity level = Z.max 0 (total_quantity (levels (N.of_nat k)) + dq) ->
  Inv.is_best_bid levels n best ->
  let levels' := assign levels (N.of_nat k) level in
  (dq > 0 -> Z.of_nat k > best -> Inv.is_best_bid levels' n (Z.of_nat k))
  /\ (dq > 0 -> Z.of_nat k <= best -> Inv.is_best_bid levels' n best)
  /\ (dq <= 0 ->
      (dq < 0 -> ~ (Z.of_nat k = best /\ total_quantity level = 0)) ->
      Inv.is_best_bid levels' n best).
Proof.
  intros Hok Hk Hprice Htotal Hbest levels'.
  assert (Hidx : forall i : nat, price (levels (N.of_nat i)) = Z.of_nat i).
  { intros i. destruct (Hok (N.of_nat i)) as [-> _].
    unfold index_to_price, MIN_PRICE, TICK_SIZE. lia. }
  assert (Hrange : forall i : nat, 0 <= total_quantity (levels (N.of_nat i))).
  { intros i. destruct (Hok (N.of_nat i)) as [_ ?]. lia. }
  assert (Hother : forall j : nat, j <> k -> levels' (N.of_nat j) = levels (N.of_nat j)).
  { intros j Hj. unfold levels'. apply assign_ne. lia. }
  assert (Hself : levels' (N.of_nat k) = level) by apply assign_eq.
  pose proof (Hrange k) as Hrk. pose proof (Hidx k) as Hik.
  split; [| split].
  - intros Hdq Hgt. left. exists k. split; [done |].
    rewrite Hself. split; [lia |]. split; [lia |].
    intros j Hj. rewrite Hother by lia.
    destruct Hbest as [(i & Hi & Hq & Hp & Habove) | [Hp Hnone]].
    + apply Habove. rewrite Hidx in Hp. lia.
    + apply Hnone. lia.
  - intros Hdq Hle.
    destruct Hbest as [(i & Hi & Hq & Hp & Habove) | [Hp Hnone]].
    + rewrite Hidx in Hp. left. exists i. split; [done |].
      destruct (decide (i = k)) as [-> | Hne].
      * rewrite Hself. split; [lia |]. split; [lia |].
        intros j Hj. rewrite Hother by lia. by apply Habove.
      * rewrite Hother by done. split; [done |]. split; [by rewrite Hidx |].
        intros j Hj. rewrite Hother by lia. by apply Habove.
    + assert (k = 0%nat) as -> by lia. left. exists 0%nat. split; [done |].
      rewrite Hself. split; [lia |]. split; [lia |].
      intros j Hj. rewrite Hother by lia. apply Hnone. lia.
  - intros Hdq Hnot.
    destruct Hbest as [(i & Hi & Hq & Hp & Habove) | [Hp Hnone]].
    + rewrite Hidx in Hp. left. exists i. split; [done |].
      destruct (decide (i = k)) as [-> | Hne].
      * rewrite Hself. split; [lia |]. split; [lia |].
        intros j Hj. rewrite Hother by lia. by apply Habove.
      * rewrite Hother by done. split; [done |]. split; [by rewrite Hidx |].
        intros j Hj. destruct (decide (j = k)) as [-> | Hjk].
        -- rewrite Hself. specialize (Habove k Hj). lia.
        -- rewrite Hother by done. by apply Habove.
    + right. split; [done |]. intros j Hj.
      destruct (decide (j = k)) as [-> | Hjk].
      * rewrite Hself. specialize (Hnone k Hj). lia.
      * rewrite Hother by done. by apply Hnone.
Qed.

Lemma ctor_tracked : Inv.levels_ok (bid_levels_ ctor) /\ Inv.bid_tracked ctor.
Proof.
  split.
  - intros i. cbn [bid_levels_ ctor PriceIndexedOrderbook.price total_quantity].
    unfold Quantity_modulus. split; [done | lia].
  - unfold Inv.bid_tracked. symmetry. apply is_best_bid_scan.
    right. split; [done |]. intros j _.
    cbn [bid_levels_ ctor PriceIndexedOrderbook.price total_quantity]. lia.
Qed.

Lemma best_bid_UpdateBidLevel price dq dc b :
  let index := price_to_index price in
  let level := updated (bid_levels_ b index) dq dc in
  best_bid_price_ (UpdateBidLevel price dq dc b)
  = if bool_decide (dq > 0) && bool_decide (price > best_bid_price_ b) then price
    else if bool_decide (dq < 0) && bool_decide (price = best_bid_price_ b)
            && bool_decide (total_quantity level = 0)
    then scan_down (assign (bid_levels_ b) index level) (N.to_nat PRICE_LEVELS)
    else best_bid_price_ b.
Proof.
  intros index level. unfold UpdateBidLevel.
  pose proof (price_to_index_lt price). fold index.
  rewrite bool_decide_eq_false_2 by lia. fold level.
  set (c1 := bool_decide (dq > 0) && _). set (c2 := _ && _ && _).
  by destruct c1, c2.
Qed.

(** X27. The best bid of the price-indexed book is tracked exactly:
    on the constructed book, and after every [UpdateBidLevel] at a
    price of the range whose new total still fits a [Quantity],
    [best_bid_price_] is what a scan of all levels finds, the price of
    the highest level with a positive total or 0 when there is none;
    no level with a positive total lies above it, and the levels keep
    the price of their index. *)
Theorem best_bid_is_tracked price dq dc b :
  Inv.levels_ok (bid_levels_ b) ->
  Inv.bid_tracked b ->
  0 <= price <= MAX_PRICE ->
  total_quantity (bid_levels_ b (price_to_index price)) + dq < Quantity_modulus ->
  let b' := UpdateBidLevel price dq dc b in
  Inv.levels_ok (bid_levels_ ctor) /\ Inv.bid_tracked ctor
  /\ Inv.levels_ok (bid_levels_ b') /\ Inv.bid_tracked b'
  /\ Inv.is_best_bid (bid_levels_ b') (N.to_nat PRICE_LEVELS) (best_bid_price_ b')
  /\ forall i, (i < PRICE_LEVELS)%N -> total_quantity (bid_levels_ b' i) > 0 ->
               index_to_price i <= best_bid_price_ b'.
Proof.
  intros Hok Htr Hp Hfit b'.
  pose proof PRICE_LEVELS_eq as HPL. unfold MAX_PRICE in Hp.
  pose proof ctor_tracked as Hctor.
  destruct Hctor as [Hc1 Hc2]. split; [done |]. split; [done |].
  destruct (UpdateBidLevel_frame price dq dc b) as (Hlev & _).
  fold b' in Hlev.
  set (index := price_to_index price) in *.
  set (level := updated (bid_levels_ b index) dq dc) in *.
  pose proof (price_to_index_lt price) as Hlt. fold index in Hlt.
  assert (Hindex : index = N.of_nat (Z.to_nat price)).
  { unfold index. rewrite price_to_index_in_range by done. lia. }
  destruct (Hok index) as [Hpi Hti].
  assert (Htotal : total_quantity level
                   = Z.max 0 (total_quantity (bid_levels_ b index) + dq)).
  { unfold level, updated. cbn [total_quantity]. apply wrapQ_small. lia. }
  assert (Hok' : Inv.levels_ok (bid_levels_ b')).
  { rewrite Hlev. apply (levels_ok_assign (bid_levels_ b) index level Hok).
    - reflexivity.
    - rewrite Htotal. lia. }
  split; [done |].
  pose proof (best_bid_UpdateBidLevel price dq dc b) as Hbb.
  cbv zeta in Hbb. fold b' index level in Hbb. clearbody b'.
  assert (Hbest' : Inv.is_best_bid (bid_levels_ b') (N.to_nat PRICE_LEVELS)
                     (best_bid_price_ b')).
  { pose proof (scan_down_is_best (bid_levels_ b) (N.to_nat PRICE_LEVELS)) as Hbest.
    rewrite <- Htr in Hbest.
    assert (Hk : (Z.to_nat price < N.to_nat PRICE_LEVELS)%nat) by lia.
    assert (Hpl : PriceIndexedOrderbook.price level
                  = PriceIndexedOrderbook.price
                      (bid_levels_ b (N.of_nat (Z.to_nat price))))
      by (rewrite <- Hindex; reflexivity).
    assert (Htl : total_quantity level
                  = Z.max 0 (total_quantity
                               (bid_levels_ b (N.of_nat (Z.to_nat price))) + dq))
      by (rewrite <- Hindex; exact Htotal).
    destruct (is_best_bid_update (bid_levels_ b) (N.to_nat PRICE_LEVELS)
                (Z.to_nat price) level (best_bid_price_ b) dq Hok Hk Hpl Htl Hbest)
      as (Hup & Hsame & Hdown).
    rewrite <- Hindex in Hup, Hsame, Hdown. rewrite <- Hlev in Hup, Hsame, Hdown.
    replace (Z.of_nat (Z.to_nat price)) with price in * by lia.
    destruct (decide (dq > 0)) as [Hdq | Hdq].
    - rewrite (bool_decide_eq_true_2 (dq > 0)) in Hbb by done.
      rewrite (bool_decide_eq_false_2 (dq < 0)) in Hbb by lia.
      cbn [andb] in Hbb.
      destruct (decide (price > best_bid_price_ b)) as [Hgt | Hgt].
      + rewrite (bool_decide_eq_true_2 (price > _)) in Hbb by done.
        rewrite Hbb. by apply Hup.
      + rewrite (bool_decide_eq_false_2 (price > _)) in Hbb by done.
        rewrite Hbb. apply Hsame; [done | lia].
    - rewrite (bool_decide_eq_false_2 (dq > 0)) in Hbb by done.
      cbn [andb] in Hbb.
      destruct (bool_decide (dq < 0) && bool_decide (price = best_bid_price_ b)
                && bool_decide (total_quantity level = 0)) eqn:Hcond.
      + rewrite Hbb, <- Hlev. apply scan_down_is_best.
      + rewrite Hbb. apply Hdown; [lia |]. intros Hneg [Heq Hz].
        rewrite (bool_decide_eq_true_2 (dq < 0)) in Hcond by done.
        rewrite (bool_decide_eq_true_2 (price = _)) in Hcond by done.
        by rewrite (bool_decide_eq_true_2 (total_quantity level = 0)) in Hcond. }
  split; [symmetry; by apply is_best_bid_scan |]. split; [done |].
  intros i Hi Hpos.
  assert (Hidx : index_to_price i = Z.of_N i)
    by (unfold index_to_price, MIN_PRICE, TICK_SIZE; lia).
  destruct Hbest' as [(i0 & Hi0 & Hq & Hpb & Habove) | [Hpb Hnone]].
  - rewrite Hpb. destruct (Hok' (N.of_nat i0)) as [-> _].
    unfold index_to_price, MIN_PRICE, TICK_SIZE.
    destruct (decide (N.to_nat i <= i0)%nat); [lia |].
    destruct (Habove (N.to_nat i)); [lia |]. by rewrite N2Nat.id.
  - destruct (Hnone (N.to_nat i)); [lia |]. by rewrite N2Nat.id.
Qed.


(** X28. What [WouldCross] answers. For a sell, with the best bid
    tracked, it is [true] exactly when some level above index 0 holds a
    positive total at a price not below the aggressive one; a bid that
    rests at price 0 is never met, 0 being the mark of an empty side.
    For a buy on the constructed book, where no level holds anything,
    it is [true] for every price from [MAX_PRICE] on: the mark of an
    empty ask side passes for an ask. *)
Theorem WouldCross_meaning aggressive_price b :
  Inv.levels_ok (bid_levels_ b) ->
  Inv.bid_tracked b ->
  (WouldCross aggressive_price Sell b = true
   <-> exists i, (0 < i < PRICE_LEVELS)%N
         /\ total_quantity (bid_levels_ b i) > 0
         /\ aggressive_price <= index_to_price i)
  /\ (WouldCross aggressive_price Buy ctor = true
      <-> MAX_PRICE <= aggressive_price)
  /\ forall i, total_quantity (ask_levels_ ctor i) = 0.
Proof.
  intros Hok Htr. pose proof PRICE_LEVELS_eq as HPL.
  assert (Hidx : forall i, index_to_price i = Z.of_N i)
    by (intros i; unfold index_to_price, MIN_PRICE, TICK_SIZE; lia).
  pose proof (scan_down_is_best (bid_levels_ b) (N.to_nat PRICE_LEVELS)) as Hbest.
  rewrite <- Htr in Hbest.
  split; [| split].
  - unfold WouldCross. rewrite andb_true_iff, !bool_decide_eq_true. split.
    + intros [Hpos Hle].
      destruct Hbest as [(i & Hi & Hq & Hp & _) | [Hp _]]; [| lia].
      destruct (Hok (N.of_nat i)) as [Hpi _]. rewrite Hpi, Hidx in Hp.
      exists (N.of_nat i). rewrite Hidx. split; [lia |]. split; [done | lia].
    + intros (i & Hi & Hq & Hle). rewrite Hidx in Hle.
      destruct Hbest as [(i0 & Hi0 & Hq0 & Hp & Habove) | [_ Hnone]].
      * destruct (Hok (N.of_nat i0)) as [Hpi _]. rewrite Hpi, Hidx in Hp.
        destruct (decide (N.to_nat i <= i0)%nat) as [Hle0 | Hgt]; [lia |].
        destruct (Habove (N.to_nat i)); [lia |]. by rewrite N2Nat.id.
      * destruct (Hnone (N.to_nat i)); [lia |]. by rewrite N2Nat.id.
  - unfold WouldCross. cbn [best_ask_price_ ctor].
    rewrite andb_true_iff, !bool_decide_eq_true. lia.
  - done.
Qed.

Lemma WouldCross_meaning_witness :
  (WouldCross 5 Sell ctor = true
   <-> exists i, (0 < i < PRICE_LEVELS)%N
         /\ total_quantity (bid_levels_ ctor i) > 0
         /\ 5 <= index_to_price i)
  /\ (WouldCross 5 Buy ctor = true <-> MAX_PRICE <= 5)
  /\ forall i, total_quantity (ask_levels_ ctor i) = 0.
Proof.
  apply (WouldCross_meaning 5 ctor); apply ctor_tracked.
Defined.

Lemma indexed_add_then_cancel_witness :
  let o := Order.mk GoodTillCancel 1 Buy 100 10 10 in
  let h := Heap.write 0 o (Heap.mk ∅ 1) in
  exists b1 b2,
    AddOrder (Some 0%N) h ctor = Done b1
    /\ bid_levels_ b1 (price_to_index 100) = mkLevel 100 10 1
    /\ CancelOrder 1 h b1 = Done b2
    /\ orders_ b2 = orders_ ctor.
Proof.
  intros o h.
  destruct (indexed_add_then_cancel 0%N h ctor o)
    as (b1 & b2 & Ha & Hl & _ & _ & Hc & _ & Ho).
  - reflexivity.
  - reflexivity.
  - simpl. lia.
  - simpl. lia.
  - simpl. unfold Quantity_modulus. lia.
  - simpl. lia.
  - simpl. unfold Quantity_modulus. lia.
  - exists b1, b2. split; [exact Ha |]. split; [exact Hl |].
    split; [exact Hc | exact Ho].
Defined.

Lemma best_bid_is_tracked_witness :
  let b' := UpdateBidLevel 100 10 1 ctor in
  Inv.bid_tracked b'
  /\ Inv.is_best_bid (bid_levels_ b') (N.to_nat PRICE_LEVELS) (best_bid_price_ b').
Proof.
  destruct (best_bid_is_tracked 100 10 1 ctor) as (_ & _ & _ & Ht & Hb & _).
  - apply ctor_tracked.
  - apply ctor_tracked.
  - unfold MAX_PRICE. lia.
  - cbn [bid_levels_ ctor total_quantity]. unfold Quantity_modulus. lia.
  - split; [exact Ht | exact Hb].
Defined.

End PriceIndexedOrderbook_facts.
